(** * aa-reactions: the planning core of [aareactions/helper.py],
      [aareactions/views.py] and [aareactions/pricing.py]

    A shallow embedding of the input parser, the categorizer, the refining
    engine, the capacity calculators, the facility bonuses, the first
    planning pass, the price lookup, the chain bookkeeping and the listing
    of the chains, followed by the properties established about them.

    Conventions of the embedding.
    - Python [int] is [Z]; [//] is [Z.div] (both round towards minus
      infinity).
    - Python [str] is a sequence of code points; the model covers the code
      points U+0000 to U+00FF, one [ascii] each (so the multiplication sign
      U+00D7 is the character 215).
    - [decimal.Decimal] is modelled by its value, a rational number; every
      arithmetic operation rounds its exact result to the 28 significant
      digits of the default context, ties to even.  [float] is modelled the
      same way with 53 significant bits.
    - A [dict] that is iterated is an association list in insertion order;
      a [dict] that is only read and written by key is a [gmap].
    - Code that may raise returns [option] or a sum type. *)

From Stdlib Require Import ZArith QArith Qcanon Qround Qminmax Lia Lqa List Ascii String Permutation.
From stdpp Require Import base gmap strings list numbers.

Local Open Scope Z_scope.

(* ===================================================================== *)
(** * Numbers: rounding to a number of significant digits                 *)
(* ===================================================================== *)

Module Num.

Fixpoint digits_aux (b : Z) (fuel : nat) (n : Z) : Z :=
  match fuel with
  | O => 0
  | S f => if n <? b then 1 else 1 + digits_aux b f (n / b)
  end.

(** Number of base-[b] digits of [n > 0]. *)
Definition digits (b n : Z) : Z := digits_aux b (S (Z.to_nat (Z.log2 n))) n.

(** [floor (log_b (n / d))] for [n, d > 0]. *)
Definition ilog (b n d : Z) : Z :=
  let e1 := digits b n - digits b d in
  if (if 0 <=? e1 then b ^ e1 * d <=? n else d <=? n * b ^ (- e1))
  then e1 else e1 - 1.

(** [n / d] rounded to the nearest integer, ties to even ([d > 0]). *)
Definition div_half_even (n d : Z) : Z :=
  let q := n / d in
  match 2 * (n mod d) ?= d with
  | Lt => q
  | Gt => q + 1
  | Eq => if Z.even q then q else q + 1
  end.

(** [n / d] rounded to the nearest integer, ties away from zero. *)
Definition div_half_up (n d : Z) : Z :=
  if 0 <=? n then (2 * n + d) / (2 * d) else - ((2 * (- n) + d) / (2 * d)).

(** [x * b ^ (- e)] as a fraction with a positive denominator. *)
Definition scaled (b : Z) (x : Q) (e : Z) : Z * Z :=
  if e <=? 0 then (Qnum x * b ^ (- e), Zpos (Qden x))
  else (Qnum x, Zpos (Qden x) * b ^ e).

(** [m * b ^ e] as a rational. *)
Definition unscaled (b m e : Z) : Qc :=
  if 0 <=? e then Qc_of_Z (m * b ^ e)
  else Q2Qc (Qmake m (Z.to_pos (b ^ (- e)))).

(** [x] rounded to [p] significant base-[b] digits, ties to even; the
    exponent of the last digit is never below [emin]. *)
Definition round_sig (b p emin : Z) (x : Qc) : Qc :=
  if Qnum x =? 0 then x
  else
    let e := Z.max (ilog b (Z.abs (Qnum x)) (Zpos (Qden x)) - (p - 1)) emin in
    let '(n, d) := scaled b x e in
    unscaled b (div_half_even n d) e.

Definition Qc_floor (x : Qc) : Z := Qfloor x.
Definition Qc_ceiling (x : Qc) : Z := Qceiling x.
(** Rounding towards zero. *)
Definition Qc_trunc (x : Qc) : Z := Z.quot (Qnum x) (Zpos (Qden x)).

Definition Qc_leb (x y : Qc) : bool := Qle_bool x y.
Definition Qc_ltb (x y : Qc) : bool := negb (Qle_bool y x).

End Num.

(* ===================================================================== *)
(** * [decimal.Decimal], default context                                  *)
(* ===================================================================== *)

Module Decimal.

(** The value of a [Decimal].  Exponents stay far from [Emax] and [Emin] in
    this program, so overflow is not modelled; [etiny] is the smallest
    exponent of the context. *)
Definition t : Type := Qc.

Definition prec : Z := 28.
Definition etiny : Z := -1000026.

(** The context rounding applied to the exact result of an operation. *)
Definition fix_ (x : Qc) : t := Num.round_sig 10 prec etiny x.

Definition add (x y : t) : t := fix_ (x + y)%Qc.
Definition sub (x y : t) : t := fix_ (x - y)%Qc.
Definition mul (x y : t) : t := fix_ (x * y)%Qc.
(** [x / y] for [y <> 0]. *)
Definition div (x y : t) : t := fix_ (x / y)%Qc.

(** [Decimal(n)] for an [int]: exact, whatever the number of digits. *)
Definition of_Z (n : Z) : t := Qc_of_Z n.
(** The literal with coefficient [c] and [places] digits after the point,
    [Decimal("c.dd")]. *)
Definition lit (c : Z) (places : Z) : t := Num.unscaled 10 c (- places).

Definition zero : t := of_Z 0.

Inductive rounding := ROUND_HALF_EVEN | ROUND_HALF_UP | ROUND_DOWN.

(** The integer [x * 10 ^ places] rounded with [mode]. *)
Definition rescale (mode : rounding) (places : Z) (x : t) : Z :=
  let '(n, d) := Num.scaled 10 x (- places) in
  match mode with
  | ROUND_HALF_EVEN => Num.div_half_even n d
  | ROUND_HALF_UP => Num.div_half_up n d
  | ROUND_DOWN => Z.quot n d
  end.

(** [x.quantize(Decimal("0.0..1"), rounding=mode)] with [places] digits
    after the point; [None] stands for [InvalidOperation], raised when the
    coefficient of the result would have more than [prec] digits. *)
Definition quantize (mode : rounding) (places : Z) (x : t) : option t :=
  let c := rescale mode places x in
  if 10 ^ prec <=? Z.abs c then None else Some (lit c places).

(** [x.to_integral_value(rounding=ROUND_DOWN)] and [int(x)]. *)
Definition to_integral_down (x : t) : Z := Num.Qc_trunc x.
(** [math.ceil(x)]. *)
Definition ceil (x : t) : Z := Num.Qc_ceiling x.

(** The value printed by [f"{x:,.2f}"]: two places, ties to even, without
    a limit on the number of digits.  Reading the text back with
    [Decimal(s.replace(",", ""))] gives this value. *)
Definition display2 (x : t) : t := lit (rescale ROUND_HALF_EVEN 2 x) 2.

Definition leb (x y : t) : bool := Num.Qc_leb x y.
Definition ltb (x y : t) : bool := Num.Qc_ltb x y.
Definition eqb (x y : t) : bool := Qeq_bool x y.

(** [sum(xs)] over Decimals: [0 + x1 + x2 + ...], left to right. *)
Definition sum (xs : list t) : t := fold_left add xs zero.

End Decimal.

(* ===================================================================== *)
(** * [float]: IEEE 754 binary64                                          *)
(* ===================================================================== *)

Module Float.

(** A finite double, or an infinity. *)
Inductive t := Finite (x : Qc) | Inf.

(** Round to nearest, ties to even; 53 significant bits, least exponent
    -1074, overflow to infinity from [2 ^ 1024]. *)
Definition round (x : Qc) : t :=
  let y := Num.round_sig 2 53 (-1074) x in
  if Num.Qc_leb (Qc_of_Z (2 ^ 1024)) (if Num.Qc_ltb y 0 then - y else y)%Qc
  then Inf else Finite y.

(** [x * m] for a float [x] and a small [int] [m] (exactly a float). *)
Definition mul_int (x : t) (m : Z) : t :=
  match x with
  | Finite v => round (v * Qc_of_Z m)%Qc
  | Inf => Inf
  end.

(** [int(x)]; [None] stands for [OverflowError]. *)
Definition to_int (x : t) : option Z :=
  match x with
  | Finite v => Some (Num.Qc_trunc v)
  | Inf => None
  end.

End Float.

(* ===================================================================== *)
(** * [dict]: insertion-ordered dictionaries                              *)
(* ===================================================================== *)

Module PyDict.
Section dict.
Context {K V : Type} `{EqDecision K}.

(** The items in insertion order; a key occurs once. *)
Definition t : Type := list (K * V).

(** [d.get(k)] *)
Fixpoint get (d : t) (k : K) : option V :=
  match d with
  | [] => None
  | (k', v) :: rest => if decide (k' = k) then Some v else get rest k
  end.

(** [d[k] = v]: an existing key keeps its place, a new key goes last. *)
Fixpoint set (d : t) (k : K) (v : V) : t :=
  match d with
  | [] => [(k, v)]
  | (k', v') :: rest =>
      if decide (k' = k) then (k, v) :: rest else (k', v') :: set rest k v
  end.

Definition keys (d : t) : list K := map fst d.

End dict.
Arguments t : clear implicits.
End PyDict.

(* ===================================================================== *)
(** * Text: [str] methods and the [re] module                             *)
(* ===================================================================== *)

Module Text.

Definition code (c : ascii) : Z := Z.of_nat (nat_of_ascii c).
Definition chr (n : Z) : ascii := ascii_of_nat (Z.to_nat n).
Definition chars (s : string) : list ascii := list_ascii_of_string s.
Definition str (l : list ascii) : string := string_of_list_ascii l.

Definition ch_eqb (a b : ascii) : bool := Ascii.eqb a b.
(** [c in s] for a character [c]. *)
Definition one_of (s : string) (c : ascii) : bool := existsb (ch_eqb c) (chars s).

(** [str.isspace] and the class [\s]. *)
Definition is_space (c : ascii) : bool :=
  let n := code c in
  ((9 <=? n) && (n <=? 13)) || ((28 <=? n) && (n <=? 32))
  || (n =? 133) || (n =? 160).

(** The class [\d]. *)
Definition is_digit (c : ascii) : bool :=
  let n := code c in (48 <=? n) && (n <=? 57).

Definition digit_value (c : ascii) : Z := code c - 48.

Definition newline : ascii := chr 10.
Definition tab : ascii := chr 9.
Definition space : ascii := chr 32.
(** The multiplication sign U+00D7. *)
Definition times_sign : ascii := chr 215.

(** The class [.] (no DOTALL). *)
Definition is_dot (c : ascii) : bool := negb (ch_eqb c newline).

(** [str.lower] on one character. *)
Definition lower_char (c : ascii) : ascii :=
  let n := code c in
  if ((65 <=? n) && (n <=? 90))
     || ((192 <=? n) && (n <=? 222) && negb (n =? 215))
  then chr (n + 32) else c.

Definition lower (s : list ascii) : list ascii := map lower_char s.

Fixpoint lstrip_by (p : ascii -> bool) (s : list ascii) : list ascii :=
  match s with
  | c :: s' => if p c then lstrip_by p s' else s
  | [] => []
  end.
Definition rstrip_by (p : ascii -> bool) (s : list ascii) : list ascii :=
  rev (lstrip_by p (rev s)).
Definition strip_by (p : ascii -> bool) (s : list ascii) : list ascii :=
  rstrip_by p (lstrip_by p s).
(** [s.strip()]. *)
Definition strip (s : list ascii) : list ascii := strip_by is_space s.

(** [s.replace(c, "")] and [s.replace(c, d)] for single characters. *)
Definition remove_char (c : ascii) (s : list ascii) : list ascii :=
  List.filter (fun x => negb (ch_eqb x c)) s.
Definition replace_char (c d : ascii) (s : list ascii) : list ascii :=
  map (fun x => if ch_eqb x c then d else x) s.

Fixpoint startswith (pre s : list ascii) : bool :=
  match pre, s with
  | [], _ => true
  | p :: pre', c :: s' => ch_eqb p c && startswith pre' s'
  | _ :: _, [] => false
  end.

(** [sub in s]. *)
Fixpoint contains (sub s : list ascii) : bool :=
  startswith sub s ||
  match s with
  | _ :: s' => contains sub s'
  | [] => false
  end.

Definition list_eqb (a b : list ascii) : bool := bool_decide (a = b).

Fixpoint take_while (p : ascii -> bool) (s : list ascii) : list ascii :=
  match s with
  | c :: s' => if p c then c :: take_while p s' else []
  | [] => []
  end.

End Text.

Module Re.
Import Text.

(** The fragment of the pattern language that the program uses.  Every
    quantifier of its patterns applies to a single character class. *)
Inductive t :=
| Eps
| Chr (p : ascii -> bool)
| Cat (r1 r2 : t)
| Alt (r1 r2 : t)
| Rep (greedy : bool) (lo : nat) (hi : option nat) (p : ascii -> bool)
| Grp (g : nat) (r : t)
| Bol
| Eol.

Definition seq (rs : list t) : t := fold_right Cat Eps rs.
(** [r?] *)
Definition opt (r : t) : t := Alt r Eps.
(** [p*], [p+], [p+?], [p{2,}] *)
Definition star (p : ascii -> bool) : t := Rep true 0 None p.
Definition plus (p : ascii -> bool) : t := Rep true 1 None p.
Definition plus_lazy (p : ascii -> bool) : t := Rep false 1 None p.

Definition captures : Type := list (nat * list ascii).

Definition group (g : nat) (c : captures) : list ascii :=
  match List.find (fun e => Nat.eqb (fst e) g) c with
  | Some e => snd e
  | None => []
  end.

Definition exhausted (hi : option nat) : bool :=
  match hi with Some O => true | _ => false end.

(** The quantified class, with backtracking in the order of the [re]
    module: a greedy quantifier tries the longer match first, a lazy one
    the shorter. *)
Fixpoint rep {A} (greedy : bool) (p : ascii -> bool) (lo : nat)
    (hi : option nat) (s : list ascii) (k : list ascii -> option A) : option A :=
  match s with
  | [] => match lo with O => k [] | S _ => None end
  | c :: s' =>
      let can := p c && negb (exhausted hi) in
      match lo with
      | S lo' => if can then rep greedy p lo' (Nat.pred <$> hi) s' k else None
      | O =>
          if greedy then
            match (if can then rep greedy p O (Nat.pred <$> hi) s' k else None) with
            | Some a => Some a
            | None => k s
            end
          else
            match k s with
            | Some a => Some a
            | None => if can then rep greedy p O (Nat.pred <$> hi) s' k else None
            end
      end
  end.

(** Backtracking matcher in continuation-passing style; [n0] is the length
    of the whole subject, [s] what is left of it. *)
Fixpoint run {A} (n0 : nat) (r : t) (s : list ascii) (c : captures)
    (k : list ascii -> captures -> option A) : option A :=
  match r with
  | Eps => k s c
  | Chr p =>
      match s with
      | x :: s' => if p x then k s' c else None
      | [] => None
      end
  | Cat r1 r2 => run n0 r1 s c (fun s1 c1 => run n0 r2 s1 c1 k)
  | Alt r1 r2 =>
      match run n0 r1 s c k with
      | Some a => Some a
      | None => run n0 r2 s c k
      end
  | Rep g lo hi p => rep g p lo hi s (fun s' => k s' c)
  | Grp g r1 =>
      run n0 r1 s c
        (fun s1 c1 => k s1 ((g, take (length s - length s1)%nat s) :: c1))
  | Bol => if Nat.eqb (length s) n0 then k s c else None
  | Eol =>
      match s with
      | [] => k s c
      | [x] => if ch_eqb x newline then k s c else None
      | _ => None
      end
  end.

(** [re.match(r, s)]: the groups of the first match at the beginning. *)
Definition match_ (r : t) (s : list ascii) : option captures :=
  run (length s) r s [] (fun _ c => Some c).

(** [re.fullmatch(r, s)]. *)
Definition fullmatch (r : t) (s : list ascii) : option captures :=
  run (length s) r s []
    (fun s' c => match s' with [] => Some c | _ => None end).

(** Length of the match of [r] at the position where [s] is left. *)
Definition match_len (n0 : nat) (r : t) (s : list ascii) : option nat :=
  run n0 r s [] (fun s' _ => Some (length s - length s')%nat).

(** Scanning for the non-overlapping matches from left to right.
    [skip] counts the characters of the current match still to pass.  The
    patterns scanned for never match the empty string. *)
Fixpoint sub_go (n0 : nat) (r : t) (repl : list ascii) (s : list ascii)
    (skip : nat) : list ascii :=
  match s with
  | [] => []
  | c :: s' =>
      match skip with
      | S k => sub_go n0 r repl s' k
      | O =>
          match match_len n0 r s with
          | Some (S len) => repl ++ sub_go n0 r repl s' len
          | _ => c :: sub_go n0 r repl s' O
          end
      end
  end.

(** [re.sub(r, repl, s)]. *)
Definition sub (r : t) (repl : list ascii) (s : list ascii) : list ascii :=
  sub_go (length s) r repl s O.

(** [cur] is the piece being collected, in reverse. *)
Fixpoint split_go (n0 : nat) (r : t) (s : list ascii) (skip : nat)
    (cur : list ascii) : list (list ascii) :=
  match s with
  | [] => [rev cur]
  | c :: s' =>
      match skip with
      | S k => split_go n0 r s' k cur
      | O =>
          match match_len n0 r s with
          | Some (S len) => rev cur :: split_go n0 r s' len []
          | _ => split_go n0 r s' O (c :: cur)
          end
      end
  end.

(** [r.split(s)] for a pattern without groups. *)
Definition split (r : t) (s : list ascii) : list (list ascii) :=
  split_go (length s) r s O [].

(** The last item of [re.finditer(r, s)]: its start and its text. *)
Fixpoint last_go (n0 : nat) (r : t) (s : list ascii) (skip : nat)
    (found : option (nat * list ascii)) : option (nat * list ascii) :=
  match s with
  | [] => found
  | c :: s' =>
      match skip with
      | S k => last_go n0 r s' k found
      | O =>
          match match_len n0 r s with
          | Some (S len) =>
              last_go n0 r s' len (Some ((n0 - length s)%nat, take (S len) s))
          | _ => last_go n0 r s' O found
          end
      end
  end.

Definition last_match (r : t) (s : list ascii) : option (nat * list ascii) :=
  last_go (length s) r s O None.

End Re.

(* ===================================================================== *)
(** * helper.py: the input parser                                         *)
(* ===================================================================== *)

Module Parser.
Import Text.

(** The class [[\d,._kKmMbB+-]] of the quantity tokens. *)
Definition qty_class (c : ascii) : bool := is_digit c || one_of ",._kKmMbB+-" c.

Definition g_name : nat := 1.
Definition g_qty : nat := 2.

(** [r"([\-+]?\d+(?:\.\d+)?)([kmb])?"] *)
Definition number_re : Re.t :=
  Re.seq
    [ Re.Grp 1 (Re.seq [ Re.opt (Re.Chr (one_of "-+"));
                         Re.plus is_digit;
                         Re.opt (Re.seq [Re.Chr (one_of "."); Re.plus is_digit]) ]);
      Re.opt (Re.Grp 2 (Re.Chr (one_of "kmb"))) ].

Definition digits_value (s : list ascii) : Z :=
  fold_left (fun acc c => 10 * acc + digit_value c) s 0.

(** The exact value of a text [[\-+]?\d+(\.\d+)?]. *)
Definition literal_value (s : list ascii) : Qc :=
  let '(neg, body) :=
    match s with
    | c :: r => if one_of "-" c then (true, r)
                else if one_of "+" c then (false, r) else (false, s)
    | [] => (false, [])
    end in
  let ip := take_while is_digit body in
  let fp := drop 1 (lstrip_by is_digit body) in
  let v := Num.unscaled 10 (digits_value (ip ++ fp)) (- Z.of_nat (length fp)) in
  if neg then (- v)%Qc else v.

(** The most digits that [int] converts from text
    ([sys.int_info.default_max_str_digits]). *)
Definition max_str_digits : nat := 4300.

(** [int(s)] for a text of digits and signs; [None] stands for
    [ValueError]: no digit, a character that is neither a digit nor a
    leading sign, or more than [max_str_digits] digits. *)
Definition int_of_text (s : list ascii) : option Z :=
  let '(neg, body) :=
    match s with
    | c :: r => if one_of "-" c then (true, r)
                else if one_of "+" c then (false, r) else (false, s)
    | [] => (false, [])
    end in
  match body with
  | [] => None
  | _ => if forallb is_digit body && (length body <=? max_str_digits)%nat
         then Some (if neg then - digits_value body else digits_value body)
         else None
  end.

(** [_parse_number_token]; [None] stands for the [OverflowError] of
    [int] on an infinite float. *)
Definition _parse_number_token (tok : list ascii) : option Z :=
  let s := lower (remove_char "_" (remove_char "," (strip tok))) in
  let s := Re.sub (Re.Chr (fun c => negb (is_digit c || one_of ".kmb-+" c))) [] s in
  match Re.fullmatch number_re s with
  | None =>
      let s2 := Re.sub (Re.Chr (fun c => negb (is_digit c || one_of "-+" c))) [] tok in
      Some (default 0 (int_of_text s2))
  | Some m =>
      let num := Float.round (literal_value (Re.group 1 m)) in
      let suf := Re.group 2 m in
      let mult :=
        if list_eqb suf (chars "k") then 1000
        else if list_eqb suf (chars "m") then 1000000
        else if list_eqb suf (chars "b") then 1000000000
        else 1 in
      Float.to_int (Float.mul_int num mult)
  end.

Definition _clean_name_fragment (s : list ascii) : list ascii :=
  let s := strip_by (one_of "'") (strip_by (ch_eqb (chr 34)) (strip s)) in
  let s := Re.sub (Re.plus is_space) [space] s in
  Re.sub (Re.seq [Re.star is_space; Re.Chr (one_of ":|,-"); Re.star is_space; Re.Eol]) [] s.

(** [r"[;\n\r]+"] and [r"\s{2,}|\t|\|"] *)
Definition line_seps : Re.t :=
  Re.plus (fun c => one_of ";" c || ch_eqb c newline || ch_eqb c (chr 13)).
Definition part_seps : Re.t :=
  Re.Alt (Re.Rep true 2 None is_space) (Re.Alt (Re.Chr (ch_eqb tab)) (Re.Chr (one_of "|"))).

Definition x_or_times (c : ascii) : bool := one_of "x" c || ch_eqb c times_sign.

(** [r"^(?P<name>.+?)\s*[x×]\s*(?P<qty>[\d,._kKmMbB+-]+)\s*$"] *)
Definition name_x_qty : Re.t :=
  Re.seq [ Re.Bol; Re.Grp g_name (Re.plus_lazy is_dot); Re.star is_space;
           Re.Chr x_or_times; Re.star is_space;
           Re.Grp g_qty (Re.plus qty_class); Re.star is_space; Re.Eol ].
(** [r"^(?P<qty>[\d,._kKmMbB+-]+)\s*[x×]\s*(?P<name>.+?)\s*$"] *)
Definition qty_x_name : Re.t :=
  Re.seq [ Re.Bol; Re.Grp g_qty (Re.plus qty_class); Re.star is_space;
           Re.Chr x_or_times; Re.star is_space;
           Re.Grp g_name (Re.plus_lazy is_dot); Re.star is_space; Re.Eol ].
(** [r"^(?P<name>.+?)\s*[:\-]\s*(?P<qty>[\d,._kKmMbB+-]+)\s*$"] *)
Definition name_sep_qty : Re.t :=
  Re.seq [ Re.Bol; Re.Grp g_name (Re.plus_lazy is_dot); Re.star is_space;
           Re.Chr (one_of ":-"); Re.star is_space;
           Re.Grp g_qty (Re.plus qty_class); Re.star is_space; Re.Eol ].
(** [r"^(?P<name>.*\D)\s+(?P<qty>[\d,._kKmMbB+-]+)\s*$"] *)
Definition name_space_qty : Re.t :=
  Re.seq [ Re.Bol;
           Re.Grp g_name (Re.seq [Re.star is_dot; Re.Chr (fun c => negb (is_digit c))]);
           Re.plus is_space;
           Re.Grp g_qty (Re.plus qty_class); Re.star is_space; Re.Eol ].
(** [r"^(?P<qty>[\d,._kKmMbB+-]+)\s+(?P<name>.+?)\s*$"] *)
Definition qty_space_name : Re.t :=
  Re.seq [ Re.Bol; Re.Grp g_qty (Re.plus qty_class); Re.plus is_space;
           Re.Grp g_name (Re.plus_lazy is_dot); Re.star is_space; Re.Eol ].

(** One call [add(name, qty)] as the loop issues it. *)
Definition call : Type := list ascii * Z.

(** The call issued for a match of one of the five line grammars. *)
Definition matched (m : Re.captures) : option (list call) :=
  q ← _parse_number_token (Re.group g_qty m);
  Some [(Re.group g_name m, q)].

(** The body of [for s in chunks]. *)
Fixpoint chunk_calls (chunks : list (list ascii)) : option (list call) :=
  match chunks with
  | [] => Some []
  | s :: rest =>
      let s := strip s in
      here ←
        match s with
        | [] => Some []
        | _ =>
            match Re.match_ name_space_qty s with
            | Some mm => matched mm
            | None =>
                match Re.fullmatch (Re.plus qty_class) s with
                | Some _ => Some []
                | None => Some [(s, 1)]
                end
            end
        end;
      more ← chunk_calls rest;
      Some (here ++ more)
  end.

(** The body of [for raw_line in line_seps.split(raw)]: the calls of [add]
    that one line issues, in order. *)
Definition line_calls (raw_line : list ascii) : option (list call) :=
  let line := strip raw_line in
  match line with
  | [] => Some []
  | _ =>
      let line := replace_char tab space line in
      let line := strip (Re.sub (Re.plus is_space) [space] line) in
      match Re.match_ name_x_qty line with
      | Some m => matched m
      | None =>
      match Re.match_ qty_x_name line with
      | Some m => matched m
      | None =>
      match Re.match_ name_sep_qty line with
      | Some m => matched m
      | None =>
      match Re.match_ name_space_qty line with
      | Some m => matched m
      | None =>
      match Re.match_ qty_space_name line with
      | Some m => matched m
      | None =>
          let chunks := Re.split part_seps line in
          if (1 <? length chunks)%nat then chunk_calls chunks
          else
            match Re.last_match (Re.plus qty_class) line with
            | Some (start, tok) =>
                qty ← _parse_number_token tok;
                let name := strip (rstrip_by (one_of ",") (strip (take start line))) in
                match name with
                | [] => Some []
                | _ => Some [(name, qty)]
                end
            | None => Some [(line, 1)]
            end
      end end end end end
  end.

(** The dictionary [agg]. *)
Definition agg_t : Type := PyDict.t string Z.

(** The local function [add]. *)
Definition add (agg : agg_t) (c : call) : agg_t :=
  let name_clean := _clean_name_fragment (fst c) in
  match name_clean with
  | [] => agg
  | _ =>
      if snd c <=? 0 then agg
      else PyDict.set agg (str name_clean)
             (default 0 (PyDict.get agg (str name_clean)) + snd c)
  end.

Fixpoint lines_loop (agg : agg_t) (lines : list (list ascii)) : option agg_t :=
  match lines with
  | [] => Some agg
  | l :: rest =>
      cs ← line_calls l;
      lines_loop (fold_left add cs agg) rest
  end.

(** [parse_input_lines]; [None] stands for an exception. *)
Definition parse_input_lines (raw : string) : option (list (string * Z)) :=
  match chars raw with
  | [] => Some []
  | s => lines_loop [] (Re.split line_seps s)
  end.

End Parser.

(* ===================================================================== *)
(** * The catalogs the planner reads                                      *)
(* ===================================================================== *)

Module Catalog.

(** A row of [eveuniverse.EveType]: the fields the planner reads.  [name]
    is the empty text when absent; [volume] is the exact value of the
    stored number. *)
Record EveType := {
  et_id : Z;
  et_name : string;
  et_volume : Decimal.t;
  et_portion_size : option Z;
}.

(** A row of [eveuniverse.EveTypeMaterial]. *)
Record EveTypeMaterial := {
  eve_type_id : Z;
  material_eve_type_id : Z;
  quantity : Z;
}.

(** A [Reaction] with its [materials] and [products] rows as
    (type id, quantity) pairs. *)
Record Reaction := {
  rx_name : string;
  blueprint_type_id : Z;
  time_seconds : Z;
  materials : list (Z * Z);
  products : list (Z * Z);
}.

Record DB := {
  eve_types : list EveType;
  type_materials : list EveTypeMaterial;
  reactions : list Reaction;
}.

End Catalog.

(* ===================================================================== *)
(** * helper.py: categorizer, refining engine, capacity                   *)
(* ===================================================================== *)

Module Helper.
Import Text Catalog.

Record ParsedLine := { pl_evetype : EveType; pl_quantity : Z }.

Inductive category := fuel | material | refine.

Record ParsedItem := {
  evetype : EveType;
  item_quantity : Z;
  item_category : category;
}.

Definition category_eqb (a b : category) : bool :=
  match a, b with
  | fuel, fuel | material, material | refine, refine => true
  | _, _ => false
  end.

(** ["fuel block" in name.lower()] *)
Definition is_fuel_name (name : string) : bool :=
  contains (chars "fuel block") (lower (chars name)).

(** The query [Reaction.objects.values_list("materials__type_id")]. *)
Definition reaction_mat_ids (db : DB) : gset Z :=
  list_to_set (flat_map (fun rx => map fst (materials rx)) (reactions db)).

(** The types among [ids] that have [EveTypeMaterial] rows. *)
Definition has_materials (db : DB) (ids : list Z) : gset Z :=
  list_to_set
    (List.filter (fun i => bool_decide (i ∈ ids)) (map eve_type_id (type_materials db))).

Definition categorize_items (db : DB) (items : list ParsedLine) : list ParsedItem :=
  let ids := map (fun p => et_id (pl_evetype p)) items in
  let has_mats := has_materials db ids in
  let rx_mats := reaction_mat_ids db in
  flat_map
    (fun p =>
       let et := pl_evetype p in
       if is_fuel_name (et_name et) then
         [ {| evetype := et; item_quantity := pl_quantity p; item_category := fuel |} ]
       else if bool_decide (et_id et ∈ rx_mats) then
         [ {| evetype := et; item_quantity := pl_quantity p; item_category := material |} ]
       else if bool_decide (et_id et ∈ has_mats) then
         [ {| evetype := et; item_quantity := pl_quantity p; item_category := refine |} ]
       else [])
    items.

Definition _is_unrefined_name (name : string) : bool :=
  startswith (chars "unrefined ") (lower (chars name)).

(** The query
    [EveTypeMaterial.objects.filter(eve_type_id__in=ids)
       .values("eve_type_id", "material_eve_type_id").annotate(total=Sum("quantity"))]:
    one row per (type, material) with the quantities added up. *)
Definition material_totals (db : DB) (ids : list Z) : PyDict.t (Z * Z) Z :=
  fold_left
    (fun acc r =>
       if bool_decide (eve_type_id r ∈ ids) then
         let k := (eve_type_id r, material_eve_type_id r) in
         PyDict.set acc k (default 0 (PyDict.get acc k) + quantity r)
       else acc)
    (type_materials db) [].

(** [mats_by_source.get(tid, [])] *)
Definition mats_of (rows : PyDict.t (Z * Z) Z) (tid : Z) : list (Z * Z) :=
  flat_map (fun r => if fst (fst r) =? tid then [(snd (fst r), snd r)] else []) rows.

(** [Decimal(portion_size or 1)] *)
Definition portion_of (portion_size : option Z) : Decimal.t :=
  Decimal.of_Z (match portion_size with
                | Some n => if n =? 0 then 1 else n
                | None => 1
                end).

(** The units a material yields: the statements
    [portions = (Decimal(qty) / portion) if portion > 0 else Decimal(qty)],
    [base = Decimal(per_portion) * portions] and
    [(base * rate).to_integral_value(rounding=ROUND_DOWN)]. *)
Definition refine_units (per_portion qty : Z) (portion_size : option Z)
    (rate : Decimal.t) : Z :=
  let portion := portion_of portion_size in
  let portions :=
    if Decimal.ltb Decimal.zero portion
    then Decimal.div (Decimal.of_Z qty) portion
    else Decimal.of_Z qty in
  let base := Decimal.mul (Decimal.of_Z per_portion) portions in
  Decimal.to_integral_down (Decimal.mul base rate).

(** The rate chosen for one item. *)
Definition rate_for (name : string) (refine_rate : Decimal.t)
    (unrefined_refine_rate : option Decimal.t) : Decimal.t :=
  match unrefined_refine_rate with
  | Some r => if _is_unrefined_name name then r else refine_rate
  | None => refine_rate
  end.

Definition refine_from_inputs (db : DB) (items : list ParsedItem)
    (refine_rate : Decimal.t) (unrefined_refine_rate : option Decimal.t)
    : PyDict.t Z Z * list (Z * Z) :=
  let refinables := List.filter (fun p => category_eqb (item_category p) refine) items in
  let rows := material_totals db (map (fun p => et_id (evetype p)) refinables) in
  let refined :=
    fold_left
      (fun refined p =>
         let rate := rate_for (et_name (evetype p)) refine_rate unrefined_refine_rate in
         fold_left
           (fun refined m =>
              let produced :=
                refine_units (snd m) (item_quantity p)
                  (et_portion_size (evetype p)) rate in
              if produced <=? 0 then refined
              else PyDict.set refined (fst m)
                     (default 0 (PyDict.get refined (fst m)) + produced))
           (mats_of rows (et_id (evetype p))) refined)
      refinables [] in
  (refined, refined).

(** The stock ledger: type id to quantity. *)
Abbreviation ledger := (gmap Z Z).

(** [stock.get(tid, 0)] *)
Definition have (stock : ledger) (tid : Z) : Z := default 0 (stock !! tid).

Definition build_initial_stock (db : DB) (items : list ParsedItem)
    (refine_rate : Decimal.t) (unrefined_refine_rate : option Decimal.t)
    : ledger * list (Z * Z) :=
  let '(refined, refined_rows) :=
    refine_from_inputs db items refine_rate unrefined_refine_rate in
  let stock :=
    fold_left (fun st r => <[fst r := have st (fst r) + snd r]> st) refined ∅ in
  let stock :=
    fold_left
      (fun st p =>
         match item_category p with
         | material | fuel =>
             <[et_id (evetype p) := have st (et_id (evetype p)) + item_quantity p]> st
         | refine => st
         end)
      items stock in
  (stock, refined_rows).

(** The dictionary [type_map], from type id to [EveType]. *)
Abbreviation type_map_t := (PyDict.t Z EveType).

Definition is_fuel_id (type_map : type_map_t) (tid : Z) : bool :=
  match PyDict.get type_map tid with
  | Some et => is_fuel_name (et_name et)
  | None => false
  end.

(** [min(caps) if caps else 0] *)
Definition min_or_zero (caps : list Z) : Z :=
  match caps with
  | [] => 0
  | c :: rest => fold_left Z.min rest c
  end.

(** The loop of [runcap_with_present]: the capacities collected and the
    flag [have_any]. *)
Definition present_caps (stock_map : ledger) (reqs : list (Z * Z))
    (type_map : type_map_t) : list Z * bool :=
  fold_left
    (fun '(caps, have_any) '(tid, need) =>
       if need <=? 0 then (caps, have_any)
       else if is_fuel_id type_map tid then (caps, have_any)
       else
         let h := have stock_map tid in
         if 0 <? h then (caps ++ [h / need], true) else (caps, have_any))
    reqs ([], false).

Definition runcap_with_present (stock_map : ledger) (reqs : list (Z * Z))
    (type_map : type_map_t) : Z :=
  let '(caps, have_any) := present_caps stock_map reqs type_map in
  if negb have_any then 0 else min_or_zero caps.

(** [add_supply(dst, src)] *)
Definition add_supply (dst : ledger) (src : list (Z * Z)) : ledger :=
  fold_left
    (fun d '(k, v) => if v =? 0 then d else <[k := have d k + v]> d) src dst.

Definition runcap_with_supply (stock_map : ledger) (reqs : list (Z * Z))
    (supply : ledger) (type_map : type_map_t) : Z :=
  if bool_decide (supply = ∅) then runcap_with_present stock_map reqs type_map
  else runcap_with_present (add_supply stock_map (map_to_list supply)) reqs type_map.

Definition LOCATION_MULT (location : string) : Decimal.t :=
  if String.eqb location "low" then Decimal.lit 10 1
  else if String.eqb location "null" then Decimal.lit 11 1
  else if String.eqb location "wh" then Decimal.lit 11 1
  else Decimal.lit 10 1.

(** [None] stands for the [InvalidOperation] of [quantize]. *)
Definition me_bonus_pct (rig_me location : string) : option Decimal.t :=
  let base :=
    if String.eqb rig_me "t1" then Decimal.lit 20 1
    else if String.eqb rig_me "t2" then Decimal.lit 24 1
    else Decimal.zero in
  Decimal.quantize Decimal.ROUND_HALF_UP 3 (Decimal.mul base (LOCATION_MULT location)).

Definition sales_tax_pct (accounting_level : Z) : option Decimal.t :=
  let base := Decimal.lit 75 1 in
  let reduction := Decimal.mul (Decimal.lit 11 2) (Decimal.of_Z accounting_level) in
  let reduction := if Decimal.ltb (Decimal.of_Z 1) reduction then Decimal.of_Z 1 else reduction in
  Decimal.quantize Decimal.ROUND_HALF_UP 3
    (Decimal.mul base (Decimal.sub (Decimal.of_Z 1) reduction)).

(** The factor [eff] of [apply_me_to_requirements]. *)
Definition me_factor (me_pct : Decimal.t) : Decimal.t :=
  Decimal.div (Decimal.sub (Decimal.of_Z 100) me_pct) (Decimal.of_Z 100).

(** [int(ceil(Decimal(base_q) * eff))] *)
Definition eff_qty (base_q : Z) (me_pct : Decimal.t) : Z :=
  Decimal.ceil (Decimal.mul (Decimal.of_Z base_q) (me_factor me_pct)).

Definition apply_me_to_requirements (per_run_requirements : list (Z * Z))
    (me_pct : Decimal.t) : list (Z * Z) :=
  map (fun '(tid, base_q) => (tid, eff_qty base_q me_pct)) per_run_requirements.

End Helper.

(* ===================================================================== *)
(** * views.py: the request handler [InputView.post]                      *)
(* ===================================================================== *)

Module Views.
Import Text Catalog Helper.

(** The statements that turn the form's scrap metal processing level into
    [unrefined_refine_rate]; [None] stands for the [InvalidOperation] of
    [quantize]. *)
Definition smp_rate_pct (smp_level : Z) : option Decimal.t :=
  r ← Decimal.quantize Decimal.ROUND_HALF_EVEN 2
         (Decimal.mul (Decimal.of_Z 50)
            (Decimal.add (Decimal.lit 10 1)
               (Decimal.mul (Decimal.of_Z smp_level) (Decimal.lit 2 2))));
  Some (if Decimal.ltb (Decimal.of_Z 55) r then Decimal.of_Z 55 else r).

Definition unrefined_refine_rate (smp_level : Z) : option Decimal.t :=
  r ← smp_rate_pct smp_level;
  Some (Decimal.div r (Decimal.of_Z 100)).

(** The body of the loop over [resolved] that follows
    [build_initial_stock]; [already] is the set of the ledger's keys taken
    before the loop. *)
Definition add_line (already : gset Z) (st : ledger * gset Z) (pl : ParsedLine)
    : ledger * gset Z :=
  let '(st, extra) := st in
  let et := pl_evetype pl in
  let qty := pl_quantity pl in
  if qty <=? 0 then (st, extra)
  else if bool_decide (et_id et ∈ already) then (st, extra)
  else (<[et_id et := have st (et_id et) + qty]> st, {[et_id et]} ∪ extra).

(** That loop: every resolved item of positive quantity whose id is not
    yet a key of the ledger is put into it.  Returns the ledger and
    [extra_ids]. *)
Definition add_unlisted (stock : ledger) (resolved : list ParsedLine)
    : ledger * gset Z :=
  fold_left (add_line (dom stock)) resolved (stock, ∅).

(** The ledger a request plans with, from the resolved input lines. *)
Definition request_stock (db : DB) (resolved : list ParsedLine)
    (refine_rate : Decimal.t) (unrefined_rate : option Decimal.t) : ledger :=
  let categorized := categorize_items db resolved in
  let '(stock, _) := build_initial_stock db categorized refine_rate unrefined_rate in
  fst (add_unlisted stock resolved).

(** [extra_ids] of a request. *)
Definition request_extra_ids (db : DB) (resolved : list ParsedLine)
    (refine_rate : Decimal.t) (unrefined_rate : option Decimal.t) : gset Z :=
  let categorized := categorize_items db resolved in
  let '(stock, _) := build_initial_stock db categorized refine_rate unrefined_rate in
  snd (add_unlisted stock resolved).

(** The loop [for tid in extra_ids] that builds [unrefinables]: of each
    row the type id, the name and the quantity, for the types that
    [type_map] holds, in the iteration order of the set. *)
Definition unrefinables (type_map : type_map_t) (stock : ledger) (extra_ids : gset Z)
    : list (Z * string * Z) :=
  flat_map
    (fun tid => match PyDict.get type_map tid with
                | Some et => [(tid, et_name et, have stock tid)]
                | None => []
                end)
    (elements extra_ids).

(** [caps_all] and [runs_cap] of a priced plan. *)
Definition caps_all (stock : ledger) (per_run_reqs : list (Z * Z))
    (type_map : type_map_t) : list Z :=
  fold_left
    (fun caps '(tid, need) =>
       if (need <=? 0) || is_fuel_id type_map tid then caps
       else caps ++ [have stock tid / need])
    per_run_reqs [].

Definition runs_cap (stock : ledger) (per_run_reqs : list (Z * Z))
    (type_map : type_map_t) : Z :=
  min_or_zero (caps_all stock per_run_reqs type_map).

End Views.

(* ===================================================================== *)
(** * pricing.py and the price helpers of helper.py                       *)
(* ===================================================================== *)

Module Pricing.

(** The exceptions met here; each is a subclass of [Exception]. *)
Inductive exn := HTTPError | KeyError | DoesNotExist | DatabaseError | OtherException.

Inductive result (A : Type) := Ok (a : A) | Raise (e : exn).
Arguments Ok {A} a.
Arguments Raise {A} e.

(** [try: body except Exception: handler] *)
Definition try_except {A} (body : result A) (handler : exn -> result A) : result A :=
  match body with
  | Ok a => Ok a
  | Raise e => handler e
  end.

Inductive basis := buy | sell.

(** Reading one price out of the decoded answer: the value, or a missing
    key, or a value that [Decimal(str(..))] rejects. *)
Inductive field := Val (d : Decimal.t) | Missing | Invalid.

(** What a request to a price service leads to. *)
Inductive reply :=
| Unreachable                       (* [requests.get] raises *)
| BadStatus                         (* [raise_for_status] raises [HTTPError] *)
| NotJson                           (* [resp.json()] raises *)
| NoNode                            (* no entry for the item in the answer *)
| Node (b s ba sa : field).         (* the entry, its four prices in reading order *)

Record EveTypePrice := {
  row_buy : Decimal.t;
  row_sell : Decimal.t;
  row_buy_average : Decimal.t;
  row_sell_average : Decimal.t;
}.

Definition zero_row : EveTypePrice :=
  {| row_buy := Decimal.zero; row_sell := Decimal.zero;
     row_buy_average := Decimal.zero; row_sell_average := Decimal.zero |}.

(** The settings of app_settings.py, the price services and the table
    [EveTypePrice] as a lookup meets them. *)
Record World := {
  method_is_janice : bool;            (* [AAREACTIONS_PRICE_METHOD == "Janice"] *)
  janice_key_valid : bool;            (* [valid_janice_api_key()] *)
  price_instant : bool;               (* [AAREACTIONS_PRICE_INSTANT] *)
  janice : Z -> reply;
  fuzzwork : Z -> reply;
  rows : gmap Z EveTypePrice;
  get_fails : Z -> bool;              (* [objects.get] raises a database error *)
  create_fails : Z -> bool;           (* [objects.create] raises a database error *)
}.

Definition read (f : field) : result Decimal.t :=
  match f with
  | Val d => Ok d
  | Missing => Raise KeyError
  | Invalid => Raise OtherException
  end.

(** The [try] block of [_fetch_prices]: the four variables when control
    leaves the block, and the exception that left it, if any. *)
Definition fetch_try (w : World) (item_id : Z) : EveTypePrice * option exn :=
  let use_janice := method_is_janice w && janice_key_valid w in
  match (if use_janice then janice w item_id else fuzzwork w item_id) with
  | Unreachable => (zero_row, Some OtherException)
  | BadStatus => (zero_row, Some HTTPError)
  | NotJson => (zero_row, Some OtherException)
  | NoNode => if use_janice then (zero_row, Some KeyError) else (zero_row, None)
  | Node b s ba sa =>
      match read b with
      | Raise e => (zero_row, Some e)
      | Ok vb =>
      let r1 := {| row_buy := vb; row_sell := Decimal.zero;
                   row_buy_average := Decimal.zero; row_sell_average := Decimal.zero |} in
      match read s with
      | Raise e => (r1, Some e)
      | Ok vs =>
      let r2 := {| row_buy := vb; row_sell := vs;
                   row_buy_average := Decimal.zero; row_sell_average := Decimal.zero |} in
      match read ba with
      | Raise e => (r2, Some e)
      | Ok vba =>
      let r3 := {| row_buy := vb; row_sell := vs;
                   row_buy_average := vba; row_sell_average := Decimal.zero |} in
      match read sa with
      | Raise e => (r3, Some e)
      | Ok vsa =>
          ({| row_buy := vb; row_sell := vs;
              row_buy_average := vba; row_sell_average := vsa |}, None)
      end end end end
  end.

(** [_fetch_prices]: the three [except] clauses log and fall through to
    the [return]. *)
Definition _fetch_prices (w : World) (item_id : Z) : result EveTypePrice :=
  if item_id <=? 0 then Ok zero_row
  else
    let '(vars, escaped) := fetch_try w item_id in
    try_except
      (match escaped with Some e => Raise e | None => Ok vars end)
      (fun _ => Ok vars).

(** [get_or_create_prices]: the row, and the table after the call. *)
Definition get_or_create_prices (w : World) (item_id : Z)
    : result (EveTypePrice * gmap Z EveTypePrice) :=
  if get_fails w item_id then Raise DatabaseError
  else
    match rows w !! item_id with
    | Some row => Ok (row, rows w)
    | None =>
        if item_id <=? 0 then
          if create_fails w item_id then Raise DatabaseError
          else Ok (zero_row, <[item_id := zero_row]> (rows w))
        else
          match _fetch_prices w item_id with
          | Raise e => Raise e
          | Ok row =>
              if create_fails w item_id then Raise DatabaseError
              else Ok (row, <[item_id := row]> (rows w))
          end
    end.

Definition resolve_price_value (w : World) (item_id : Z) (b : basis)
    : result Decimal.t :=
  match get_or_create_prices w item_id with
  | Raise e => Raise e
  | Ok (row, _) =>
      Ok (match b with
          | buy => if price_instant w then row_buy row else row_buy_average row
          | sell => if price_instant w then row_sell row else row_sell_average row
          end)
  end.

(** [x or Decimal("0")] *)
Definition or_zero (x : Decimal.t) : Decimal.t :=
  if Decimal.eqb x Decimal.zero then Decimal.zero else x.

Definition price_input (w : World) (tid : Z) (price_basis : basis) : result Decimal.t :=
  try_except
    (match resolve_price_value w tid price_basis with
     | Ok v => Ok (or_zero v)
     | Raise e => Raise e
     end)
    (fun _ => Ok Decimal.zero).

Definition price_output (w : World) (tid : Z) (price_basis : basis) : result Decimal.t :=
  try_except
    (match resolve_price_value w tid price_basis with
     | Ok v => Ok (or_zero v)
     | Raise e => Raise e
     end)
    (fun _ => Ok Decimal.zero).

End Pricing.

(* ===================================================================== *)
(** * The chain builder of [InputView.post] and its helpers               *)
(* ===================================================================== *)

Module Chain.
Import Text Catalog Helper.

(** An entry of [priced_plans]: the keys the chain builder reads. *)
Record plan := {
  name : string;
  per_run_requirements : list (Z * Z);
  per_run_products : list (Z * Z);
  time_per_run_seconds : Z;
  plan_blueprint_type_id : Z;
}.

(** The values of the request that the nested functions close over.
    [price] is [price_input] and [price_output], which never raise; it is
    a function of the item and the basis, as it is when the price table
    holds a row for every item looked up (a lookup that misses the table
    answers with the prices as fetched and stores them with two
    decimals). *)
Record settings := {
  input_basis : Pricing.basis;
  output_basis : Pricing.basis;
  buyback_basis : Pricing.basis;
  broker_fee_pct : Decimal.t;
  stax_pct : Decimal.t;
  facility_tax_pct : Decimal.t;
  cost_index_pct : Decimal.t;
  use_buyback : bool;
  buyback_mult : Decimal.t;
  unrefined_refine_rate : Decimal.t;
  price : Z -> Pricing.basis -> Decimal.t;
}.

Definition scc_pct : Decimal.t := Decimal.lit 400 2.

Inductive kind := reaction | reprocess.

(** A step of a chain: the keys of the step dictionary that the chain
    totals and the ranking read.  The texts made with [f"{x:,.2f}"] are
    kept as the values they show. *)
Record step := {
  step_kind : kind;
  title : string;
  runs : Z;
  produced_qty : Z;
  produced_value : Decimal.t;
  value_have : Decimal.t;
  value_need : Decimal.t;
  fees_display : Decimal.t;
  step_profit : option Decimal.t;            (* absent on a reprocess step *)
  cumulative_profit : Decimal.t;
  cumulative_profit_display : Decimal.t;
  time_total_seconds : Z;
  need_value_total : Decimal.t;               (* ["input_totals"]["need_value"] *)
  m3_need_total : option Decimal.t;           (* ["input_totals"]["m3_need_total"] *)
  product_stats_value : Decimal.t;            (* ["product_stats"]["value"] *)
  product_stats_m3 : Decimal.t;               (* ["product_stats"]["m3"] *)
  product_ids : list Z;
  requirement_ids : list Z;
  stock_value_used : option Decimal.t;
  is_feeder : bool;
}.

Definition hundred : Decimal.t := Decimal.of_Z 100.
Definition one : Decimal.t := Decimal.of_Z 1.

Section with_settings.
Context (cfg : settings).

Definition _price_in (tid : Z) : Decimal.t := price cfg tid (input_basis cfg).
Definition _price_out (tid : Z) : Decimal.t := price cfg tid (output_basis cfg).

(** [None] stands for the [InvalidOperation] of [quantize]. *)
Definition _buyback_unit (tid : Z) : option Decimal.t :=
  Decimal.quantize Decimal.ROUND_HALF_EVEN 4
    (Decimal.mul (price cfg tid (buyback_basis cfg)) (buyback_mult cfg)).

(** The first loop of [build_step]. *)
Definition display_target_runs (type_map : type_map_t) (current_stock supply : ledger)
    (per_run_reqs : list (Z * Z)) : Z :=
  fold_left
    (fun best '(tid, need) =>
       if need <=? 0 then best
       else if is_fuel_id type_map tid then best
       else
         let cap_i := (have current_stock tid + have supply tid) / need in
         if best <? cap_i then cap_i else best)
    per_run_reqs 0.

(** The variables that the requirement loop of [build_step] updates. *)
Record inputs_acc := {
  acc_stock : ledger;
  acc_supply : ledger;
  consumed_cost_raw : Decimal.t;
  have_val_sum : Decimal.t;
  need_val_sum : Decimal.t;
  m3_need_sum : Decimal.t;
  stock_val_sum : Decimal.t;
}.

(** One turn of the requirement loop; [None] stands for an exception
    ([KeyError] on the supply, [InvalidOperation]). *)
Definition consume_one (type_map : type_map_t) (runs_ target_runs : Z)
    (a : inputs_acc) (req : Z * Z) : option inputs_acc :=
  let '(tid, need_per_run) := req in
  let have_now := have (acc_stock a) tid in
  match PyDict.get type_map tid with
  | None => Some a
  | Some et =>
      let unit := _price_in tid in
      let required_total := need_per_run * runs_ in
      let display_required_total := need_per_run * target_runs in
      let from_children := Z.min (have (acc_supply a) tid) required_total in
      supply' ←
        (if from_children =? 0 then Some (acc_supply a)
         else
           v ← acc_supply a !! tid;
           Some (<[tid := Z.max 0 (v - from_children)]> (acc_supply a)));
      let remain_after_children := required_total - from_children in
      let from_stock := Z.min have_now remain_after_children in
      let have_used := from_children + from_stock in
      let need_missing_display := Z.max (display_required_total - have_used) 0 in
      let missing_val_with_broker :=
        Decimal.mul
          (Decimal.mul unit (Decimal.of_Z need_missing_display))
          (Decimal.add one (Decimal.div (broker_fee_pct cfg) hundred)) in
      let m3_need := Decimal.mul (Decimal.of_Z need_missing_display) (et_volume et) in
      let is_fuel := is_fuel_id type_map tid || is_fuel_name (et_name et) in
      unit_stock_eff ←
        (if use_buyback cfg && (0 <? from_stock) && negb is_fuel
         then _buyback_unit tid else Some unit);
      let have_val_children := Decimal.mul unit (Decimal.of_Z from_children) in
      let have_val_stock := Decimal.mul unit_stock_eff (Decimal.of_Z from_stock) in
      let have_val := Decimal.add have_val_children have_val_stock in
      Some {|
        acc_stock := <[tid := Z.max 0 (have_now - from_stock)]> (acc_stock a);
        acc_supply := supply';
        consumed_cost_raw :=
          Decimal.add (consumed_cost_raw a)
            (Decimal.add (Decimal.mul unit (Decimal.of_Z from_children))
                         (Decimal.mul unit_stock_eff (Decimal.of_Z from_stock)));
        have_val_sum := Decimal.add (have_val_sum a) have_val;
        need_val_sum := Decimal.add (need_val_sum a) missing_val_with_broker;
        m3_need_sum := Decimal.add (m3_need_sum a) m3_need;
        stock_val_sum := Decimal.add (stock_val_sum a) have_val_stock;
      |}
  end.

Fixpoint consume_all (type_map : type_map_t) (runs_ target_runs : Z)
    (a : inputs_acc) (reqs : list (Z * Z)) : option inputs_acc :=
  match reqs with
  | [] => Some a
  | r :: rest =>
      a' ← consume_one type_map runs_ target_runs a r;
      consume_all type_map runs_ target_runs a' rest
  end.

(** The variables that the product loop of [build_step] updates. *)
Record outputs_acc := {
  out_stock : ledger;
  produced_qty_display : Z;
  produced_value_display : Decimal.t;
  produced_volume_display : Decimal.t;
  product_name : string;
}.

Definition produce_one (type_map : type_map_t) (runs_ target_runs : Z)
    (o : outputs_acc) (prod : Z * Z) : outputs_acc :=
  let '(tid, out_per_run) := prod in
  let qty_actual := out_per_run * runs_ in
  let qty_display := out_per_run * target_runs in
  match PyDict.get type_map tid with
  | None => o
  | Some etp =>
      {| out_stock := <[tid := have (out_stock o) tid + qty_actual]> (out_stock o);
         produced_qty_display := produced_qty_display o + qty_display;
         produced_value_display :=
           Decimal.add (produced_value_display o)
             (Decimal.mul (_price_out tid) (Decimal.of_Z qty_display));
         produced_volume_display :=
           Decimal.add (produced_volume_display o)
             (Decimal.mul (Decimal.of_Z qty_display) (et_volume etp));
         product_name := et_name etp |}
  end.

(** The net value of the products after the output fees. *)
Definition net_of_fees (gross : Decimal.t) : Decimal.t :=
  match output_basis cfg with
  | Pricing.buy =>
      Decimal.mul gross (Decimal.sub one (Decimal.div (broker_fee_pct cfg) hundred))
  | Pricing.sell =>
      let out_fee_rate :=
        Decimal.div (Decimal.add (broker_fee_pct cfg) (stax_pct cfg)) hundred in
      Decimal.mul gross (Decimal.sub one out_fee_rate)
  end.

(** [et = type_map.get(tid)] is an entry. *)
Definition known (type_map : type_map_t) (tid : Z) : bool :=
  match PyDict.get type_map tid with Some _ => true | None => false end.

(** [build_step]: the step, the ledger after it and the next cumulative
    profit; [None] stands for an exception.  The entry ["buyback_value"]
    of the step evaluates [use_buyback and from_stock > 0]: when
    [use_buyback] is set and no turn of the requirement loop has assigned
    [from_stock] (every turn left at [if not et: continue]), it raises
    [UnboundLocalError]. *)
Definition build_step (type_map : type_map_t) (p : plan) (runs_ : Z)
    (current_stock : ledger) (cum_profit : Decimal.t) (supplemental_supply : ledger)
    : option (step * ledger * Decimal.t) :=
  let per_run_reqs := per_run_requirements p in
  let per_run_prods := per_run_products p in
  let target_runs :=
    display_target_runs type_map current_stock supplemental_supply per_run_reqs in
  a ← consume_all type_map runs_ target_runs
         {| acc_stock := current_stock; acc_supply := supplemental_supply;
            consumed_cost_raw := Decimal.zero; have_val_sum := Decimal.zero;
            need_val_sum := Decimal.zero; m3_need_sum := Decimal.zero;
            stock_val_sum := Decimal.zero |}
         per_run_reqs;
  let o :=
    fold_left (produce_one type_map runs_ target_runs) per_run_prods
      {| out_stock := acc_stock a; produced_qty_display := 0;
         produced_value_display := Decimal.zero;
         produced_volume_display := Decimal.zero; product_name := "" |} in
  let produced_net := net_of_fees (produced_value_display o) in
  let fees_inputs :=
    Decimal.mul (consumed_cost_raw a)
      (Decimal.div
         (Decimal.add (Decimal.add scc_pct (facility_tax_pct cfg)) (cost_index_pct cfg))
         hundred) in
  let step_profit_ :=
    Decimal.sub
      (Decimal.sub (Decimal.sub produced_net fees_inputs) (need_val_sum a))
      (stock_val_sum a) in
  let cum_profit_next := Decimal.add cum_profit step_profit_ in
  let step_time_seconds := runs_ * time_per_run_seconds p in
  if use_buyback cfg && negb (existsb (known type_map) (map fst per_run_reqs)) then None
  else
  Some
    ({| step_kind := reaction;
        title := name p;
        runs := runs_;
        produced_qty := produced_qty_display o;
        produced_value := produced_value_display o;
        value_have := have_val_sum a;
        value_need := need_val_sum a;
        fees_display := Decimal.display2 fees_inputs;
        step_profit := Some step_profit_;
        cumulative_profit := cum_profit_next;
        cumulative_profit_display := Decimal.display2 cum_profit_next;
        time_total_seconds := step_time_seconds;
        need_value_total := Decimal.display2 (need_val_sum a);
        m3_need_total := Some (Decimal.display2 (m3_need_sum a));
        product_stats_value := Decimal.display2 (produced_value_display o);
        product_stats_m3 := Decimal.display2 (produced_volume_display o);
        product_ids := map fst per_run_prods;
        requirement_ids := map fst per_run_reqs;
        stock_value_used := Some (Decimal.display2 (stock_val_sum a));
        is_feeder := false |},
     out_stock o, cum_profit_next).

(** ** The helpers of helper.py that the chain builder calls *)

Context (db : DB).

(** [EveType.objects.filter(id__in=[tid])] and [.filter(name=n)] *)
Definition db_by_id (tid : Z) : option EveType :=
  List.find (fun t => et_id t =? tid) (eve_types db).
Definition db_by_name (n : string) : list EveType :=
  List.filter (fun t => String.eqb (et_name t) n) (eve_types db).

(** The loop [for mtid, per_portion in mats_by_unref.get(utid, [])] of
    [reprocess_unrefined_in_stock]. *)
Definition reprocess_yields (mats : list (Z * Z)) (qty : Z) (portion : option Z)
    (refine_rate : Decimal.t) (add : PyDict.t Z Z) : PyDict.t Z Z :=
  fold_left
    (fun add m =>
       let out_units := refine_units (snd m) qty portion refine_rate in
       if 0 <? out_units
       then PyDict.set add (fst m) (default 0 (PyDict.get add (fst m)) + out_units)
       else add)
    mats add.

(** The body of its loop [for utid in unref_ids]. *)
Definition reprocess_one (rows : PyDict.t (Z * Z) Z) (produced : list (Z * Z))
    (refine_rate : Decimal.t) (st : PyDict.t Z Z * PyDict.t Z Z) (utid : Z)
    : PyDict.t Z Z * PyDict.t Z Z :=
  let '(add, used) := st in
  let qty := default 0 (PyDict.get produced utid) in
  if qty <=? 0 then (add, used)
  else
    let portion := match db_by_id utid with
                   | Some t => et_portion_size t
                   | None => None
                   end in
    (reprocess_yields (mats_of rows utid) qty portion refine_rate add,
     PyDict.set used utid (default 0 (PyDict.get used utid) + qty)).

(** [reprocess_unrefined_in_stock]: the dictionaries [add] and [used] and
    the type map after the call.  The set of produced ids is walked in the
    order of the keys of [produced]. *)
Definition reprocess_unrefined_in_stock (produced : list (Z * Z))
    (refine_rate : Decimal.t) (type_map : type_map_t)
    : PyDict.t Z Z * PyDict.t Z Z * type_map_t :=
  let tids := PyDict.keys produced in
  let unref_ids :=
    List.filter (fun tid => match db_by_id tid with
                            | Some t => _is_unrefined_name (et_name t)
                            | None => false
                            end) tids in
  match unref_ids with
  | [] => ([], [], type_map)
  | _ =>
      let rows := material_totals db unref_ids in
      let missing :=
        List.filter (fun mid => negb (bool_decide (is_Some (PyDict.get type_map mid))))
                    (map (fun r => snd (fst r)) rows) in
      let type_map' :=
        fold_left
          (fun tm t => if bool_decide (et_id t ∈ missing)
                       then PyDict.set tm (et_id t) t else tm)
          (eve_types db) type_map in
      (fold_left (reprocess_one rows produced refine_rate) unref_ids ([], []), type_map')
  end.

(** [build_reprocess_step]; the caller overwrites the cumulative profit. *)
Definition build_reprocess_step (unrefined_used refined_add : PyDict.t Z Z)
    (type_map : type_map_t) (cum : Decimal.t) (feeder : bool) : step :=
  let have_val_sum_ :=
    fold_left
      (fun acc '(tid, total_need) =>
         match PyDict.get type_map tid with
         | None => acc
         | Some _ => Decimal.add acc (Decimal.mul (_price_in tid) (Decimal.of_Z total_need))
         end) unrefined_used Decimal.zero in
  let '(pvalue, pvolume, pids) :=
    fold_left
      (fun (st : Decimal.t * Decimal.t * list Z) '(tid, q) =>
         let '(v, vol, ids) := st in
         match PyDict.get type_map tid with
         | None => (v, vol, ids)
         | Some etp =>
             (Decimal.add v (Decimal.mul (_price_out tid) (Decimal.of_Z q)),
              Decimal.add vol (Decimal.mul (Decimal.of_Z q) (et_volume etp)),
              ids ++ [tid])
         end) refined_add (Decimal.zero, Decimal.zero, []) in
  {| step_kind := reprocess;
     title := "Refined materials";
     runs := 1;
     produced_qty := fold_left Z.add (map snd refined_add) 0;
     produced_value := pvalue;
     value_have := have_val_sum_;
     value_need := Decimal.zero;
     fees_display := Decimal.display2 Decimal.zero;
     step_profit := None;
     cumulative_profit := cum;
     cumulative_profit_display := Decimal.display2 cum;
     time_total_seconds := 0;
     need_value_total := Decimal.display2 Decimal.zero;
     m3_need_total := None;
     product_stats_value := Decimal.display2 pvalue;
     product_stats_m3 := Decimal.display2 pvolume;
     product_ids := pids;
     requirement_ids := PyDict.keys unrefined_used;
     stock_value_used := None;
     is_feeder := feeder |}.

Definition positive_inputs (p : plan) : list Z :=
  map fst (List.filter (fun r => 0 <? snd r) (per_run_requirements p)).

Definition consumes_any_of (p : plan) (allowed_tids : list Z) (type_map : type_map_t) : bool :=
  existsb
    (fun '(tid, need) =>
       negb (need <=? 0) && negb (is_fuel_id type_map tid)
       && bool_decide (tid ∈ allowed_tids))
    (per_run_requirements p).

Definition is_unrefined_id (type_map : type_map_t) (tid : Z) : bool :=
  match PyDict.get type_map tid with
  | Some et => _is_unrefined_name (et_name et)
  | None => false
  end.

Definition produces_unrefined (p : plan) (type_map : type_map_t) : bool :=
  existsb (fun r => is_unrefined_id type_map (fst r)) (per_run_products p).

Definition self_recovery_loss (p : plan) (refine_rate : Decimal.t)
    (type_map : type_map_t) : Z :=
  let per_run_reqs := per_run_requirements p in
  let per_run_prods := per_run_products p in
  match per_run_prods, per_run_reqs with
  | [], _ | _, [] => 0
  | _, _ =>
      let unref_tids := List.filter (is_unrefined_id type_map) (map fst per_run_prods) in
      let rows := material_totals db unref_tids in
      let recovered : PyDict.t Z Z :=
        fold_left
          (fun rec utid =>
             match PyDict.get type_map utid with
             | None => rec
             | Some et =>
                 fold_left
                   (fun rec m =>
                      let out_units :=
                        refine_units (snd m) (default 0 (PyDict.get per_run_prods utid))
                          (et_portion_size et) refine_rate in
                      PyDict.set rec (fst m) (default 0 (PyDict.get rec (fst m)) + out_units))
                   (mats_of rows utid) rec
             end)
          unref_tids [] in
      fold_left
        (fun loss '(mtid, need) =>
           let rec := default 0 (PyDict.get recovered mtid) in
           if 0 <? rec then loss + Z.max (need - rec) 0 else loss)
        per_run_reqs 0
  end.

(** Computations that read and extend the type map and may raise: [None]
    stands for an exception. *)
Definition M (A : Type) : Type := type_map_t -> option (A * type_map_t).
Definition ret {A} (a : A) : M A := fun tm => Some (a, tm).
Definition bind {A B} (m : M A) (k : A -> M B) : M B :=
  fun tm => match m tm with
            | Some (a, tm') => k a tm'
            | None => None
            end.
Definition get_type_map : M type_map_t := fun tm => Some (tm, tm).
Definition lift {A} (o : option A) : M A :=
  fun tm => match o with Some a => Some (a, tm) | None => None end.

(** [refined_partner_type_id]; a name borne by several rows of the table
    makes [EveType.objects.get] raise. *)
Definition refined_partner_type_id (unrefined_tid : Z) : M (option Z) :=
  fun type_map =>
    match PyDict.get type_map unrefined_tid with
    | None => Some (None, type_map)
    | Some et =>
        if negb (_is_unrefined_name (et_name et)) then Some (None, type_map)
        else
          let ref_name := str (drop 10 (chars (et_name et))) in
          match List.find (fun e => String.eqb (et_name (snd e)) ref_name) type_map with
          | Some e => Some (Some (et_id (snd e)), type_map)
          | None =>
              match db_by_name ref_name with
              | [] => Some (None, type_map)
              | [t] => Some (Some (et_id t), PyDict.set type_map (et_id t) t)
              | _ => None
              end
          end
    end.

Fixpoint has_refined_in (tids : list Z) (stock_map : ledger) : M bool :=
  match tids with
  | [] => ret false
  | tid :: rest =>
      bind (refined_partner_type_id tid) (fun rid =>
        match rid with
        | Some r => if 0 <? have stock_map r then ret true
                    else has_refined_in rest stock_map
        | None => has_refined_in rest stock_map
        end)
  end.

Definition has_refined_already (p : plan) (stock_map : ledger) : M bool :=
  has_refined_in (map fst (per_run_products p)) stock_map.

(** Stable sorting by a strict order on keys, as [list.sort] and [sorted]
    do. *)
Fixpoint insert_by {A} (lt : A -> A -> bool) (x : A) (l : list A) : list A :=
  match l with
  | [] => [x]
  | y :: l' => if lt x y then x :: y :: l' else y :: insert_by lt x l'
  end.
Definition sort_by {A} (lt : A -> A -> bool) (l : list A) : list A :=
  fold_left (fun acc x => insert_by lt x acc) l [].

(** The plans with their positions in [priced_plans]; [p is q] compares
    positions. *)
Definition indexed {A} (l : list A) : list (nat * A) := imap (fun i x => (i, x)) l.

Context (priced_plans : list plan).

Definition find_feeders_for_parent (parent : nat * plan) (type_map : type_map_t)
    (max_count : nat) : list (nat * plan) :=
  let parent_inputs := positive_inputs (snd parent) in
  let feeders :=
    flat_map
      (fun cand =>
         if Nat.eqb (fst cand) (fst parent) then []
         else
           let prods := map fst (per_run_products (snd cand)) in
           if existsb (fun pid => bool_decide (pid ∈ parent_inputs)
                                  && negb (is_fuel_id type_map pid)) prods
           then [(Z.of_nat (length (List.filter (fun pid => bool_decide (pid ∈ parent_inputs)) prods)), cand)]
           else [])
      (indexed priced_plans) in
  let key_lt (a b : Z * (nat * plan)) :=
    (- fst a <? - fst b)
    || ((- fst a =? - fst b) && String.ltb (name (snd (snd a))) (name (snd (snd b)))) in
  take max_count (map snd (sort_by key_lt feeders)).

(** ** The loop over [goal_plans] *)

Notation "'do' x <- m ;; k" := (bind m (fun x => k))
  (at level 10, x pattern, m at level 99, k at level 200, only parsing).

Definition reprocessM (produced : list (Z * Z)) : M (PyDict.t Z Z * PyDict.t Z Z) :=
  fun tm =>
    let '(add, used, tm') :=
      reprocess_unrefined_in_stock produced (unrefined_refine_rate cfg) tm in
    Some ((add, used), tm').

(** [cur[t] = max(0, cur.get(t, 0) - q)] for the items of a dictionary. *)
Definition deduct (cur : ledger) (used : list (Z * Z)) : ledger :=
  fold_left (fun c '(t, q) => <[t := Z.max 0 (have c t - q)]> c) used cur.

(** [cur[t] = cur.get(t, 0) + q] for the items of a dictionary. *)
Definition credit (cur : ledger) (added : list (Z * Z)) : ledger :=
  fold_left (fun c '(t, q) => <[t := have c t + q]> c) added cur.

(** [{t: q * r for t, q in plan["per_run_products"].items()}] *)
Definition scaled_products (p : plan) (r : Z) : list (Z * Z) :=
  map (fun '(t, q) => (t, q * r)) (per_run_products p).

Definition nonfuel (type_map : type_map_t) (tids : list Z) : list Z :=
  List.filter (fun t => negb (is_fuel_id type_map t)) tids.

Definition mark_feeder (s : step) : step :=
  {| step_kind := step_kind s; title := title s; runs := runs s;
     produced_qty := produced_qty s; produced_value := produced_value s;
     value_have := value_have s; value_need := value_need s;
     fees_display := fees_display s; step_profit := step_profit s;
     cumulative_profit := cumulative_profit s;
     cumulative_profit_display := cumulative_profit_display s;
     time_total_seconds := time_total_seconds s;
     need_value_total := need_value_total s; m3_need_total := m3_need_total s;
     product_stats_value := product_stats_value s;
     product_stats_m3 := product_stats_m3 s;
     product_ids := product_ids s; requirement_ids := requirement_ids s;
     stock_value_used := stock_value_used s; is_feeder := true |}.

(** The variables that the loop over [feeders] updates. *)
Record feeder_acc := {
  fd_stock : ledger;
  fd_profit : Decimal.t;
  fd_supply : ledger;
  fd_steps : list step;
}.

Definition feeder_one (a : feeder_acc) (fd : nat * plan) : M feeder_acc :=
  do tm <- get_type_map ;;
  let r_fd := runcap_with_present (fd_stock a) (per_run_requirements (snd fd)) tm in
  if r_fd <=? 0 then ret a
  else
    do (step_fd, cur, profit) <- lift (build_step tm (snd fd) r_fd (fd_stock a) (fd_profit a) ∅) ;;
    let step_fd := mark_feeder step_fd in
    let produced_map := scaled_products (snd fd) r_fd in
    do (add_refined, used_unref) <- reprocessM produced_map ;;
    do tm' <- get_type_map ;;
    match add_refined with
    | _ :: _ =>
        ret {| fd_stock := deduct cur used_unref;
               fd_profit := profit;
               fd_supply := add_supply (fd_supply a) add_refined;
               fd_steps := fd_steps a ++
                 [step_fd; build_reprocess_step used_unref add_refined tm' profit true] |}
    | [] =>
        ret {| fd_stock := deduct cur produced_map;
               fd_profit := profit;
               fd_supply := add_supply (fd_supply a) produced_map;
               fd_steps := fd_steps a ++ [step_fd] |}
    end.

Fixpoint feeder_loop (a : feeder_acc) (feeders : list (nat * plan)) : M feeder_acc :=
  match feeders with
  | [] => ret a
  | fd :: rest => do a' <- feeder_one a fd ;; feeder_loop a' rest
  end.

Definition _would_self_loop (refined_from_step : PyDict.t Z Z) (prev : nat * plan)
    (stock_snapshot : ledger) (type_map : type_map_t) : bool :=
  match refined_from_step with
  | [] => false
  | _ =>
      let prev_inputs := positive_inputs (snd prev) in
      existsb
        (fun cand =>
           negb (Nat.eqb (fst cand) (fst prev))
           && negb (runcap_with_present stock_snapshot
                      (per_run_requirements (snd cand)) type_map <=? 0)
           && existsb
                (fun '(t, need) =>
                   negb (is_fuel_id type_map t || (need <=? 0))
                   && bool_decide (t ∈ prev_inputs)
                   && bool_decide (t ∈ PyDict.keys refined_from_step))
                (per_run_requirements (snd cand)))
        (indexed priced_plans)
  end.

Definition _passes_self_loop_guard_deep (plan_next : plan)
    (recovered_add_prev : PyDict.t Z Z) (prev_step_plan : plan)
    (stock_snapshot : ledger) (type_map : type_map_t) : bool :=
  match recovered_add_prev with
  | [] => true
  | _ =>
      let prev_inputs_set := positive_inputs prev_step_plan in
      let rcap_local :=
        runcap_with_present stock_snapshot (per_run_requirements plan_next) type_map in
      if rcap_local <=? 0 then false
      else
        forallb
          (fun '(t, need) =>
             if is_fuel_id type_map t then true
             else if bool_decide (t ∈ prev_inputs_set)
                     && bool_decide (t ∈ PyDict.keys recovered_add_prev)
             then negb (default 0 (PyDict.get recovered_add_prev t) <? need * rcap_local)
             else true)
          (per_run_requirements plan_next)
  end.

(** The ranking key [(produces_unrefined, self_recovery_loss)] and the
    order of tuples on it. *)
Definition rank (p : plan) (type_map : type_map_t) : bool * Z :=
  (produces_unrefined p type_map,
   self_recovery_loss p (unrefined_refine_rate cfg) type_map).

Definition rank_lt (a b : bool * Z) : bool :=
  (negb (fst a) && fst b) || (Bool.eqb (fst a) (fst b) && (snd a <? snd b)).

(** The two loops that choose the next plan of a chain: the loop for the
    second step skips the goal plan itself ([skip]); the loop of the later
    steps applies the deep self-loop guard ([guard]). *)
Fixpoint pick_best (skip : option nat) (guard : plan -> type_map_t -> bool)
    (allowed : list Z) (stock_map : ledger) (cands : list (nat * plan))
    (best : option (plan * Z * (bool * Z))) : M (option (plan * Z * (bool * Z))) :=
  match cands with
  | [] => ret best
  | c :: rest =>
      if bool_decide (skip = Some (fst c)) then pick_best skip guard allowed stock_map rest best
      else
        do tm <- get_type_map ;;
        if negb (consumes_any_of (snd c) allowed tm)
        then pick_best skip guard allowed stock_map rest best
        else
          do refined <- has_refined_already (snd c) stock_map ;;
          if (refined : bool) then pick_best skip guard allowed stock_map rest best
          else
            do tm <- get_type_map ;;
            if negb (guard (snd c) tm) then pick_best skip guard allowed stock_map rest best
            else
              let r := runcap_with_present stock_map (per_run_requirements (snd c)) tm in
              if r <=? 0 then pick_best skip guard allowed stock_map rest best
              else
                let key := rank (snd c) tm in
                let best' :=
                  match best with
                  | None => Some (snd c, r, key)
                  | Some (_, _, best_key) =>
                      if rank_lt key best_key then Some (snd c, r, key) else best
                  end in
                pick_best skip guard allowed stock_map rest best'
  end.

(** A reaction step followed by the reprocessing of its unrefined
    products: the steps, the ledger, the profit, the refined materials and
    the materials allowed as inputs of the next step. *)
Definition step_and_reprocess (p : plan) (r : Z) (cur : ledger) (profit : Decimal.t)
    : M (list step * ledger * Decimal.t * PyDict.t Z Z * list Z) :=
  do tm <- get_type_map ;;
  do (st, cur_after, profit') <- lift (build_step tm p r cur profit ∅) ;;
  do (refined_add, unref_used) <- reprocessM (scaled_products p r) ;;
  do tm' <- get_type_map ;;
  match refined_add with
  | _ :: _ =>
      ret ([st; build_reprocess_step unref_used refined_add tm' profit' false],
           credit (deduct cur_after unref_used) refined_add, profit', refined_add,
           nonfuel tm' (PyDict.keys refined_add))
  | [] =>
      ret ([st], cur_after, profit', refined_add,
           nonfuel tm' (map fst (per_run_products p)))
  end.

(** The loop [while depth < 4], entered with [depth = 2]; [left] is
    [4 - depth]. *)
Fixpoint forward (left : nat) (p2 : plan) (refined_prev : PyDict.t Z Z)
    (next_allowed : list Z) (cur_stock : ledger) (cur_profit : Decimal.t)
    (rendered : list step) : M (list step) :=
  match left with
  | O => ret rendered
  | S left' =>
      let guard pn tm :=
        _passes_self_loop_guard_deep pn refined_prev
          (if Nat.eqb left 2 then p2 else pn) cur_stock tm in
      do bestN <- pick_best None guard next_allowed cur_stock (indexed priced_plans) None ;;
      match bestN with
      | None => ret rendered
      | Some (pn, rN, _) =>
          do (steps, cur_afterN, profitN, refined_add_N, allowed') <-
             step_and_reprocess pn rN cur_stock cur_profit ;;
          forward left' p2 refined_add_N allowed' cur_afterN profitN (rendered ++ steps)
      end
  end.

(** A chain of [chains_raw]: the steps and the totals. *)
Record chain := {
  end_product_name : string;
  steps : list step;
  final_value : Decimal.t;
  final_volume : Decimal.t;
  final_fees : Decimal.t;
  final_need_cost : Decimal.t;
  final_stock_value_used : Decimal.t;
  final_profit_unformatted : Decimal.t;
  final_profit : Decimal.t;
  total_time_seconds : Z;
}.

Definition is_reaction (s : step) : bool :=
  match step_kind s with reaction => true | reprocess => false end.

Definition last_reaction_step (rendered : list step) : option step :=
  List.find is_reaction (rev rendered).

Definition join_names (names : list string) : string :=
  match names with
  | [] => ""
  | n :: rest => fold_left (fun acc m => acc ++ ", " ++ m)%string rest n
  end.

Definition end_name_of (rendered : list step) (type_map : type_map_t) : string :=
  match last_reaction_step rendered with
  | None => "Reaction Chain"
  | Some st =>
      let end_names :=
        flat_map (fun pid => match PyDict.get type_map pid with
                             | Some et => if String.eqb (et_name et) "" then [] else [et_name et]
                             | None => []
                             end) (product_ids st) in
      match end_names with
      | [] => if String.eqb (title st) "" then "Reaction Chain" else title st
      | _ => join_names end_names
      end
  end.

(** The totals of a chain, from [last_reaction_step = None] to the entry
    appended to [chains_raw].  [None] stands for the exception of the
    division in [profit_margin], [final_profit / (final_value - final_fees)],
    which is guarded by [final_value > 0] only. *)
Definition finish_chain (rendered : list step) (type_map : type_map_t) : option chain :=
  let '(final_value_, final_m3) :=
    match last_reaction_step rendered with
    | Some st => (product_stats_value st, product_stats_m3 st)
    | None => (Decimal.zero, Decimal.zero)
    end in
  let final_fees_ := Decimal.sum (map fees_display rendered) in
  let total_needed_cost := Decimal.sum (map need_value_total rendered) in
  let total_stock_value_used :=
    Decimal.sum (map (fun s => default Decimal.zero (stock_value_used s)) rendered) in
  let final_profit_ :=
    match rendered with
    | [] => Decimal.zero
    | _ =>
        Decimal.sub
          (Decimal.sub (Decimal.sub final_value_ final_fees_) total_needed_cost)
          total_stock_value_used
    end in
  if Decimal.ltb Decimal.zero final_value_
     && Decimal.eqb (Decimal.sub final_value_ final_fees_) Decimal.zero
  then None
  else
  Some
  {| end_product_name := end_name_of rendered type_map;
     steps := rendered;
     final_value := Decimal.display2 final_value_;
     final_volume := Decimal.display2 final_m3;
     final_fees := Decimal.display2 final_fees_;
     final_need_cost := Decimal.display2 total_needed_cost;
     final_stock_value_used := total_stock_value_used;
     final_profit_unformatted := final_profit_;
     final_profit := Decimal.display2 final_profit_;
     total_time_seconds := fold_left Z.add (map time_total_seconds rendered) 0 |}.

(** The body of [for gp in goal_plans]; the inner [None] is a chain given
    up by [continue]. *)
Definition chain_for_goal (stock : ledger) (gp : nat * plan) : M (option chain) :=
  do tm <- get_type_map ;;
  let feeders := find_feeders_for_parent gp tm 2 in
  do a <- feeder_loop {| fd_stock := stock; fd_profit := Decimal.zero;
                       fd_supply := ∅; fd_steps := [] |} feeders ;;
  do tm <- get_type_map ;;
  let r1 := runcap_with_supply (fd_stock a) (per_run_requirements (snd gp))
              (fd_supply a) tm in
  if r1 <=? 0 then ret None
  else
    do (step1, cur_after_step1, profit) <-
       lift (build_step tm (snd gp) r1 (fd_stock a) (fd_profit a) (fd_supply a)) ;;
    do (refined_add, unref_used) <- reprocessM (scaled_products (snd gp) r1) ;;
    let rendered := fd_steps a ++ [step1] in
    do tm <- get_type_map ;;
    if _would_self_loop refined_add gp cur_after_step1 tm then ret None
    else
      let '(cur_after_step1, rendered, prev_products) :=
        match refined_add with
        | _ :: _ =>
            (credit (deduct cur_after_step1 unref_used) refined_add,
             rendered ++ [build_reprocess_step unref_used refined_add tm profit false],
             nonfuel tm (PyDict.keys refined_add))
        | [] =>
            (cur_after_step1, rendered, nonfuel tm (map fst (per_run_products (snd gp))))
        end in
      do best <- pick_best (Some (fst gp)) (fun _ _ => true) prev_products
                cur_after_step1 (indexed priced_plans) None ;;
      do rendered <-
        match best with
        | None => ret rendered
        | Some (p2, r2, _) =>
            do (steps2, cur_after2, profit2, refined_add_2, next_allowed) <-
               step_and_reprocess p2 r2 cur_after_step1 profit ;;
            forward 2 p2 refined_add_2 next_allowed cur_after2 profit2 (rendered ++ steps2)
        end ;;
      do tm <- get_type_map ;;
      do c <- lift (finish_chain rendered tm) ;;
      ret (Some c).

Definition virtual_limit : nat := 50.

Fixpoint chains_loop (stock : ledger) (goal_plans : list (nat * plan))
    (chains_raw : list chain) : M (list chain) :=
  match goal_plans with
  | [] => ret chains_raw
  | gp :: rest =>
      if (virtual_limit <=? length chains_raw)%nat then ret chains_raw
      else
        do c <- chain_for_goal stock gp ;;
        chains_loop stock rest
          (chains_raw ++ match c with Some ch => [ch] | None => [] end)
  end.

(** The key of [seen_goal_bp]: the blueprint id, or the identity of the
    plan when the id is 0. *)
Definition goal_key (p : nat * plan) : Z + nat :=
  if plan_blueprint_type_id (snd p) =? 0 then inr (fst p)
  else inl (plan_blueprint_type_id (snd p)).

(** The loop that collects [candidates] and the sorted [goal_plans]. *)
Definition goal_plans (stock : ledger) (type_map : type_map_t) : list (nat * plan) :=
  let eligible (p : nat * plan) : bool :=
    let has_any :=
      existsb (fun '(t, n) => (0 <? n) && (0 <? have stock t) && negb (is_fuel_id type_map t))
              (per_run_requirements (snd p)) in
    has_any ||
    existsb
      (fun cand =>
         negb (Nat.eqb (fst cand) (fst p))
         && existsb (fun t => bool_decide (t ∈ map fst (per_run_products (snd cand))))
                    (positive_inputs (snd p))
         && (0 <? runcap_with_present stock (per_run_requirements (snd cand)) type_map))
      (indexed priced_plans) in
  let '(candidates, _) :=
    fold_left
      (fun (st : list (bool * Z * (nat * plan)) * list (Z + nat)) p =>
         let '(cands, seen) := st in
         if negb (eligible p) then (cands, seen)
         else if bool_decide (goal_key p ∈ seen) then (cands, seen)
         else (cands ++ [(rank (snd p) type_map, p)], goal_key p :: seen))
      (indexed priced_plans) ([], []) in
  map snd (sort_by (fun a b => rank_lt (fst a) (fst b)) candidates).

(** [chains_raw] for a request. *)
Definition build_chains (stock : ledger) : M (list chain) :=
  do tm <- get_type_map ;;
  chains_loop stock (goal_plans stock tm) [].

End with_settings.

End Chain.

(* ===================================================================== *)
(** * helper.py and views.py: facility bonuses, refine rate, first pass   *)
(* ===================================================================== *)

Module Facility.
Import Helper.

Definition te_bonus_pct (rig_te location : string) : option Decimal.t :=
  let base :=
    if String.eqb rig_te "t1" then Decimal.lit 200 1
    else if String.eqb rig_te "t2" then Decimal.lit 240 1
    else Decimal.zero in
  Decimal.quantize Decimal.ROUND_HALF_UP 3 (Decimal.mul base (LOCATION_MULT location)).

Definition size_time_bonus_pct (size : string) : Decimal.t :=
  if String.eqb size "large" then Decimal.lit 250 1 else Decimal.lit 200 1.

(** [int(t.to_integral_value(rounding=ROUND_HALF_UP))] *)
Definition effective_time_seconds (base skill_level : Z) (size : string)
    (te_pct : Decimal.t) : Z :=
  let skill_red := Decimal.mul (Decimal.lit 4 2) (Decimal.of_Z skill_level) in
  let size_red := Decimal.div (size_time_bonus_pct size) (Decimal.of_Z 100) in
  let te_red := Decimal.div te_pct (Decimal.of_Z 100) in
  let t :=
    Decimal.mul
      (Decimal.mul
         (Decimal.mul (Decimal.of_Z base) (Decimal.sub (Decimal.of_Z 1) skill_red))
         (Decimal.sub (Decimal.of_Z 1) size_red))
      (Decimal.sub (Decimal.of_Z 1) te_red) in
  Decimal.rescale Decimal.ROUND_HALF_UP 0 t.

End Facility.

Module Request.
Import Helper.

(** The statements of [InputView.post] that read the refine rate: the
    value of the form, or the stored setting when the form gives none or
    0; a value of at most 1 is taken as a fraction.  Returns
    [refine_rate_pct] and [refine_rate]. *)
Definition refine_rate_of (form_value : option Decimal.t) (settings_value : Decimal.t)
    : Decimal.t * Decimal.t :=
  let chosen :=
    match form_value with
    | Some v => if Decimal.eqb v Decimal.zero then settings_value else v
    | None => settings_value
    end in
  let pct :=
    if Decimal.leb chosen (Decimal.of_Z 1)
    then Decimal.mul chosen (Decimal.lit 100 0) else chosen in
  (pct, Decimal.div pct (Decimal.lit 100 0)).

End Request.

Module Planner.
Import Catalog Helper.

(** An entry of the list that [plan_reactions_once] returns. *)
Record raw_plan := {
  rp_reaction : Reaction;
  rp_runs : Z;
  rp_products : PyDict.t Z Z;
  rp_consumed : PyDict.t Z Z;
  rp_missing : PyDict.t Z Z;
  rp_have_any : bool;
  rp_per_run_requirements : PyDict.t Z Z;
  rp_per_run_products : PyDict.t Z Z;
}.

(** [d = {}; for k, v in rows: d[k] = v] *)
Definition to_dict (rows : list (Z * Z)) : PyDict.t Z Z :=
  fold_left (fun d '(k, v) => PyDict.set d k v) rows [].

(** The list [caps]. *)
Definition caps_of (remaining : ledger) (reqs : PyDict.t Z Z) : list Z :=
  fold_left
    (fun caps '(tid, need) => if need <=? 0 then caps else caps ++ [have remaining tid / need])
    reqs [].

(** The loop that fills [missing] and sets [have_any]. *)
Definition missing_of (remaining : ledger) (reqs : PyDict.t Z Z) : PyDict.t Z Z * bool :=
  fold_left
    (fun '(missing, have_any) '(tid, need) =>
       let h := have remaining tid in
       (PyDict.set missing tid (Z.max (need - h) 0), if 0 <? h then true else have_any))
    reqs ([], false).

(** The loops that consume and produce for [max_runs] runs. *)
Definition consume (remaining : ledger) (reqs : PyDict.t Z Z) (max_runs : Z)
    : ledger * PyDict.t Z Z :=
  fold_left
    (fun '(rem, consumed) '(tid, need) =>
       let use := need * max_runs in
       (<[tid := have rem tid - use]> rem, PyDict.set consumed tid use))
    reqs (remaining, []).

Definition produce (remaining : ledger) (prods : PyDict.t Z Z) (max_runs : Z)
    : ledger * PyDict.t Z Z :=
  fold_left
    (fun '(rem, produced) '(tid, outq) =>
       let qty := outq * max_runs in
       (<[tid := have rem tid + qty]> rem, PyDict.set produced tid qty))
    prods (remaining, []).

(** The body of [for rx in reactions]. *)
Definition plan_one (st : list raw_plan * ledger) (rx : Reaction)
    : list raw_plan * ledger :=
  let '(plans, remaining) := st in
  let reqs := to_dict (materials rx) in
  let prods := to_dict (products rx) in
  let max_runs := min_or_zero (caps_of remaining reqs) in
  if max_runs <=? 0 then
    let '(missing, have_any) := missing_of remaining reqs in
    (plans ++ [ {| rp_reaction := rx; rp_runs := 0; rp_products := []; rp_consumed := [];
                   rp_missing := missing; rp_have_any := have_any;
                   rp_per_run_requirements := reqs; rp_per_run_products := prods |} ],
     remaining)
  else
    let '(rem1, consumed) := consume remaining reqs max_runs in
    let '(rem2, produced) := produce rem1 prods max_runs in
    (plans ++ [ {| rp_reaction := rx; rp_runs := max_runs; rp_products := produced;
                   rp_consumed := consumed; rp_missing := []; rp_have_any := true;
                   rp_per_run_requirements := reqs; rp_per_run_products := prods |} ],
     rem2).

Definition plan_reactions_once (db : DB) (stock : ledger) : list raw_plan * ledger :=
  fold_left plan_one (reactions db) ([], stock).

Definition plan_reactions_with_chain (db : DB) (stock : ledger) : list raw_plan :=
  fst (plan_reactions_once db stock).

End Planner.

(** The order in which the chains are listed. *)
Module Listing.
Import Text Chain.

(** [<] on the tuples that [sort_fn] returns for the keys ["value"] and
    ["profit"]. *)
Definition pair_lt (a b : Decimal.t * Decimal.t) : bool :=
  Decimal.ltb (fst a) (fst b)
  || (Decimal.eqb (fst a) (fst b) && Decimal.ltb (snd a) (snd b)).

(** [sort_fn(a) < sort_fn(b)] *)
Definition sort_lt (sort_key : string) (a b : chain) : bool :=
  if String.eqb sort_key "name" then
    String.ltb (str (lower (chars (end_product_name a))))
               (str (lower (chars (end_product_name b))))
  else if String.eqb sort_key "value" then
    pair_lt (final_value a, final_profit a) (final_value b, final_profit b)
  else
    pair_lt (final_profit a, final_value a) (final_profit b, final_value b).

(** [sorted(chains_raw, key=sort_fn, reverse=(sort_key != "name"))]; with
    [reverse] the list is reversed, sorted and reversed again, so that
    chains with equal keys keep their order. *)
Definition chains_sorted (sort_key : string) (chains_raw : list chain) : list chain :=
  if String.eqb sort_key "name" then sort_by (sort_lt sort_key) chains_raw
  else rev (sort_by (sort_lt sort_key) (rev chains_raw)).

End Listing.

(* ===================================================================== *)
(** * The notions that the properties are stated with                     *)
(* ===================================================================== *)

(** The decimal fraction [c / 10 ^ j]. *)
Definition dval (c j : Z) : Qc := Q2Qc (c # Z.to_pos (10 ^ j)).

Module Spec.
Import Catalog Helper Chain.

(** ** Parser *)

(** The lines of a text: what [line_seps.split(raw)] yields. *)
Definition raw_lines (raw : string) : list (list ascii) :=
  Re.split Parser.line_seps (Text.chars raw).

(** Two results of the parser hold the same (name, quantity) pairs, or
    both parses raise. *)
Definition same_items (r1 r2 : option (list (string * Z))) : Prop :=
  match r1, r2 with
  | Some a, Some b => Permutation a b
  | None, None => True
  | _, _ => False
  end.

(** Two states of [agg] with the same content. *)
Definition agg_eq (a1 a2 : Parser.agg_t) : Prop :=
  forall k, PyDict.get a1 k = PyDict.get a2 k.

(** All the calls of [add] that the lines issue, in order. *)
Fixpoint all_calls (ls : list (list ascii)) : option (list Parser.call) :=
  match ls with
  | [] => Some []
  | l :: rest =>
      match Parser.line_calls l, all_calls rest with
      | Some cs, Some more => Some (cs ++ more)
      | _, _ => None
      end
  end.

Definition same_calls (r1 r2 : option (list Parser.call)) : Prop :=
  match r1, r2 with
  | Some a, Some b => Permutation a b
  | None, None => True
  | _, _ => False
  end.

(** *** Texts of item lines *)

(** A letter of a name: [A-Z] or [a-z] other than [x]. *)
Definition name_char (c : ascii) : bool :=
  let n := Text.code c in
  (((65 <=? n) && (n <=? 90)) || ((97 <=? n) && (n <=? 122)))
  && negb (Text.ch_eqb c "x").

(** How a name is written in a line. *)
Inductive quoting := bare | double_quoted | single_quoted.

Definition written (q : quoting) (n : list ascii) : list ascii :=
  match q with
  | bare => n
  | double_quoted => Text.chr 34 :: n ++ [Text.chr 34]
  | single_quoted => "'"%char :: n ++ ["'"%char]
  end.

(** The line [name x qty]. *)
Definition item_line (it : quoting * list ascii * list ascii) : list ascii :=
  written (fst (fst it)) (snd (fst it)) ++ Text.chars " x " ++ snd it.

(** A name of letters and a quantity of digits that [float] holds
    exactly. *)
Definition item_ok (it : quoting * list ascii * list ascii) : Prop :=
  snd (fst it) <> [] /\ forallb name_char (snd (fst it)) = true
  /\ snd it <> [] /\ forallb Text.is_digit (snd it) = true
  /\ Parser.digits_value (snd it) < 2 ^ 53.

(** The lines joined by newlines. *)
Fixpoint join_lines (ls : list (list ascii)) : list ascii :=
  match ls with
  | [] => []
  | [l] => l
  | l :: rest => l ++ Text.newline :: join_lines rest
  end.

(** The sum of the quantities of the items named [k]. *)
Definition item_total (items : list (quoting * list ascii * list ascii)) (k : string) : Z :=
  fold_right (fun it acc => if String.eqb (Text.str (snd (fst it))) k
                            then Parser.digits_value (snd it) + acc else acc) 0 items.

(** The sum of the quantities of the calls of [add] whose name cleans to
    [k], the calls that [add] ignores left out. *)
Definition call_total (cs : list Parser.call) (k : string) : Z :=
  fold_right
    (fun c acc =>
       match Parser._clean_name_fragment (fst c) with
       | [] => acc
       | n => if (0 <? snd c) && String.eqb (Text.str n) k then snd c + acc else acc
       end) 0 cs.

(** The entry of a dictionary of totals. *)
Definition entry_of (total : Z) : option Z := if 0 <? total then Some total else None.

(** A character of a written name: any but a line break, a blank and the
    signs [x] and [×]. *)
Definition wchar (c : ascii) : bool :=
  Text.is_dot c && negb (Text.is_space c) && negb (Parser.x_or_times c).

(** The part of [name_x_qty] after the name. *)
Definition x_qty_tail : Re.t :=
  Re.seq [ Re.star Text.is_space; Re.Chr Parser.x_or_times; Re.star Text.is_space;
           Re.Grp Parser.g_qty (Re.plus Parser.qty_class); Re.star Text.is_space; Re.Eol ].

(** A character that does not end a line. *)
Definition line_char (c : ascii) : bool :=
  negb (Text.one_of ";" c || Text.ch_eqb c Text.newline || Text.ch_eqb c (Text.chr 13)).

(** The call of [add] that an item line issues. *)
Definition item_call (it : quoting * list ascii * list ascii) : Parser.call :=
  (written (fst (fst it)) (snd (fst it)), Parser.digits_value (snd it)).

(** Every value of the dictionary is positive. *)
Definition positive_dict (d : Parser.agg_t) : Prop :=
  forall k v, PyDict.get d k = Some v -> 0 < v.

(** ** Capacity *)

(** The requirements that gate capacity in the words of the specification:
    positive per-run quantity, not a fuel. *)
Definition gating (type_map : type_map_t) (reqs : list (Z * Z)) : list (Z * Z) :=
  List.filter (fun r => (0 <? snd r) && negb (is_fuel_id type_map (fst r))) reqs.

(** [floor(ledger[material] / eff_qty)] *)
Definition cap_of (stock : ledger) (r : Z * Z) : Z := have stock (fst r) / snd r.

(** The minimum over the gating requirements, 0 when there is none. *)
Definition capacity_spec (stock : ledger) (reqs : list (Z * Z))
    (type_map : type_map_t) : Z :=
  min_or_zero (map (cap_of stock) (gating type_map reqs)).

(** The same minimum over the gating requirements that the ledger holds. *)
Definition present_spec (stock : ledger) (reqs : list (Z * Z))
    (type_map : type_map_t) : Z :=
  min_or_zero
    (map (cap_of stock)
       (List.filter (fun r => 0 <? have stock (fst r)) (gating type_map reqs))).

(** ** Categorization *)

(** The category of an item in the words of the specification, first match
    first: fuel by name, material when a reaction requires it, refine when
    a decomposition rule exists. *)
Definition category_of (db : DB) (et : EveType) : option category :=
  if is_fuel_name (et_name et) then Some fuel
  else if existsb (fun rx => existsb (fun m => fst m =? et_id et) (materials rx))
            (reactions db) then Some material
  else if existsb (fun r => eve_type_id r =? et_id et) (type_materials db)
  then Some refine
  else None.

Definition categorized (db : DB) (p : ParsedLine) : list ParsedItem :=
  match category_of db (pl_evetype p) with
  | Some c => [ {| evetype := pl_evetype p; item_quantity := pl_quantity p;
                   item_category := c |} ]
  | None => []
  end.

(** ** Prices *)

(** The request to the price service fails: no connection, an error
    status, an answer that is not JSON, or no entry for the item. *)
Definition request_failed (w : Pricing.World) (item_id : Z) : Prop :=
  let r := if Pricing.method_is_janice w && Pricing.janice_key_valid w
           then Pricing.janice w item_id else Pricing.fuzzwork w item_id in
  r = Pricing.Unreachable \/ r = Pricing.BadStatus
  \/ r = Pricing.NotJson \/ r = Pricing.NoNode.

(** The price of the basis asked for, as far as the answer of the service
    gave it: the four prices are read in the order buy, sell, buy average,
    sell average, and the first one that cannot be read ends the
    reading. *)
Definition served (w : Pricing.World) (item_id : Z) (b : Pricing.basis)
    : option Decimal.t :=
  let val f := match f with Pricing.Val d => Some d | _ => None end in
  match (if Pricing.method_is_janice w && Pricing.janice_key_valid w
         then Pricing.janice w item_id else Pricing.fuzzwork w item_id) with
  | Pricing.Node fb fs fba fsa =>
      match b, Pricing.price_instant w with
      | Pricing.buy, true => val fb
      | Pricing.sell, true => _ ← val fb; val fs
      | Pricing.buy, false => _ ← val fb; _ ← val fs; val fba
      | Pricing.sell, false => _ ← val fb; _ ← val fs; _ ← val fba; val fsa
      end
  | _ => None
  end.

(** ** Ledger and profit *)

(** Every quantity of the ledger is a non-negative integer. *)
Definition nonneg (l : ledger) : Prop := forall t q, l !! t = Some q -> 0 <= q.

Definition products_nonneg (p : plan) : Prop :=
  Forall (fun pr => 0 <= snd pr) (per_run_products p).

(** The cumulative profits of the steps accumulate additively from [cum]:
    a reaction step adds its step profit, a reprocess step repeats the
    profit reached. *)
Fixpoint additive (cum : Decimal.t) (sts : list step) : Prop :=
  match sts with
  | [] => True
  | s :: rest =>
      match step_kind s, step_profit s with
      | reaction, Some sp =>
          cumulative_profit s = Decimal.add cum sp /\ additive (cumulative_profit s) rest
      | reprocess, None => cumulative_profit s = cum /\ additive cum rest
      | _, _ => False
      end
  end.

(** The cumulative profit of the last step. *)
Fixpoint last_cum (cum : Decimal.t) (sts : list step) : Decimal.t :=
  match sts with
  | [] => cum
  | s :: rest => last_cum (cumulative_profit s) rest
  end.

(** The cumulative profit carried along a chain under construction. *)
Definition carries (profit : Decimal.t) (rendered : list step) : Prop :=
  additive Decimal.zero rendered /\ last_cum Decimal.zero rendered = profit.

(** [sum(step.step_profit for step in chain.steps)] *)
Definition sum_step_profits (sts : list step) : Decimal.t :=
  Decimal.sum (omap step_profit sts).

(** The final profit as [InputView.post] computes it from the texts of the
    steps. *)
Definition final_profit_formula (sts : list step) : Decimal.t :=
  Decimal.sub
    (Decimal.sub
       (Decimal.sub
          (match last_reaction_step sts with
           | Some st => product_stats_value st
           | None => Decimal.zero
           end)
          (Decimal.sum (map fees_display sts)))
       (Decimal.sum (map need_value_total sts)))
    (Decimal.sum (map (fun s => default Decimal.zero (stock_value_used s)) sts)).

(** ** Further notions *)

(** An entry of the parser's result: a name and a positive quantity. *)
Definition entry_ok (kv : string * Z) : Prop := fst kv <> ""%string /\ 0 < snd kv.

(** The factor that a suffix of a numeric token stands for. *)
Definition suffix_mult (suf : list ascii) : Z :=
  match suf with
  | [c] => if Text.one_of "kK" c then 1000
           else if Text.one_of "mM" c then 1000000
           else if Text.one_of "bB" c then 1000000000 else 1
  | _ => 1
  end.

(** The per mille that is left of the time for a facility size. *)
Definition size_left (size : string) : Z := if String.eqb size "large" then 750 else 800.

(** The sum of the quantities that the items of [src] give for [t]. *)
Definition supplied (src : list (Z * Z)) (t : Z) : Z :=
  fold_right (fun kv acc => if fst kv =? t then snd kv + acc else acc) 0 src.

(** The sum of the quantities of the resolved lines of type [t] that have
    a positive quantity. *)
Definition unlisted_total (resolved : list ParsedLine) (t : Z) : Z :=
  supplied (map (fun p => (et_id (pl_evetype p), pl_quantity p))
                (List.filter (fun p => 0 <? pl_quantity p) resolved)) t.

(** The items that go into the ledger as they are: the materials and the
    fuel, as (type id, quantity) pairs. *)
Definition direct_items (items : list ParsedItem) : list (Z * Z) :=
  map (fun p => (et_id (evetype p), item_quantity p))
      (List.filter (fun p => negb (category_eqb (item_category p) refine)) items).

(** [t] is a type of the database with an "Unrefined ..." name. *)
Definition unrefined_in_db (db : DB) (t : Z) : bool :=
  match db_by_id db t with
  | Some e => _is_unrefined_name (et_name e)
  | None => false
  end.

(** The quantity per run that a recipe lists for [t], counted only when
    the type map knows [t] (an unknown type is skipped by [build_step]). *)
Definition per_run (rows : list (Z * Z)) (tm : type_map_t) (t : Z) : Z :=
  if known tm t then default 0 (PyDict.get rows t) else 0.

(** What holds of every entry that [plan_reactions_once] returns. *)
Definition plan_ok (p : Planner.raw_plan) : Prop :=
  0 <= Planner.rp_runs p
  /\ (Planner.rp_runs p = 0 -> Planner.rp_products p = [] /\ Planner.rp_consumed p = [])
  /\ (0 < Planner.rp_runs p -> Planner.rp_missing p = [] /\ Planner.rp_have_any p = true)
  /\ Planner.rp_per_run_requirements p = Planner.to_dict (materials (Planner.rp_reaction p))
  /\ Planner.rp_per_run_products p = Planner.to_dict (products (Planner.rp_reaction p)).

(** Every element of the list stands in [R] to every later one. *)
Fixpoint ordered {A} (R : A -> A -> Prop) (l : list A) : Prop :=
  match l with
  | [] => True
  | x :: rest => Forall (R x) rest /\ ordered R rest
  end.

(** [a] may stand before [b] in a list sorted by the strict order [lt]. *)
Definition may_precede {A} (lt : A -> A -> bool) (a b : A) : Prop := lt b a = false.

(** What the loop over [priced_plans] keeps about [candidates] and
    [seen_goal_bp]. *)
Definition candidates_ok (cfg : settings) (db : DB) (priced_plans : list plan)
    (tm : type_map_t) (cands : list (bool * Z * (nat * plan))) (seen : list (Z + nat))
    : Prop :=
  Permutation (map (fun c => goal_key (snd c)) cands) seen
  /\ List.NoDup seen
  /\ Forall (fun c => fst c = rank cfg db (snd (snd c)) tm
                      /\ In (snd c) (indexed priced_plans)) cands.

(** A block of steps that a chain gains at once: at most [n] steps, at
    most [k] of them reactions, each with at least one run. *)
Definition block (n k : nat) (sts : list step) : Prop :=
  (length sts <= n)%nat
  /\ (length (List.filter is_reaction sts) <= k)%nat
  /\ Forall (fun s => 1 <= runs s) sts.

End Spec.

(** ** Concrete data for the examples *)

Module Demo.
Import Catalog Helper Chain.

Definition newline_text : string := String (Text.chr 10) EmptyString.

Definition widget : EveType :=
  {| et_id := 9; et_name := "Widget"; et_volume := Decimal.zero;
     et_portion_size := Some 1 |}.
Definition no_rules : DB :=
  {| eve_types := [widget]; type_materials := []; reactions := [] |}.
Definition five_widgets : ParsedLine := {| pl_evetype := widget; pl_quantity := 5 |}.

(** An item refined in portions of 3 units, 30 units of material 2 per
    portion. *)
Definition ore : EveType :=
  {| et_id := 1; et_name := "Ore"; et_volume := Decimal.zero;
     et_portion_size := Some 3 |}.
Definition ore_db : DB :=
  {| eve_types := [ore];
     type_materials :=
       [ {| eve_type_id := 1; material_eve_type_id := 2; quantity := 30 |} ];
     reactions := [] |}.
Definition one_ore : ParsedItem :=
  {| evetype := ore; item_quantity := 1; item_category := refine |}.

(** One recipe: 10 of Alpha give 5 of Beta; 100 of Alpha in stock; Alpha
    at 1.00 and Beta at 10.00. *)
Definition alpha : EveType :=
  {| et_id := 1; et_name := "Alpha"; et_volume := Decimal.lit 1 1;
     et_portion_size := Some 1 |}.
Definition beta : EveType :=
  {| et_id := 2; et_name := "Beta"; et_volume := Decimal.lit 5 1;
     et_portion_size := Some 1 |}.
Definition db : DB := {| eve_types := [alpha; beta]; type_materials := []; reactions := [] |}.
Definition type_map : type_map_t := [(1, alpha); (2, beta)].
Definition recipe : plan :=
  {| name := "Alpha to Beta"; per_run_requirements := [(1, 10)];
     per_run_products := [(2, 5)]; time_per_run_seconds := 3600;
     plan_blueprint_type_id := 77 |}.
Definition stock : ledger := {[ 1 := 100 ]}.
Definition cfg : settings :=
  {| input_basis := Pricing.buy; output_basis := Pricing.sell;
     buyback_basis := Pricing.buy;
     broker_fee_pct := Decimal.lit 300 2; stax_pct := Decimal.lit 3375 3;
     facility_tax_pct := Decimal.lit 150 2; cost_index_pct := Decimal.lit 150 3;
     use_buyback := false; buyback_mult := Decimal.lit 9000 4;
     unrefined_refine_rate := Decimal.lit 55 2;
     price := fun tid _ => if tid =? 1 then Decimal.lit 100 2 else Decimal.lit 1000 2 |}.

(** A price service that cannot be reached and an empty price table. *)
Definition offline : Pricing.World :=
  {| Pricing.method_is_janice := false; Pricing.janice_key_valid := false;
     Pricing.price_instant := true;
     Pricing.janice := fun _ => Pricing.Unreachable;
     Pricing.fuzzwork := fun _ => Pricing.Unreachable;
     Pricing.rows := ∅;
     Pricing.get_fails := fun _ => false;
     Pricing.create_fails := fun _ => false |}.

(** The recipe as a row of the recipe table, and an unrefined item that
    reprocesses into Alpha, 10 units per item. *)
Definition rx : Reaction :=
  {| rx_name := "Alpha to Beta"; blueprint_type_id := 77; time_seconds := 3600;
     materials := [(1, 10)]; products := [(2, 5)] |}.
Definition rx_db : DB :=
  {| eve_types := [alpha; beta]; type_materials := []; reactions := [rx] |}.
Definition unrefined_gamma : EveType :=
  {| et_id := 3; et_name := "Unrefined Gamma"; et_volume := Decimal.lit 1 0;
     et_portion_size := Some 1 |}.
Definition gamma_db : DB :=
  {| eve_types := [alpha; beta; unrefined_gamma];
     type_materials :=
       [ {| eve_type_id := 3; material_eve_type_id := 1; quantity := 10 |} ];
     reactions := [] |}.

(** A service that answers for item 34 with a buy price of 5.50 and no
    sell price, and an empty price table. *)
Definition partial : Pricing.World :=
  {| Pricing.method_is_janice := false; Pricing.janice_key_valid := false;
     Pricing.price_instant := true;
     Pricing.janice := fun _ => Pricing.Unreachable;
     Pricing.fuzzwork := fun _ =>
       Pricing.Node (Pricing.Val (Decimal.lit 550 2)) Pricing.Missing
                    Pricing.Missing Pricing.Missing;
     Pricing.rows := ∅;
     Pricing.get_fails := fun _ => false;
     Pricing.create_fails := fun _ => false |}.

(** A price table that cannot be read. *)
Definition table_down : Pricing.World :=
  {| Pricing.method_is_janice := false; Pricing.janice_key_valid := false;
     Pricing.price_instant := true;
     Pricing.janice := fun _ => Pricing.Unreachable;
     Pricing.fuzzwork := fun _ => Pricing.Unreachable;
     Pricing.rows := ∅;
     Pricing.get_fails := fun _ => true;
     Pricing.create_fails := fun _ => false |}.

End Demo.

(* ===================================================================== *)
(** * Properties                                                          *)
(* ===================================================================== *)

Import Spec.

(** ** Dictionaries *)

Section dict_facts.
Context {K V : Type} `{EqDecision K}.
Implicit Types (d : PyDict.t K V) (k : K) (v : V).

Lemma dict_get_set d k v k' :
  PyDict.get (PyDict.set d k v) k' = if decide (k = k') then Some v else PyDict.get d k'.
Proof.
  induction d as [|[k0 v0] d IH]; simpl.
  - destruct (decide (k = k')); reflexivity.
  - destruct (decide (k0 = k)) as [->|Hne]; simpl.
    + destruct (decide (k = k')); reflexivity.
    + rewrite IH. destruct (decide (k0 = k')) as [->|]; [|reflexivity].
      destruct (decide (k = k')); congruence.
Qed.

Lemma dict_keys_set d k v :
  forall x, In x (PyDict.keys (PyDict.set d k v)) <-> x = k \/ In x (PyDict.keys d).
Proof.
  unfold PyDict.keys. induction d as [|[k0 v0] d IH]; simpl; intros x.
  - intuition.
  - destruct (decide (k0 = k)) as [->|Hne]; simpl.
    + intuition.
    + rewrite IH. intuition.
Qed.

Lemma dict_NoDup_set d k v :
  List.NoDup (PyDict.keys d) -> List.NoDup (PyDict.keys (PyDict.set d k v)).
Proof.
  unfold PyDict.keys. induction d as [|[k0 v0] d IH]; simpl; intros Hnd.
  - constructor; [intros []|constructor].
  - inversion Hnd as [|? ? Hnotin Hnd']; subst.
    destruct (decide (k0 = k)) as [->|Hne]; simpl.
    + constructor; assumption.
    + constructor; [|auto].
      intros Hin. apply (dict_keys_set d k v k0) in Hin. destruct Hin as [Heq|Hin]; [congruence|exact (Hnotin Hin)].
Qed.

Lemma dict_get_In d k v :
  List.NoDup (PyDict.keys d) -> (In (k, v) d <-> PyDict.get d k = Some v).
Proof.
  unfold PyDict.keys. induction d as [|[k0 v0] d IH]; simpl; intros Hnd.
  - split; [intros []|discriminate].
  - inversion Hnd as [|? ? Hnotin Hnd']; subst.
    destruct (decide (k0 = k)) as [->|Hne].
    + split.
      * intros [Heq|Hin]; [congruence|].
        exfalso. apply Hnotin. apply (in_map fst) in Hin. exact Hin.
      * intros Heq. left. congruence.
    + rewrite <- (IH Hnd'). split; [intros [Heq|Hin]; [congruence|assumption]|auto].
Qed.

Lemma dict_NoDup_items d : List.NoDup (PyDict.keys d) -> List.NoDup d.
Proof.
  unfold PyDict.keys. induction d as [|[k0 v0] d IH]; simpl; intros Hnd.
  - constructor.
  - inversion Hnd; subst. constructor; [|auto].
    intros Hin. apply (in_map fst) in Hin. auto.
Qed.

(** Two dictionaries with the same content hold the same items. *)
Lemma dict_same_get_Permutation d1 d2 :
  List.NoDup (PyDict.keys d1) -> List.NoDup (PyDict.keys d2) ->
  (forall k, PyDict.get d1 k = PyDict.get d2 k) -> Permutation d1 d2.
Proof.
  intros H1 H2 Hget.
  apply NoDup_Permutation; [apply NoDup_ListNoDup, dict_NoDup_items, H1
                           |apply NoDup_ListNoDup, dict_NoDup_items, H2|].
  intros [k v]. rewrite !list_elem_of_In, !dict_get_In by assumption.
  rewrite Hget. reflexivity.
Qed.

Lemma dict_get_In_weak d k v : PyDict.get d k = Some v -> In (k, v) d.
Proof.
  induction d as [|[k0 v0] d IH]; simpl; [discriminate|].
  destruct (decide (k0 = k)) as [->|]; [intros [= ->]; auto|auto].
Qed.

Lemma dict_set_Forall (P : K * V -> Prop) d k v :
  Forall P d -> P (k, v) -> Forall P (PyDict.set d k v).
Proof.
  induction d as [|[k0 v0] d IH]; simpl; intros Hd Hp.
  - repeat constructor. exact Hp.
  - inversion Hd; subst. destruct (decide (k0 = k)); constructor; auto.
Qed.

End dict_facts.

(** ** The parser *)

Section parser_facts.
Import Parser.

Lemma add_NoDup agg c :
  List.NoDup (PyDict.keys agg) -> List.NoDup (PyDict.keys (add agg c)).
Proof.
  intros Hnd. unfold add.
  destruct (_clean_name_fragment (fst c)); [assumption|].
  destruct (snd c <=? 0); [assumption|]. apply dict_NoDup_set, Hnd.
Qed.

Lemma add_agg_eq a1 a2 c : agg_eq a1 a2 -> agg_eq (add a1 c) (add a2 c).
Proof.
  intros Heq k. unfold add.
  destruct (_clean_name_fragment (fst c)) as [|x n]; [apply Heq|].
  destruct (snd c <=? 0); [apply Heq|].
  rewrite !dict_get_set, Heq.
  destruct (decide (Text.str (x :: n) = k)); [reflexivity|apply Heq].
Qed.

Lemma add_swap a c1 c2 : agg_eq (add (add a c1) c2) (add (add a c2) c1).
Proof.
  intros k. unfold add.
  destruct (_clean_name_fragment (fst c1)) as [|x1 n1];
  destruct (_clean_name_fragment (fst c2)) as [|x2 n2]; try reflexivity.
  destruct (snd c1 <=? 0), (snd c2 <=? 0); try reflexivity.
  rewrite !dict_get_set.
  destruct (decide (Text.str (x2 :: n2) = Text.str (x1 :: n1))) as [He|Hne].
  - rewrite He. destruct (decide (Text.str (x1 :: n1) = Text.str (x1 :: n1))); [|congruence].
    destruct (decide (Text.str (x1 :: n1) = k)); [|reflexivity].
    simpl. f_equal. lia.
  - destruct (decide (Text.str (x1 :: n1) = Text.str (x2 :: n2))); [congruence|].
    destruct (decide (Text.str (x2 :: n2) = k)), (decide (Text.str (x1 :: n1) = k));
      try reflexivity; congruence.
Qed.

Lemma fold_add_agg_eq cs a1 a2 :
  agg_eq a1 a2 -> agg_eq (fold_left add cs a1) (fold_left add cs a2).
Proof.
  revert a1 a2. induction cs as [|c cs IH]; simpl; intros a1 a2 Heq; [exact Heq|].
  apply IH, add_agg_eq, Heq.
Qed.

Lemma fold_add_perm cs1 cs2 a :
  Permutation cs1 cs2 -> agg_eq (fold_left add cs1 a) (fold_left add cs2 a).
Proof.
  intros Hp. revert a. induction Hp; intros a; simpl.
  - intros k; reflexivity.
  - apply IHHp.
  - apply fold_add_agg_eq, add_swap.
  - intros k. rewrite IHHp1. apply IHHp2.
Qed.

Lemma fold_add_NoDup cs a :
  List.NoDup (PyDict.keys a) -> List.NoDup (PyDict.keys (fold_left add cs a)).
Proof.
  revert a. induction cs as [|c cs IH]; simpl; intros a Hnd; [exact Hnd|].
  apply IH, add_NoDup, Hnd.
Qed.

Lemma lines_loop_all_calls ls agg :
  lines_loop agg ls =
  match all_calls ls with
  | Some cs => Some (fold_left add cs agg)
  | None => None
  end.
Proof.
  revert agg. induction ls as [|l ls IH]; simpl; intros agg; [reflexivity|].
  destruct (line_calls l) as [cs|]; simpl; [|reflexivity].
  rewrite IH. destruct (all_calls ls); [|reflexivity].
  rewrite fold_left_app. reflexivity.
Qed.

Lemma all_calls_perm ls1 ls2 :
  Permutation ls1 ls2 -> same_calls (all_calls ls1) (all_calls ls2).
Proof.
  induction 1 as [|l ls1 ls2 Hp IH|l1 l2 ls|ls1 ls2 ls3 Hp1 IH1 Hp2 IH2]; simpl.
  - constructor.
  - destruct (line_calls l); simpl;
      destruct (all_calls ls1), (all_calls ls2); simpl in *; try tauto.
    apply Permutation_app_head, IH.
  - destruct (line_calls l1), (line_calls l2), (all_calls ls); simpl; try tauto.
    rewrite !app_assoc. apply Permutation_app_tail, Permutation_app_comm.
  - destruct (all_calls ls1), (all_calls ls2), (all_calls ls3); simpl in *; try tauto.
    etransitivity; eassumption.
Qed.

Lemma parse_is_lines_loop raw :
  parse_input_lines raw = lines_loop [] (Re.split line_seps (Text.chars raw)).
Proof.
  unfold parse_input_lines. destruct (Text.chars raw); reflexivity.
Qed.

Lemma parse_perm raw1 raw2 :
  Permutation (raw_lines raw1) (raw_lines raw2) ->
  same_items (parse_input_lines raw1) (parse_input_lines raw2).
Proof.
  unfold raw_lines. intros Hp. rewrite !parse_is_lines_loop, !lines_loop_all_calls.
  pose proof (all_calls_perm _ _ Hp) as Hc.
  destruct (all_calls _) as [cs1|], (all_calls _) as [cs2|]; simpl in *; try tauto.
  apply dict_same_get_Permutation.
  - apply fold_add_NoDup. constructor.
  - apply fold_add_NoDup. constructor.
  - apply fold_add_perm, Hc.
Qed.

Lemma parse_keys_NoDup raw r :
  parse_input_lines raw = Some r -> List.NoDup (map fst r).
Proof.
  rewrite parse_is_lines_loop, lines_loop_all_calls.
  destruct (all_calls _) as [cs|]; [|discriminate]. intros [= <-].
  apply (fold_add_NoDup cs []). constructor.
Qed.

(** C3 (as amended).  The text ["34,250000"] is one numeric token with a
    thousands separator and no name, so it yields no pair; with a blank
    after the comma, ["34, 250000"], it yields the single pair
    [("34", 250000)]; ["Tritanium - 2.5m"] yields the single pair
    [("Tritanium", 2500000)]. *)
Theorem C3_parse_scenarios :
  parse_input_lines "34,250000" = Some []
  /\ parse_input_lines "34, 250000" = Some [("34"%string, 250000)]
  /\ parse_input_lines "Tritanium - 2.5m" = Some [("Tritanium"%string, 2500000)].
Proof. repeat split; vm_compute; reflexivity. Qed.

(** C3 as stated fails: ["34,250000"] does not parse to
    [("34", 250000)]. *)
Lemma C3_counterexample_comma_without_blank :
  ~ (parse_input_lines "34,250000" = Some [("34"%string, 250000)]
     /\ parse_input_lines "Tritanium - 2.5m" = Some [("Tritanium"%string, 2500000)]).
Proof. intros [H _]. vm_compute in H. discriminate H. Qed.

End parser_facts.

(** ** Exact operations of the decimal context *)

Lemma digits_aux_spec b : 2 <= b -> forall fuel n,
  0 < n -> n < 2 ^ Z.of_nat fuel ->
  1 <= Num.digits_aux b fuel n /\
  b ^ (Num.digits_aux b fuel n - 1) <= n < b ^ Num.digits_aux b fuel n.
Proof.
  intros Hb. induction fuel as [|f IH]; intros n Hn Hlt.
  - simpl in Hlt. lia.
  - cbn [Num.digits_aux]. destruct (Z.ltb_spec n b) as [Hnb|Hnb].
    + replace (1 - 1) with 0 by lia. rewrite Z.pow_0_r, Z.pow_1_r. lia.
    + assert (Hq : 0 < n / b) by (apply Z.div_str_pos; lia).
      assert (Hq2 : n / b < 2 ^ Z.of_nat f).
      { rewrite Nat2Z.inj_succ, Z.pow_succ_r in Hlt by lia.
        apply Z.div_lt_upper_bound; [lia|].
        assert (0 < 2 ^ Z.of_nat f) by (apply Z.pow_pos_nonneg; lia). nia. }
      destruct (IH (n / b) Hq Hq2) as (H1 & H2 & H3).
      set (k := Num.digits_aux b f (n / b)) in *.
      replace (1 + k - 1) with (Z.succ (k - 1)) by lia.
      replace (1 + k) with (Z.succ k) by lia.
      rewrite !Z.pow_succ_r by lia.
      pose proof (Z.div_mod n b ltac:(lia)) as Hdm.
      pose proof (Z.mod_pos_bound n b ltac:(lia)) as Hmod.
      split; [lia|]. split; nia.
Qed.

Lemma digits_spec b n : 2 <= b -> 0 < n ->
  1 <= Num.digits b n /\ b ^ (Num.digits b n - 1) <= n < b ^ Num.digits b n.
Proof.
  intros Hb Hn. unfold Num.digits. apply digits_aux_spec; [assumption..|].
  rewrite Nat2Z.inj_succ, Z2Nat.id by apply Z.log2_nonneg.
  apply Z.log2_spec, Hn.
Qed.

(** [b ^ ilog <= n / d], written without division. *)
Lemma ilog_le b n d : 2 <= b -> 0 < n -> 0 < d ->
  let l := Num.ilog b n d in
  (0 <= l -> b ^ l * d <= n) /\ (l < 0 -> d <= n * b ^ (- l)).
Proof.
  intros Hb Hn Hd. unfold Num.ilog.
  destruct (digits_spec b n Hb Hn) as (Ha1 & Ha2 & Ha3).
  destruct (digits_spec b d Hb Hd) as (Hb1 & Hb2 & Hb3).
  set (a := Num.digits b n) in *. set (c := Num.digits b d) in *.
  cbv zeta.
  destruct (Z.leb_spec 0 (a - c)) as [Hs|Hs].
  - destruct (Z.leb_spec (b ^ (a - c) * d) n) as [Ht|Ht]; [split; lia|].
    split; intros Hl.
    + (* b^(a-c-1) * d < b^(a-c-1) * b^c = b^(a-1) <= n *)
      assert (b ^ (a - c - 1) * b ^ c = b ^ (a - 1)).
      { rewrite <- Z.pow_add_r by lia. f_equal. lia. }
      assert (0 < b ^ (a - c - 1)) by (apply Z.pow_pos_nonneg; lia).
      nia.
    + assert (Hac : a = c) by lia.
      replace (- (a - c - 1)) with 1 by lia. rewrite Z.pow_1_r.
      assert (Hp : b ^ c = b * b ^ (a - 1)).
      { rewrite <- Z.pow_succ_r by lia. f_equal. lia. }
      nia.
  - destruct (Z.leb_spec d (n * b ^ (- (a - c)))) as [Ht|Ht]; [split; lia|].
    split; intros Hl; [lia|].
    assert (b ^ (a - 1) * b ^ (- (a - c - 1)) = b ^ c).
    { rewrite <- Z.pow_add_r by lia. f_equal. lia. }
    assert (0 < b ^ (- (a - c - 1))) by (apply Z.pow_pos_nonneg; lia).
    nia.
Qed.

Lemma div_half_even_exact q d : 0 < d -> Num.div_half_even (q * d) d = q.
Proof.
  intros Hd. unfold Num.div_half_even.
  rewrite Z.mod_mul, Z.div_mul by lia.
  replace (2 * 0) with 0 by lia.
  destruct (Z.compare_spec 0 d); lia.
Qed.

Lemma pow10_pos j : 0 <= j -> 0 < 10 ^ j.
Proof. intros. apply Z.pow_pos_nonneg; lia. Qed.

Lemma Zpos_to_pos_pow10 j : 0 <= j -> Zpos (Z.to_pos (10 ^ j)) = 10 ^ j.
Proof. intros. apply Z2Pos.id, pow10_pos; assumption. Qed.

Lemma dval_this c j : 0 <= j -> (this (dval c j) == c # Z.to_pos (10 ^ j))%Q.
Proof. intros. unfold dval. simpl. apply Qred_correct. Qed.

Lemma dval_cross c j : 0 <= j ->
  Qnum (this (dval c j)) * 10 ^ j = c * Zpos (Qden (this (dval c j))).
Proof.
  intros Hj. pose proof (dval_this c j Hj) as H. unfold Qeq in H. simpl in H.
  rewrite Zpos_to_pos_pow10 in H by assumption. exact H.
Qed.

Lemma Qc_eq_of_cross (x : Qc) (c j : Z) : 0 <= j ->
  Qnum (this x) * 10 ^ j = c * Zpos (Qden (this x)) -> x = dval c j.
Proof.
  intros Hj H. apply Qc_is_canon. rewrite dval_this by assumption.
  unfold Qeq. simpl. rewrite Zpos_to_pos_pow10 by assumption. exact H.
Qed.

Lemma round_sig_exact p emin c j :
  1 <= p -> 0 <= j -> emin <= - j -> Z.abs c < 10 ^ p ->
  Num.round_sig 10 p emin (dval c j) = dval c j.
Proof.
  intros Hp Hj Hemin Hc. unfold Num.round_sig.
  pose proof (dval_cross c j Hj) as Hx.
  set (x := dval c j) in *.
  set (n := Qnum (this x)) in *. set (d := Zpos (Qden (this x))) in *.
  assert (Hd : 0 < d) by (unfold d; lia).
  destruct (Z.eqb_spec n 0) as [Hn0|Hn0]; [reflexivity|].
  set (l := Num.ilog 10 (Z.abs n) d).
  pose proof (pow10_pos j Hj) as Hpj.
  assert (Habs : Z.abs n * 10 ^ j = Z.abs c * d).
  { assert (Hm : Z.abs (n * 10 ^ j) = Z.abs (c * d)) by congruence.
    rewrite !Z.abs_mul, (Z.abs_eq (10 ^ j)), (Z.abs_eq d) in Hm by lia. exact Hm. }
  assert (Hl : l <= p - 1 - j).
  { destruct (ilog_le 10 (Z.abs n) d ltac:(lia) ltac:(lia) Hd) as [H1 H2].
    fold l in H1, H2.
    destruct (Z_lt_le_dec (p - 1 - j) l) as [Hgt|]; [exfalso|lia].
    destruct (Z_lt_le_dec l 0) as [Hneg|Hpos].
    - specialize (H2 Hneg).
      (* d * 10^j <= |n| 10^j 10^-l = |c| d 10^-l < 10^p d 10^-l *)
      assert (Hle : 10 ^ p * 10 ^ (- l) <= 10 ^ j).
      { rewrite <- Z.pow_add_r by lia. apply Z.pow_le_mono_r; lia. }
      assert (0 < 10 ^ (- l)) by (apply pow10_pos; lia).
      assert (d * 10 ^ j <= Z.abs c * d * 10 ^ (- l)) by nia.
      assert (Z.abs c * 10 ^ (- l) < 10 ^ j) by nia.
      nia.
    - specialize (H1 Hpos).
      assert (Hle : 10 ^ p <= 10 ^ l * 10 ^ j).
      { rewrite <- Z.pow_add_r by lia. apply Z.pow_le_mono_r; lia. }
      assert (0 < 10 ^ l) by (apply pow10_pos; lia).
      nia. }
  set (e := Z.max (l - (p - 1)) emin).
  assert (He : e <= - j) by lia.
  unfold Num.scaled. destruct (Z.leb_spec e 0) as [_|]; [|lia].
  fold n d.
  assert (Hsplit : n * 10 ^ (- e) = (c * 10 ^ (- e - j)) * d).
  { replace (- e) with (j + (- e - j)) at 1 by lia.
    rewrite Z.pow_add_r by lia. nia. }
  rewrite Hsplit, div_half_even_exact by assumption.
  unfold Num.unscaled. subst x. apply Qc_eq_of_cross; [assumption|].
  destruct (Z.leb_spec 0 e) as [He0|He0].
  - assert (e = 0) by lia. assert (j = 0) by lia. subst j.
    replace e with 0 by lia. simpl. lia.
  - pose proof (Qred_correct (c * 10 ^ (- e - j) # Z.to_pos (10 ^ (- e)))) as Hr.
    unfold Qeq in Hr. cbn [Qnum Qden] in Hr.
    rewrite Zpos_to_pos_pow10 in Hr by lia.
    cbn [this Q2Qc].
    set (n' := Qnum (Qred _)) in *. set (d' := Zpos (Qden (Qred _))) in *.
    replace (- e) with (j + (- e - j)) in Hr at 1 by lia.
    rewrite Z.pow_add_r in Hr by lia.
    assert (0 < 10 ^ (- e - j)) by (apply pow10_pos; lia).
    nia.
Qed.

Lemma dval_eq_iff (x : Qc) c j : 0 <= j ->
  (this x == inject_Z c / inject_Z (10 ^ j))%Q -> x = dval c j.
Proof.
  intros Hj H. apply Qc_is_canon. rewrite dval_this, H by assumption.
  rewrite Qmake_Qdiv, Zpos_to_pos_pow10 by assumption. reflexivity.
Qed.

Lemma dval_Q c j : 0 <= j -> (this (dval c j) == inject_Z c / inject_Z (10 ^ j))%Q.
Proof.
  intros Hj. rewrite dval_this, Qmake_Qdiv, Zpos_to_pos_pow10 by assumption.
  reflexivity.
Qed.

Lemma inject_pow10_nz j : 0 <= j -> ~ (inject_Z (10 ^ j) == 0)%Q.
Proof.
  intros Hj H. pose proof (pow10_pos j Hj).
  unfold Qeq in H. simpl in H. lia.
Qed.

Lemma of_Z_dval n : Decimal.of_Z n = dval n 0.
Proof.
  apply dval_eq_iff; [lia|]. unfold Decimal.of_Z. simpl.
  unfold Qeq. simpl. lia.
Qed.

Lemma lit_dval c j : 0 <= j -> Decimal.lit c j = dval c j.
Proof.
  intros Hj. unfold Decimal.lit, Num.unscaled.
  destruct (Z.leb_spec 0 (- j)).
  - assert (j = 0) by lia. subst j. simpl. rewrite Z.mul_1_r. apply of_Z_dval.
  - rewrite Z.opp_involutive. reflexivity.
Qed.

Lemma dval_mul c1 j1 c2 j2 : 0 <= j1 -> 0 <= j2 ->
  (dval c1 j1 * dval c2 j2)%Qc = dval (c1 * c2) (j1 + j2).
Proof.
  intros H1 H2. apply dval_eq_iff; [lia|].
  cbn [this Qcmult Q2Qc]. rewrite Qred_correct, !dval_Q by assumption.
  rewrite Z.pow_add_r, !inject_Z_mult by assumption.
  field. split; apply inject_pow10_nz; assumption.
Qed.

Lemma dval_scale c j k : 0 <= j -> 0 <= k -> dval c j = dval (c * 10 ^ k) (j + k).
Proof.
  intros H1 H2. apply dval_eq_iff; [lia|]. rewrite dval_Q by assumption.
  rewrite Z.pow_add_r, !inject_Z_mult by assumption.
  field. split; apply inject_pow10_nz; assumption.
Qed.

Lemma dval_add c1 c2 j : 0 <= j -> (dval c1 j + dval c2 j)%Qc = dval (c1 + c2) j.
Proof.
  intros H1. apply dval_eq_iff; [lia|].
  cbn [this Qcplus Q2Qc]. rewrite Qred_correct, !dval_Q by assumption.
  rewrite inject_Z_plus. field. apply inject_pow10_nz; assumption.
Qed.

Lemma dval_sub c1 c2 j : 0 <= j -> (dval c1 j - dval c2 j)%Qc = dval (c1 - c2) j.
Proof.
  intros H1. apply dval_eq_iff; [lia|].
  unfold Qcminus. cbn [this Qcplus Qcopp Q2Qc].
  rewrite Qred_correct, Qred_correct, !dval_Q by assumption.
  unfold Z.sub. rewrite inject_Z_plus, inject_Z_opp. field.
  apply inject_pow10_nz; assumption.
Qed.

Lemma dval_div_pow10 c j k : 0 <= j -> 0 <= k ->
  (dval c j / dval (10 ^ k) 0)%Qc = dval c (j + k).
Proof.
  intros H1 H2. apply dval_eq_iff; [lia|].
  unfold Qcdiv. cbn [this Qcmult Qcinv Q2Qc].
  rewrite Qred_correct, Qred_correct, !dval_Q by lia.
  rewrite Z.pow_add_r, !inject_Z_mult by assumption.
  change (10 ^ 0) with 1. field.
  repeat split; try apply inject_pow10_nz; try assumption.
Qed.

Lemma fix_exact c j :
  0 <= j <= 1000026 -> Z.abs c < 10 ^ 28 -> Decimal.fix_ (dval c j) = dval c j.
Proof.
  intros Hj Hc. apply round_sig_exact; unfold Decimal.prec, Decimal.etiny; lia.
Qed.

Lemma ceil_dval c j : 0 <= j -> Decimal.ceil (dval c j) = - ((- c) / 10 ^ j).
Proof.
  intros Hj. unfold Decimal.ceil, Num.Qc_ceiling.
  rewrite (Qceiling_comp _ _ (dval_this c j Hj)).
  unfold Qceiling, Qfloor. simpl. rewrite Zpos_to_pos_pow10 by assumption.
  reflexivity.
Qed.

Lemma dval_div_exact q s m e : 0 <= e -> s <> 0 -> q * 10 ^ e = s * m ->
  (dval q 0 / dval s 0)%Qc = dval m e.
Proof.
  intros He Hs H. apply dval_eq_iff; [assumption|].
  unfold Qcdiv. cbn [this Qcmult Qcinv Q2Qc].
  rewrite Qred_correct, Qred_correct, !dval_Q by lia.
  change (10 ^ 0) with 1.
  assert (Hsz : ~ (inject_Z s == 0)%Q).
  { intros E. unfold Qeq in E. simpl in E. lia. }
  assert (Hq : (inject_Z q == inject_Z s * inject_Z m / inject_Z (10 ^ e))%Q).
  { apply Qmult_inj_r with (z := inject_Z (10 ^ e)); [apply inject_pow10_nz; assumption|].
    transitivity (inject_Z s * inject_Z m)%Q.
    - rewrite <- !inject_Z_mult, H. reflexivity.
    - field. apply inject_pow10_nz; assumption. }
  rewrite Hq. field. repeat split; try assumption; apply inject_pow10_nz; assumption.
Qed.

Lemma trunc_dval c j : 0 <= j -> 0 <= c ->
  Decimal.to_integral_down (dval c j) = c / 10 ^ j.
Proof.
  intros Hj Hc. unfold Decimal.to_integral_down, Num.Qc_trunc.
  pose proof (dval_cross c j Hj) as Hx.
  pose proof (pow10_pos j Hj) as Hp.
  assert (Hn : 0 <= Qnum (dval c j)) by nia.
  rewrite Z.quot_div_nonneg by lia.
  transitivity (Qfloor (this (dval c j))); [destruct (this (dval c j)); reflexivity|].
  rewrite (Qfloor_comp _ _ (dval_this c j Hj)).
  unfold Qfloor. simpl. rewrite Zpos_to_pos_pow10 by assumption. reflexivity.
Qed.

(** ** Efficiency bonus and the rate of scrap metal processing *)

Section rate_facts.
Import Helper.

Lemma me_factor_dval k d :
  0 <= d -> 0 <= k <= 100 * 10 ^ d -> 100 * 10 ^ d < 10 ^ 28 ->
  me_factor (Decimal.lit k d) = dval (100 * 10 ^ d - k) (d + 2).
Proof.
  intros Hd Hk Hb. unfold me_factor, Decimal.sub, Decimal.div.
  assert (Hd28 : d < 28).
  { apply (Z.pow_lt_mono_r_iff 10); [lia|lia|]. pose proof (pow10_pos d Hd). lia. }
  rewrite lit_dval, !of_Z_dval by assumption.
  rewrite (dval_scale 100 0 d) at 1 by lia. rewrite Z.add_0_l.
  rewrite dval_sub, fix_exact by lia.
  change (dval 100 0) with (dval (10 ^ 2) 0). rewrite dval_div_pow10 by lia.
  apply fix_exact; lia.
Qed.

Lemma eff_qty_exact base_q k d :
  0 <= d -> 0 <= k <= 100 * 10 ^ d -> 0 < base_q ->
  base_q * (100 * 10 ^ d) < 10 ^ 28 ->
  eff_qty base_q (Decimal.lit k d)
  = Qceiling (inject_Z base_q * ((100 - this (Decimal.lit k d)) / 100))%Q.
Proof.
  intros Hd Hk Hq Hb. unfold eff_qty, Decimal.mul.
  pose proof (pow10_pos d Hd) as Hp.
  rewrite me_factor_dval by nia.
  assert (Hd28 : d < 28).
  { apply (Z.pow_lt_mono_r_iff 10); [lia|lia|]. nia. }
  rewrite of_Z_dval, dval_mul, Z.add_0_l, fix_exact by (try lia; nia).
  unfold Decimal.ceil, Num.Qc_ceiling. apply Qceiling_comp.
  rewrite dval_Q, lit_dval, dval_Q by lia.
  rewrite Z.pow_add_r, !inject_Z_mult by lia. unfold Z.sub.
  rewrite inject_Z_plus, inject_Z_opp, inject_Z_mult.
  change (inject_Z (10 ^ 2)) with 100%Q. change (inject_Z 100) with 100%Q.
  field. apply inject_pow10_nz; assumption.
Qed.

(** C6.  For every dictionary of requirements with base quantities
    [>= 1] and every efficiency bonus between 0 and 100 written with [d]
    decimals (the bonus is quantized to three), within the 28 digits of
    the decimal context, [apply_me_to_requirements] gives every
    requirement, under its own type id and in place, the effective
    quantity [eff_qty], which is exactly
    [ceil(base_q * (100 - bonus) / 100)] and so never below the
    real-valued requirement. *)
Theorem C6_ceiling_efficiency (reqs : list (Z * Z)) (k d : Z)
    (Hd : 0 <= d) (Hk : 0 <= k <= 100 * 10 ^ d)
    (Hreqs : Forall (fun r => 0 < snd r /\ snd r * (100 * 10 ^ d) < 10 ^ 28) reqs) :
  let bonus := Decimal.lit k d in
  let exact (base_q : Z) := (inject_Z base_q * ((100 - this bonus) / 100))%Q in
  apply_me_to_requirements reqs bonus
    = map (fun r => (fst r, Qceiling (exact (snd r)))) reqs
  /\ Forall2 (fun r e => fst e = fst r
                          /\ snd e = eff_qty (snd r) bonus
                          /\ snd e = Qceiling (exact (snd r))
                          /\ (exact (snd r) <= inject_Z (snd e))%Q)
             reqs (apply_me_to_requirements reqs bonus).
Proof.
  cbv zeta. unfold apply_me_to_requirements.
  induction Hreqs as [|[tid base_q] reqs [Hq Hprec] _ [IH1 IH2]]; cbn [map]; [split; constructor|].
  pose proof (eff_qty_exact base_q k d Hd Hk Hq Hprec) as He. cbn [fst snd] in *.
  split; [rewrite He, IH1; reflexivity|].
  constructor; [|exact IH2]. cbn [fst snd].
  split; [reflexivity|]. split; [reflexivity|]. split; [exact He|].
  rewrite He. apply Qle_ceiling.
Qed.

(** Requirements of 100 and of 7 units under the bonus 2.640: 98 and 7
    units. *)
Lemma C6_ceiling_efficiency_witness :
  apply_me_to_requirements [(34, 100); (35, 7)] (Decimal.lit 2640 3) = [(34, 98); (35, 7)].
Proof.
  destruct (C6_ceiling_efficiency [(34, 100); (35, 7)] 2640 3) as [H _].
  - lia.
  - vm_compute. split; discriminate.
  - repeat constructor; vm_compute; reflexivity.
  - rewrite H. vm_compute. reflexivity.
Defined.

Lemma rescale_even_dval c j : 0 <= j ->
  Decimal.rescale Decimal.ROUND_HALF_EVEN j (dval c j) = c.
Proof.
  intros Hj. unfold Decimal.rescale, Num.scaled.
  destruct (Z.leb_spec (- j) 0); [|lia].
  rewrite Z.opp_involutive, dval_cross by assumption.
  apply div_half_even_exact. lia.
Qed.

Lemma quantize_even_dval c j : 0 <= j -> Z.abs c < 10 ^ 28 ->
  Decimal.quantize Decimal.ROUND_HALF_EVEN j (dval c j) = Some (dval c j).
Proof.
  intros Hj Hc. unfold Decimal.quantize. rewrite rescale_even_dval by assumption.
  unfold Decimal.prec. destruct (Z.leb_spec (10 ^ 28) (Z.abs c)); [lia|].
  rewrite lit_dval by assumption. reflexivity.
Qed.

Lemma dval_le c1 c2 j : 0 <= j -> Decimal.leb (dval c1 j) (dval c2 j) = (c1 <=? c2).
Proof.
  intros Hj. unfold Decimal.leb, Num.Qc_leb.
  pose proof (pow10_pos j Hj) as Hp.
  destruct (Z.leb_spec c1 c2) as [H|H].
  - apply Qle_bool_iff. rewrite !dval_this by assumption.
    unfold Qle. simpl. rewrite Zpos_to_pos_pow10 by assumption. nia.
  - apply not_true_is_false. intros Hle. apply Qle_bool_iff in Hle.
    rewrite !dval_this in Hle by assumption.
    unfold Qle in Hle. simpl in Hle. rewrite Zpos_to_pos_pow10 in Hle by assumption. nia.
Qed.

Lemma dval_lt c1 c2 j : 0 <= j -> Decimal.ltb (dval c1 j) (dval c2 j) = (c1 <? c2).
Proof.
  intros Hj. unfold Decimal.ltb, Num.Qc_ltb.
  change (Qle_bool (dval c2 j) (dval c1 j)) with (Decimal.leb (dval c2 j) (dval c1 j)).
  rewrite dval_le by assumption. rewrite Z.leb_antisym, negb_involutive. reflexivity.
Qed.

Lemma smp_rate_pct_exact l : Z.abs l <= 10 ^ 24 ->
  Views.smp_rate_pct l = Some (dval (Z.min (5000 + 100 * l) 5500) 2).
Proof.
  intros Hl. unfold Views.smp_rate_pct, Decimal.mul, Decimal.add.
  rewrite !of_Z_dval, !lit_dval by lia.
  rewrite dval_mul, fix_exact by (simpl; lia).
  rewrite (dval_scale 10 1 1) by lia.
  rewrite dval_add, fix_exact by (simpl; lia).
  rewrite dval_mul, fix_exact by (simpl; lia).
  rewrite quantize_even_dval by (simpl; lia).
  cbn [mbind option_bind]. f_equal.
  rewrite (dval_scale 55 0 2) by lia. rewrite dval_lt by (simpl; lia).
  simpl (0 + 2). simpl (1 + 1). simpl (0 + (1 + 1)).
  destruct (Z.ltb_spec (55 * 10 ^ 2) (50 * (10 * 10 ^ 1 + l * 2))) as [H|H];
    f_equal; simpl in *; lia.
Qed.

Lemma unrefined_refine_rate_exact l : Z.abs l <= 10 ^ 24 ->
  Views.unrefined_refine_rate l = Some (dval (Z.min (5000 + 100 * l) 5500) 4).
Proof.
  intros Hl. unfold Views.unrefined_refine_rate.
  rewrite smp_rate_pct_exact by assumption. cbn [mbind option_bind]. f_equal.
  unfold Decimal.div. rewrite of_Z_dval.
  change (dval 100 0) with (dval (10 ^ 2) 0).
  rewrite dval_div_pow10 by lia. apply fix_exact; simpl; lia.
Qed.

(** C10.  For a scrap metal processing level (the form admits 0 to 5; any
    level up to [10 ^ 24] in absolute value is covered) the unrefined
    refine rate is [min(50 * (1 + 0.02 * level), 55) / 100], hence at most
    0.55. *)
Theorem C10_unrefined_rate (level : Z) (Hlevel : Z.abs level <= 10 ^ 24) :
  exists r, Views.unrefined_refine_rate level = Some r
    /\ (this r == Qmin (50 * (1 + (2 # 100) * inject_Z level)) 55 / 100)%Q
    /\ (this r <= 55 # 100)%Q.
Proof.
  exists (dval (Z.min (5000 + 100 * level) 5500) 4).
  split; [apply unrefined_refine_rate_exact, Hlevel|].
  rewrite dval_Q by lia. change (inject_Z (10 ^ 4)) with 10000%Q.
  destruct (Z_le_gt_dec level 5) as [Hle|Hgt].
  - rewrite Z.min_l by lia. split.
    + rewrite Q.min_l.
      * rewrite inject_Z_plus, inject_Z_mult. change (inject_Z 5000) with 5000%Q.
        change (inject_Z 100) with 100%Q. field.
      * unfold Qle. simpl. lia.
    + unfold Qle, Qdiv, Qmult, Qinv. simpl. lia.
  - rewrite Z.min_r by lia. split.
    + rewrite Q.min_r; [reflexivity|]. unfold Qle. simpl. lia.
    + unfold Qle. simpl. lia.
Qed.

(** Level 5, where the cap applies. *)
Lemma C10_unrefined_rate_witness :
  exists r, Views.unrefined_refine_rate 5 = Some r /\ (this r <= 55 # 100)%Q.
Proof.
  destruct (C10_unrefined_rate 5) as (r & Hr & _ & Hle).
  - vm_compute. discriminate.
  - exists r. split; assumption.
Defined.

End rate_facts.

(** ** Capacity *)

Section capacity_facts.
Import Catalog Helper.

Lemma caps_all_fold stock tm reqs acc :
  fold_left
    (fun caps '(tid, need) =>
       if (need <=? 0) || is_fuel_id tm tid then caps
       else caps ++ [have stock tid / need]) reqs acc
  = acc ++ map (cap_of stock) (gating tm reqs).
Proof.
  revert acc. induction reqs as [|[tid need] reqs IH]; intros acc; simpl.
  - rewrite app_nil_r. reflexivity.
  - rewrite IH. rewrite Z.leb_antisym.
    destruct (0 <? need); simpl; [|reflexivity].
    destruct (is_fuel_id tm tid); simpl; [reflexivity|].
    rewrite <- app_assoc. reflexivity.
Qed.

Lemma runs_cap_spec stock reqs tm :
  Views.runs_cap stock reqs tm = capacity_spec stock reqs tm.
Proof.
  unfold Views.runs_cap, Views.caps_all, capacity_spec.
  rewrite caps_all_fold. reflexivity.
Qed.

Lemma present_caps_fold stock tm reqs caps b :
  fold_left
    (fun '(caps, have_any) '(tid, need) =>
       if need <=? 0 then (caps, have_any)
       else if is_fuel_id tm tid then (caps, have_any)
       else
         let h := have stock tid in
         if 0 <? h then (caps ++ [h / need], true) else (caps, have_any))
    reqs (caps, b)
  = let l := List.filter (fun r => 0 <? have stock (fst r)) (gating tm reqs) in
    (caps ++ map (cap_of stock) l, b || negb (bool_decide (l = []))).
Proof.
  revert caps b. induction reqs as [|[tid need] reqs IH]; intros caps b; simpl.
  - rewrite app_nil_r, orb_false_r. reflexivity.
  - rewrite Z.leb_antisym.
    destruct (0 <? need); simpl; [|apply IH].
    destruct (is_fuel_id tm tid); simpl; [apply IH|].
    destruct (0 <? have stock tid); simpl; [|apply IH].
    rewrite IH. cbv zeta. rewrite <- app_assoc. simpl. f_equal.
    rewrite orb_true_r. reflexivity.
Qed.

Lemma runcap_with_present_spec stock reqs tm :
  runcap_with_present stock reqs tm = present_spec stock reqs tm.
Proof.
  unfold runcap_with_present, present_caps, present_spec.
  rewrite present_caps_fold. cbv zeta. simpl.
  destruct (List.filter _ (gating tm reqs)); reflexivity.
Qed.

Lemma fold_min_le l : forall c x, In x (c :: l) -> fold_left Z.min l c <= x.
Proof.
  induction l as [|y l IH]; intros c x Hin; simpl in *.
  - destruct Hin as [->|[]]. lia.
  - destruct Hin as [->|[->|Hin]].
    + etransitivity; [apply (IH _ (Z.min x y)); left; reflexivity|lia].
    + etransitivity; [apply (IH _ (Z.min c x)); left; reflexivity|lia].
    + apply IH. right. exact Hin.
Qed.

Lemma min_or_zero_le l x : In x l -> min_or_zero l <= x.
Proof. destruct l; [intros []|]. apply fold_min_le. Qed.

Lemma gating_nonfuel tm reqs :
  gating tm (List.filter (fun r => negb (is_fuel_id tm (fst r))) reqs) = gating tm reqs.
Proof.
  unfold gating. induction reqs as [|r reqs IH]; simpl; [reflexivity|].
  destruct (is_fuel_id tm (fst r)) eqn:E; simpl.
  - rewrite andb_false_r. exact IH.
  - rewrite E. simpl. rewrite IH. reflexivity.
Qed.

Lemma cap_sound stock (c need : Z) tid :
  0 < need -> c <= have stock tid / need -> c * need <= have stock tid.
Proof.
  intros Hn Hc. pose proof (Z.mul_div_le (have stock tid) need Hn). nia.
Qed.

Lemma fold_min_In l : forall c, In (fold_left Z.min l c) (c :: l).
Proof.
  induction l as [|y l IH]; intros c; simpl; [auto|].
  destruct (IH (Z.min c y)) as [H|H]; [|auto].
  rewrite <- H. destruct (Z.min_spec c y) as [[_ ->]|[_ ->]]; auto.
Qed.

Lemma min_or_zero_In l : l <> [] -> In (min_or_zero l) l.
Proof. destruct l; [congruence|]. intros _. apply fold_min_In. Qed.

(** C1 (as amended).  The run capacity of a priced plan ([runs_cap]) is
    the minimum, over the requirements that are not fuel and have a
    positive per-run quantity, of [floor(ledger / quantity)] (an absent
    material counts 0); it is 0 when there is no such requirement; fuel
    requirements do not change it; and [runs * quantity <= ledger] for each
    of those requirements.  The capacity that the chain builder uses
    ([runcap_with_present]) is the same minimum taken over the requirements
    that the ledger holds in positive quantity only, and is sound for
    those. *)
Theorem C1_run_capacity (stock : ledger) (reqs : list (Z * Z)) (type_map : type_map_t) :
  Views.runs_cap stock reqs type_map = capacity_spec stock reqs type_map
  /\ (forall r, In r (gating type_map reqs) ->
        Views.runs_cap stock reqs type_map <= cap_of stock r)
  /\ (gating type_map reqs <> [] ->
        exists r, In r (gating type_map reqs)
                  /\ Views.runs_cap stock reqs type_map = cap_of stock r)
  /\ (gating type_map reqs = [] -> Views.runs_cap stock reqs type_map = 0)
  /\ Views.runs_cap stock reqs type_map
     = Views.runs_cap stock
         (List.filter (fun r => negb (is_fuel_id type_map (fst r))) reqs) type_map
  /\ (forall tid need, In (tid, need) reqs -> is_fuel_id type_map tid = false ->
        0 < need -> Views.runs_cap stock reqs type_map * need <= have stock tid)
  /\ runcap_with_present stock reqs type_map = present_spec stock reqs type_map
  /\ (forall tid need, In (tid, need) reqs -> is_fuel_id type_map tid = false ->
        0 < need -> 0 < have stock tid ->
        runcap_with_present stock reqs type_map * need <= have stock tid).
Proof.
  split; [apply runs_cap_spec|]. split; [|split; [|split; [|split; [|split; [|split]]]]].
  - intros r Hr. rewrite runs_cap_spec. apply min_or_zero_le, in_map, Hr.
  - intros Hne.
    assert (Hm : map (cap_of stock) (gating type_map reqs) <> [])
      by (destruct (gating type_map reqs); [congruence|discriminate]).
    pose proof (min_or_zero_In _ Hm) as Hin.
    apply in_map_iff in Hin as (r & Hr & Hin).
    exists r. split; [exact Hin|].
    rewrite runs_cap_spec. unfold capacity_spec. symmetry. exact Hr.
  - intros Hg. rewrite runs_cap_spec. unfold capacity_spec. rewrite Hg. reflexivity.
  - rewrite !runs_cap_spec. unfold capacity_spec. rewrite gating_nonfuel. reflexivity.
  - intros tid need Hin Hf Hn. apply cap_sound; [assumption|].
    rewrite runs_cap_spec. apply min_or_zero_le.
    apply (in_map (cap_of stock) _ (tid, need)).
    apply filter_In. split; [assumption|]. simpl. rewrite Hf.
    apply andb_true_intro. split; [apply Z.ltb_lt; assumption|reflexivity].
  - apply runcap_with_present_spec.
  - intros tid need Hin Hf Hn Hh. apply cap_sound; [assumption|].
    rewrite runcap_with_present_spec. apply min_or_zero_le.
    apply (in_map (cap_of stock) _ (tid, need)).
    apply filter_In. split; [|apply Z.ltb_lt; assumption].
    apply filter_In. split; [assumption|]. simpl. rewrite Hf.
    apply andb_true_intro. split; [apply Z.ltb_lt; assumption|reflexivity].
Qed.

(** A recipe whose second material is absent: no run. *)
Lemma C1_run_capacity_witness :
  Views.runs_cap {[ 1 := 100 ]} [(1, 10); (2, 5)] [] * 5 <= have {[ 1 := 100 ]} 2.
Proof.
  destruct (C1_run_capacity {[ 1 := 100 ]} [(1, 10); (2, 5)] [])
    as (_ & _ & _ & _ & _ & Hsound & _).
  apply Hsound.
  - simpl. auto.
  - reflexivity.
  - lia.
Defined.

(** C1 as stated fails for [runcap_with_present]: with 100 of material 1
    and none of material 2 it answers 10 runs of a recipe that needs 10 of
    material 1 and 5 of material 2, where the minimum over all gating
    requirements is 0 and 10 * 5 exceeds the ledger's 0. *)
Lemma C1_counterexample_absent_material :
  runcap_with_present {[ 1 := 100 ]} [(1, 10); (2, 5)] [] = 10
  /\ capacity_spec {[ 1 := 100 ]} [(1, 10); (2, 5)] [] = 0
  /\ ~ (runcap_with_present {[ 1 := 100 ]} [(1, 10); (2, 5)] [] * 5
        <= have {[ 1 := 100 ]} 2).
Proof.
  split; [vm_compute; reflexivity|]. split; [vm_compute; reflexivity|].
  vm_compute. intros H. apply H. reflexivity.
Qed.

End capacity_facts.

(** ** Categorization and the ledger of a request *)

Section categorize_facts.
Import Catalog Helper.

Lemma in_reaction_mat_ids db i :
  bool_decide (i ∈ reaction_mat_ids db)
  = existsb (fun rx => existsb (fun m => fst m =? i) (materials rx)) (reactions db).
Proof.
  unfold reaction_mat_ids. apply eq_true_iff_eq.
  rewrite bool_decide_eq_true, elem_of_list_to_set, list_elem_of_In, in_flat_map.
  rewrite existsb_exists. split.
  - intros (rx & Hrx & Hin). exists rx. split; [assumption|].
    apply in_map_iff in Hin. destruct Hin as (m & <- & Hm).
    apply existsb_exists. exists m. split; [assumption|apply Z.eqb_refl].
  - intros (rx & Hrx & Hex). exists rx. split; [assumption|].
    apply existsb_exists in Hex. destruct Hex as (m & Hm & Heq).
    apply Z.eqb_eq in Heq. subst i. apply in_map. assumption.
Qed.

Lemma in_has_materials db ids i : In i ids ->
  bool_decide (i ∈ has_materials db ids)
  = existsb (fun r => eve_type_id r =? i) (type_materials db).
Proof.
  intros Hi. unfold has_materials. apply eq_true_iff_eq.
  rewrite bool_decide_eq_true, elem_of_list_to_set, list_elem_of_In, filter_In.
  rewrite existsb_exists, in_map_iff. split.
  - intros ((r & <- & Hr) & _). exists r. split; [assumption|apply Z.eqb_refl].
  - intros (r & Hr & Heq). apply Z.eqb_eq in Heq. subst i. split; [eauto|].
    apply bool_decide_eq_true. apply list_elem_of_In. assumption.
Qed.

Lemma categorize_items_spec db items :
  categorize_items db items = flat_map (categorized db) items.
Proof.
  unfold categorize_items.
  set (ids := map (fun p => et_id (pl_evetype p)) items).
  assert (Hids : forall p, In p items -> In (et_id (pl_evetype p)) ids).
  { intros p Hp. unfold ids. apply (in_map (fun p => et_id (pl_evetype p))). exact Hp. }
  clearbody ids. induction items as [|p items IH]; simpl; [reflexivity|].
  rewrite IH by (intros q Hq; apply Hids; right; exact Hq). f_equal.
  unfold categorized, category_of.
  rewrite in_reaction_mat_ids, (in_has_materials db ids) by (apply Hids; left; reflexivity).
  destruct (is_fuel_name _); [reflexivity|].
  destruct (existsb _ (reactions db)); [reflexivity|].
  destruct (existsb _ (type_materials db)); reflexivity.
Qed.

Lemma have_insert (st : ledger) k v t :
  have (<[k := v]> st) t = if decide (k = t) then v else have st t.
Proof.
  unfold have. rewrite lookup_insert. destruct (decide (k = t)); reflexivity.
Qed.

Lemma add_unlisted_mono already resolved st extra t :
  have st t <= have (fst (fold_left (Views.add_line already) resolved (st, extra))) t.
Proof.
  revert st extra. induction resolved as [|pl resolved IH]; intros st extra; simpl; [lia|].
  destruct (Z.leb_spec (pl_quantity pl) 0); [apply IH|].
  destruct (bool_decide _); [apply IH|].
  etransitivity; [|apply IH]. rewrite have_insert.
  destruct (decide _) as [->|]; lia.
Qed.

Lemma add_unlisted_ge already resolved st extra p :
  In p resolved -> 0 < pl_quantity p -> et_id (pl_evetype p) ∉ already -> 0 <= have st (et_id (pl_evetype p)) ->
  pl_quantity p <= have (fst (fold_left (Views.add_line already) resolved (st, extra))) (et_id (pl_evetype p)).
Proof.
  revert st extra. induction resolved as [|pl resolved IH]; intros st extra Hin Hq Hnot H0; [destruct Hin|].
  destruct Hin as [->|Hin]; simpl.
  - destruct (Z.leb_spec (pl_quantity p) 0); [lia|].
    rewrite bool_decide_eq_false_2 by assumption.
    etransitivity; [|apply add_unlisted_mono]. rewrite have_insert.
    destruct (decide _); [lia|congruence].
  - destruct (Z.leb_spec (pl_quantity pl) 0); [apply IH; assumption|].
    destruct (bool_decide _); [apply IH; assumption|].
    apply IH; try assumption. rewrite have_insert.
    destruct (decide _) as [->|]; lia.
Qed.


Lemma unlisted_total_nonneg resolved t : 0 <= unlisted_total resolved t.
Proof.
  unfold unlisted_total. induction resolved as [|p resolved IH]; cbn [List.filter]; [simpl; lia|].
  destruct (Z.ltb_spec 0 (pl_quantity p)); [|exact IH].
  cbn [map supplied fold_right fst snd]. fold (supplied
    (map (fun p => (et_id (pl_evetype p), pl_quantity p))
         (List.filter (fun p => 0 <? pl_quantity p) resolved)) t).
  destruct (_ =? t); lia.
Qed.

Lemma unlisted_total_cons p resolved t :
  unlisted_total (p :: resolved) t
  = (if (0 <? pl_quantity p) && (et_id (pl_evetype p) =? t) then pl_quantity p else 0)
    + unlisted_total resolved t.
Proof.
  unfold unlisted_total. cbn [List.filter].
  destruct (0 <? pl_quantity p); cbn [andb]; [|lia].
  cbn [map supplied fold_right fst snd]. destruct (_ =? t); unfold supplied; lia.
Qed.

(** What the loop over [resolved] does to the ledger and to [extra_ids]. *)
Lemma add_unlisted_exact already resolved : forall st extra t,
  (t ∈ already ->
     fst (fold_left (Views.add_line already) resolved (st, extra)) !! t = st !! t
     /\ (t ∈ snd (fold_left (Views.add_line already) resolved (st, extra)) <-> t ∈ extra))
  /\ (t ∉ already ->
        have (fst (fold_left (Views.add_line already) resolved (st, extra))) t
        = have st t + unlisted_total resolved t
        /\ (t ∈ snd (fold_left (Views.add_line already) resolved (st, extra))
            <-> t ∈ extra \/ 0 < unlisted_total resolved t)
        /\ (t ∈ dom (fst (fold_left (Views.add_line already) resolved (st, extra)))
            <-> t ∈ dom st \/ 0 < unlisted_total resolved t)).
Proof.
  induction resolved as [|p resolved IH]; intros st extra t.
  { cbn [fold_left fst snd]. unfold unlisted_total. simpl.
    split; [tauto|]. intros _. split; [lia|]. split; (split; [tauto|intros [H|H]; [exact H|lia]]). }
  cbn [fold_left]. rewrite unlisted_total_cons.
  pose proof (unlisted_total_nonneg resolved t) as Hnn.
  unfold Views.add_line at 2 4 6 8 10.
  destruct (Z.leb_spec (pl_quantity p) 0) as [Hq|Hq].
  { destruct (Z.ltb_spec 0 (pl_quantity p)); [lia|]. cbn [andb]. rewrite Z.add_0_l. apply IH. }
  destruct (Z.ltb_spec 0 (pl_quantity p)); [|lia]. cbn [andb].
  destruct (bool_decide (et_id (pl_evetype p) ∈ already)) eqn:Eb.
  { apply bool_decide_eq_true in Eb.
    destruct (IH st extra t) as [H1 H2]. split; [exact H1|].
    intros Hn. destruct (Z.eqb_spec (et_id (pl_evetype p)) t) as [Heq|_];
      [subst t; contradiction|]. rewrite Z.add_0_l. apply H2, Hn. }
  apply bool_decide_eq_false in Eb.
  destruct (IH (<[et_id (pl_evetype p) := have st (et_id (pl_evetype p)) + pl_quantity p]> st)
               ({[et_id (pl_evetype p)]} ∪ extra) t) as [H1 H2].
  split.
  - intros Hin. destruct (H1 Hin) as [Ha Hb].
    assert (Hne : et_id (pl_evetype p) <> t) by (intros Heq; apply Eb; rewrite Heq; exact Hin).
    split; [rewrite Ha; apply lookup_insert_ne, Hne|].
    rewrite Hb, elem_of_union, elem_of_singleton.
    split; [intros [Hx|Hx]; [congruence|exact Hx]|auto].
  - intros Hn. destruct (H2 Hn) as (Ha & Hb & Hc). rewrite Ha, Hb, Hc, have_insert, dom_insert.
    rewrite !elem_of_union, !elem_of_singleton.
    destruct (Z.eqb_spec (et_id (pl_evetype p)) t) as [Heq|Hne].
    + destruct (decide (et_id (pl_evetype p) = t)); [|contradiction].
      split; [subst t; lia|]. split; (split; [intros _; right; lia|intros _; left; left; congruence]).
    + destruct (decide (et_id (pl_evetype p) = t)); [contradiction|].
      rewrite Z.add_0_l. split; [reflexivity|].
      split; (split; [intros [[Hx|Hx]|Hx]; [congruence|auto|auto]|intros [Hx|Hx]; auto]).
Qed.

(** C4 (as amended).  Categorization is first match first: fuel by name,
    else material when some reaction requires the item, else refine when a
    decomposition row exists; an item that matches none is left out of the
    categorized items, so it is neither refined nor part of the initial
    stock.  The request handler then goes through the resolved items: a
    type that is already a key of the initial stock keeps its entry and is
    not reported; every other type ends with exactly the sum of the
    positive quantities of its resolved items (absent when there is none),
    is a member of [extra_ids] exactly when that sum is positive, and is
    then listed among the unrefinables with the quantity of the ledger. *)
Theorem C4_categorization (db : DB) (resolved : list ParsedLine)
    (rate : Decimal.t) (urate : option Decimal.t) (type_map : type_map_t) :
  categorize_items db resolved = flat_map (categorized db) resolved
  /\ (forall l1 p l2, resolved = l1 ++ p :: l2 ->
        category_of db (pl_evetype p) = None ->
        categorize_items db resolved = categorize_items db (l1 ++ l2))
  /\ (forall p, In p resolved -> 0 < pl_quantity p ->
        et_id (pl_evetype p)
          ∉ dom (fst (build_initial_stock db (categorize_items db resolved) rate urate)) ->
        pl_quantity p
          <= have (Views.request_stock db resolved rate urate) (et_id (pl_evetype p)))
  /\ (let initial := fst (build_initial_stock db (categorize_items db resolved) rate urate) in
      let final := Views.request_stock db resolved rate urate in
      let extra_ids := Views.request_extra_ids db resolved rate urate in
      forall t,
        (t ∈ dom initial -> final !! t = initial !! t /\ t ∉ extra_ids)
        /\ (t ∉ dom initial ->
              have final t = unlisted_total resolved t
              /\ (t ∈ dom final <-> 0 < unlisted_total resolved t)
              /\ (t ∈ extra_ids <-> 0 < unlisted_total resolved t))
        /\ (forall name q,
              In (t, name, q) (Views.unrefinables type_map final extra_ids)
              <-> t ∈ extra_ids /\ q = have final t
                  /\ exists et, PyDict.get type_map t = Some et /\ name = et_name et)).
Proof.
  split; [apply categorize_items_spec|]. split; [|split].
  - intros l1 p l2 -> Hnone. rewrite !categorize_items_spec, !flat_map_app. simpl.
    unfold categorized at 2. rewrite Hnone. reflexivity.
  - intros p Hin Hq Hnot. unfold Views.request_stock.
    destruct (build_initial_stock db (categorize_items db resolved) rate urate)
      as [stock rows] eqn:E.
    simpl in Hnot. unfold Views.add_unlisted.
    apply add_unlisted_ge; try assumption.
    unfold have. apply not_elem_of_dom in Hnot. rewrite Hnot. simpl. lia.
  - cbv zeta. unfold Views.request_stock, Views.request_extra_ids, Views.add_unlisted.
    destruct (build_initial_stock db (categorize_items db resolved) rate urate)
      as [stock rows]. cbn [fst]. intros t.
    destruct (add_unlisted_exact (dom stock) resolved stock ∅ t) as [H1 H2].
    split; [|split].
    + intros Hin. destruct (H1 Hin) as [Ha Hb]. split; [exact Ha|].
      rewrite Hb. apply not_elem_of_empty.
    + intros Hn. destruct (H2 Hn) as (Ha & Hb & Hc).
      assert (H0 : have stock t = 0).
      { unfold have. apply not_elem_of_dom in Hn. rewrite Hn. reflexivity. }
      split; [rewrite Ha, H0; lia|]. split.
      * rewrite Hc. split; [intros [H|H]; [contradiction|exact H]|auto].
      * rewrite Hb. split; [intros [H|H]; [destruct (not_elem_of_empty _ H)|exact H]|auto].
    + intros name q. unfold Views.unrefinables. rewrite in_flat_map. split.
      * intros (tid & Htid & Hrow). apply list_elem_of_In, elem_of_elements in Htid.
        destruct (PyDict.get type_map tid) as [et|] eqn:Eg; [|destruct Hrow].
        destruct Hrow as [Hrow|[]]. injection Hrow as <- <- <-. eauto.
      * intros (Hin & -> & et & Eg & ->). exists t. split.
        -- apply list_elem_of_In, elem_of_elements, Hin.
        -- rewrite Eg. left. reflexivity.
Qed.

(** Five units of an item that no rule knows. *)
Lemma C4_categorization_witness :
  5 <= have (Views.request_stock Demo.no_rules [Demo.five_widgets] (Decimal.lit 8 1) None) 9.
Proof.
  destruct (C4_categorization Demo.no_rules [Demo.five_widgets] (Decimal.lit 8 1) None [])
    as (_ & _ & Hledger & _).
  apply (Hledger Demo.five_widgets).
  - simpl. auto.
  - simpl. lia.
  - vm_compute. intros H. inversion H.
Defined.

(** C4 as stated fails: an item that is neither fuel nor material nor
    refinable is dropped by the categorizer, yet the ledger of the request
    holds its 5 units. *)
Lemma C4_counterexample_unlisted_item_in_ledger :
  category_of Demo.no_rules Demo.widget = None
  /\ categorize_items Demo.no_rules [Demo.five_widgets] = []
  /\ Views.request_stock Demo.no_rules [Demo.five_widgets] (Decimal.lit 8 1) None !! 9
     = Some 5.
Proof. repeat split; vm_compute; reflexivity. Qed.

(** ** Refining *)

Lemma refine_yields_positive mats q portion rate : forall refined : PyDict.t Z Z,
  Forall (fun kv => 0 < snd kv) refined ->
  Forall (fun kv => 0 < snd kv)
    (fold_left
       (fun (refined : PyDict.t Z Z) (m : Z * Z) =>
          let produced := refine_units (snd m) q portion rate in
          if produced <=? 0 then refined
          else PyDict.set refined (fst m)
                 (default 0 (PyDict.get refined (fst m)) + produced))
       mats refined).
Proof.
  induction mats as [|m ms IH]; intros refined Hr; simpl; [exact Hr|].
  apply IH. destruct (Z.leb_spec (refine_units (snd m) q portion rate) 0); [exact Hr|].
  apply dict_set_Forall; [exact Hr|]. simpl.
  destruct (PyDict.get refined (fst m)) as [v|] eqn:E; simpl; [|lia].
  apply dict_get_In_weak in E. rewrite List.Forall_forall in Hr.
  specialize (Hr _ E). simpl in Hr. lia.
Qed.

Lemma refine_from_inputs_positive db items rate urate :
  Forall (fun kv => 0 < snd kv) (fst (refine_from_inputs db items rate urate)).
Proof.
  unfold refine_from_inputs. cbn [fst].
  generalize (material_totals db
    (map (fun p => et_id (evetype p))
       (List.filter (fun p => category_eqb (item_category p) refine) items))).
  intros rows.
  assert (H : Forall (fun kv : Z * Z => 0 < snd kv) []) by constructor.
  revert H. generalize (@nil (Z * Z)).
  induction (List.filter _ items) as [|p ps IH]; intros acc Hacc; simpl; [exact Hacc|].
  apply IH. apply refine_yields_positive. exact Hacc.
Qed.

Lemma refine_units_exact p q s k d m e :
  0 < s -> 0 <= q -> 0 <= p -> 0 <= k -> 0 <= d <= 28 -> 0 <= e <= 28 ->
  q * 10 ^ e = s * m ->
  m < 10 ^ 28 -> p * m < 10 ^ 28 -> p * m * k < 10 ^ 28 ->
  refine_units p q (Some s) (Decimal.lit k d)
  = Qfloor (inject_Z p * (inject_Z q / inject_Z s) * this (Decimal.lit k d)).
Proof.
  intros Hs Hq Hp Hk Hd He H Hm Hpm Hpmk.
  assert (Hm0 : 0 <= m).
  { pose proof (pow10_pos e ltac:(lia)). nia. }
  unfold refine_units, portion_of.
  destruct (Z.eqb_spec s 0) as [?|_]; [lia|].
  rewrite !of_Z_dval, lit_dval by lia.
  change Decimal.zero with (Decimal.of_Z 0). rewrite of_Z_dval.
  rewrite dval_lt by lia.
  destruct (Z.ltb_spec 0 s) as [_|?]; [|lia].
  unfold Decimal.div, Decimal.mul.
  rewrite (dval_div_exact q s m e) by lia.
  rewrite fix_exact by lia.
  rewrite dval_mul, fix_exact by (try lia; nia).
  rewrite dval_mul, fix_exact by (try lia; nia).
  rewrite trunc_dval by (try lia; nia).
  symmetry.
  assert (Hx : (inject_Z p * (inject_Z q / inject_Z s) * this (dval k d)
                == p * m * k # Z.to_pos (10 ^ (0 + e + d)))%Q).
  { rewrite dval_Q, Qmake_Qdiv, Zpos_to_pos_pow10 by lia.
    assert (Hsz : ~ (inject_Z s == 0)%Q).
    { intros E. unfold Qeq in E. simpl in E. lia. }
    assert (Hq' : (inject_Z q == inject_Z s * inject_Z m / inject_Z (10 ^ e))%Q).
    { apply Qmult_inj_r with (z := inject_Z (10 ^ e)); [apply inject_pow10_nz; lia|].
      transitivity (inject_Z s * inject_Z m)%Q.
      - rewrite <- !inject_Z_mult, H. reflexivity.
      - field. apply inject_pow10_nz; lia. }
    rewrite Hq'. rewrite !Z.pow_add_r, !inject_Z_mult by lia.
    change (10 ^ 0) with 1. field.
    repeat split; try assumption; apply inject_pow10_nz; lia. }
  rewrite (Qfloor_comp _ _ Hx). unfold Qfloor. simpl.
  rewrite Zpos_to_pos_pow10 by lia. reflexivity.
Qed.

(** C5.  At the failing input, one unit of an item with portion size 3
    and 30 units of a material per portion, refined at the rate 0.8, the
    quotient 1/3 is rounded to 28 digits before it is multiplied, the
    product is 7.999..., and the yield is 7, where
    [floor(30 * (1/3) * 0.8)] is 8.  The yields that are kept are positive
    on every input, and a yield is [floor(per_portion * (q / s) * rate)]
    whenever [q / s] is a decimal fraction [m / 10 ^ e] and the products
    stay within the 28 digits of the context. *)
Theorem C5_refine_yield :
  fst (refine_from_inputs Demo.ore_db [Demo.one_ore] (Decimal.lit 8 1) None) = [(2, 7)]
  /\ Qfloor (inject_Z 30 * (inject_Z 1 / inject_Z 3) * (8 # 10)) = 8
  /\ (forall db items rate urate,
        Forall (fun kv => 0 < snd kv) (fst (refine_from_inputs db items rate urate)))
  /\ (forall p q s k d m e,
        0 < s -> 0 <= q -> 0 <= p -> 0 <= k -> 0 <= d <= 28 -> 0 <= e <= 28 ->
        q * 10 ^ e = s * m ->
        m < 10 ^ 28 -> p * m < 10 ^ 28 -> p * m * k < 10 ^ 28 ->
        refine_units p q (Some s) (Decimal.lit k d)
        = Qfloor (inject_Z p * (inject_Z q / inject_Z s) * this (Decimal.lit k d))).
Proof.
  split; [vm_compute; reflexivity|]. split; [vm_compute; reflexivity|].
  split; [apply refine_from_inputs_positive|apply refine_units_exact].
Qed.

(** 250 units in portions of 100, 30 units per portion, at 0.8: 60 units. *)
Lemma C5_refine_yield_witness :
  refine_units 30 250 (Some 100) (Decimal.lit 8 1)
  = Qfloor (inject_Z 30 * (inject_Z 250 / inject_Z 100) * this (Decimal.lit 8 1)).
Proof.
  destruct C5_refine_yield as (_ & _ & _ & H).
  apply (H 30 250 100 8 1 25 1); vm_compute; try reflexivity;
    try (split; discriminate); discriminate.
Defined.

End categorize_facts.

(** ** The price lookup *)

Section pricing_facts.
Import Pricing.

Lemma fetch_prices_total w item_id : exists r, _fetch_prices w item_id = Ok r.
Proof.
  unfold _fetch_prices. destruct (item_id <=? 0); [eauto|].
  destruct (fetch_try w item_id) as [vars [e|]]; simpl; eauto.
Qed.

Lemma fetch_prices_failed w item_id :
  request_failed w item_id -> _fetch_prices w item_id = Ok zero_row.
Proof.
  unfold request_failed, _fetch_prices, fetch_try. intros H.
  destruct (item_id <=? 0); [reflexivity|].
  destruct (method_is_janice w && janice_key_valid w);
    destruct H as [-> | [-> | [-> | ->]]]; reflexivity.
Qed.

Lemma price_input_total w tid b : exists d, price_input w tid b = Ok d.
Proof.
  unfold price_input. destruct (resolve_price_value w tid b); simpl; eauto.
Qed.

Lemma or_zero_id x : or_zero x = x.
Proof.
  unfold or_zero, Decimal.eqb. destruct (Qeq_bool x Decimal.zero) eqn:E; [|reflexivity].
  symmetry. apply Qc_is_canon, Qeq_bool_iff, E.
Qed.

Lemma price_of_miss w tid b :
  rows w !! tid = None -> 0 < tid ->
  get_fails w tid = false -> create_fails w tid = false ->
  price_input w tid b = Ok (default Decimal.zero (served w tid b)).
Proof.
  intros Hmiss Hpos Hget Hcreate.
  unfold price_input, resolve_price_value, get_or_create_prices, _fetch_prices,
    fetch_try, served.
  rewrite Hget, Hmiss, Hcreate.
  destruct (Z.leb_spec tid 0) as [?|_]; [lia|].
  destruct (method_is_janice w && janice_key_valid w);
    [destruct (janice w tid) as [| | | |fb fs fba fsa]
    |destruct (fuzzwork w tid) as [| | | |fb fs fba fsa]];
    try (destruct b, (price_instant w); reflexivity);
    destruct fb as [vb| |]; try (destruct b, (price_instant w); reflexivity);
    destruct fs as [vs| |]; try (destruct b, (price_instant w); simpl; rewrite ?or_zero_id; reflexivity);
    destruct fba as [vba| |]; try (destruct b, (price_instant w); simpl; rewrite ?or_zero_id; reflexivity);
    destruct fsa as [vsa| |]; destruct b, (price_instant w); simpl; rewrite ?or_zero_id; reflexivity.
Qed.

Lemma resolve_price_value_raises w tid b :
  (exists e, resolve_price_value w tid b = Raise e)
  <-> (get_fails w tid = true \/ (rows w !! tid = None /\ create_fails w tid = true)).
Proof.
  unfold resolve_price_value, get_or_create_prices.
  destruct (get_fails w tid).
  { split; [intros _; left; reflexivity|intros _; eauto]. }
  destruct (rows w !! tid) as [row|].
  { split; [intros [e He]; discriminate He|intros [H|[H _]]; discriminate H]. }
  destruct (tid <=? 0).
  - destruct (create_fails w tid).
    + split; [intros _; right; split; reflexivity|intros _; eauto].
    + split; [intros [e He]; discriminate He|intros [H|[_ H]]; discriminate H].
  - destruct (fetch_prices_total w tid) as [r ->].
    destruct (create_fails w tid).
    + split; [intros _; right; split; reflexivity|intros _; eauto].
    + split; [intros [e He]; discriminate He|intros [H|[_ H]]; discriminate H].
Qed.

Lemma fetch_prices_keeps w tid :
  0 < tid -> _fetch_prices w tid = Ok (fst (fetch_try w tid)).
Proof.
  intros Hpos. unfold _fetch_prices. destruct (Z.leb_spec tid 0) as [?|_]; [lia|].
  destruct (fetch_try w tid) as [vars [e|]]; reflexivity.
Qed.

(** C7 (as amended).  For every item id and basis the price lookup of the
    planner, [price_input] and [price_output], returns a decimal and never
    raises; it returns 0 whenever the wrapped lookup raises.
    [_fetch_prices] itself never raises: whatever exception leaves its
    [try] block, it returns the values read up to there, which are all 0
    when the request fails (no connection, an error status, an answer that
    is not JSON, no entry for the item); so on a miss of the price table a
    failed request gives the price 0, and in general the price on a miss
    is the one read from the answer for the basis asked, and 0 only when
    the reading did not get that far.  [resolve_price_value], which the
    request handler also calls without a handler, raises exactly when the
    price table cannot be read, or cannot be written on a miss, whatever
    the service answers. *)
Theorem C7_price_lookup_never_raises (w : World) (tid : Z) (b : basis) :
  (exists d, price_input w tid b = Ok d /\ price_output w tid b = Ok d)
  /\ (forall e, resolve_price_value w tid b = Raise e ->
        price_input w tid b = Ok Decimal.zero)
  /\ (exists r, _fetch_prices w tid = Ok r)
  /\ (0 < tid -> _fetch_prices w tid = Ok (fst (fetch_try w tid)))
  /\ (request_failed w tid -> _fetch_prices w tid = Ok zero_row)
  /\ (rows w !! tid = None -> request_failed w tid ->
        price_input w tid b = Ok Decimal.zero)
  /\ (rows w !! tid = None -> 0 < tid ->
        get_fails w tid = false -> create_fails w tid = false ->
        price_input w tid b = Ok (default Decimal.zero (served w tid b)))
  /\ ((exists e, resolve_price_value w tid b = Raise e)
      <-> (get_fails w tid = true
           \/ (rows w !! tid = None /\ create_fails w tid = true))).
Proof.
  split; [|split; [|split; [|split; [|split; [|split; [|split;
    [apply price_of_miss|apply resolve_price_value_raises]]]]]]].
  - destruct (price_input_total w tid b) as [d Hd]. exists d. split; [exact Hd|exact Hd].
  - intros e He. unfold price_input. rewrite He. reflexivity.
  - apply fetch_prices_total.
  - apply fetch_prices_keeps.
  - apply fetch_prices_failed.
  - intros Hmiss Hfail. unfold price_input, resolve_price_value, get_or_create_prices.
    destruct (get_fails w tid); [reflexivity|]. rewrite Hmiss.
    destruct (tid <=? 0).
    + destruct (create_fails w tid); [reflexivity|]. simpl.
      destruct b, (price_instant w); reflexivity.
    + rewrite fetch_prices_failed by assumption.
      destruct (create_fails w tid); [reflexivity|]. simpl.
      destruct b, (price_instant w); reflexivity.
Qed.

(** A price service that cannot be reached. *)
Lemma C7_price_lookup_witness : price_input Demo.offline 34 buy = Ok Decimal.zero.
Proof.
  destruct (C7_price_lookup_never_raises Demo.offline 34 buy) as (_ & _ & _ & _ & _ & H & _).
  apply H.
  - reflexivity.
  - left. reflexivity.
Defined.

(** C7 as stated fails.  The answer for item 34 carries a buy price of
    5.50 and no sell price: reading the sell price raises [KeyError] inside
    [_fetch_prices], so the fetch fails, yet the lookup returns 5.50 and
    not 0.  And a price table that cannot be read makes
    [resolve_price_value], which the request handler calls without a
    handler for its direct inputs, raise. *)
Lemma C7_counterexample_partial_read :
  snd (fetch_try Demo.partial 34) = Some KeyError
  /\ price_input Demo.partial 34 buy = Ok (Decimal.lit 550 2)
  /\ price_input Demo.partial 34 buy <> Ok Decimal.zero
  /\ resolve_price_value Demo.table_down 34 buy = Raise DatabaseError.
Proof.
  split; [reflexivity|]. split; [vm_compute; reflexivity|]. split; [|reflexivity].
  intros H. vm_compute in H. discriminate H.
Qed.

End pricing_facts.

(** ** The ledger and the profit of a chain *)

#[local] Arguments Chain.credit : simpl never.
#[local] Arguments Chain.deduct : simpl never.
#[local] Arguments Helper.add_supply : simpl never.

Section chain_facts.
Import Catalog Helper Chain.
Context (cfg : settings) (db : DB).

Lemma nonneg_insert (l : ledger) k v : nonneg l -> 0 <= v -> nonneg (<[k := v]> l).
Proof.
  intros Hl Hv t q. rewrite lookup_insert. destruct (decide (k = t)).
  - intros [= <-]. exact Hv.
  - apply Hl.
Qed.

Lemma nonneg_have (l : ledger) t : nonneg l -> 0 <= have l t.
Proof.
  intros Hl. unfold have. destruct (l !! t) as [q|] eqn:E; simpl; [eapply Hl, E|lia].
Qed.

Lemma nonneg_empty : nonneg ∅.
Proof. intros t q H. rewrite lookup_empty in H. discriminate. Qed.

Lemma build_initial_stock_nonneg items rate urate :
  Forall (fun p => 0 <= item_quantity p) items ->
  nonneg (fst (build_initial_stock db items rate urate)).
Proof.
  intros Hq. unfold build_initial_stock.
  pose proof (refine_from_inputs_positive db items rate urate) as Hpos.
  destruct (refine_from_inputs db items rate urate) as [refined rows]. cbn [fst] in *.
  assert (H1 : nonneg (fold_left (fun (st : ledger) (r : Z * Z) =>
                         <[fst r := have st (fst r) + snd r]> st) refined ∅)).
  { generalize nonneg_empty. generalize (∅ : ledger).
    induction refined as [|r rs IH]; intros st Hst; simpl; [exact Hst|].
    inversion Hpos; subst. apply IH; [assumption|].
    apply nonneg_insert; [assumption|]. pose proof (nonneg_have _ (fst r) Hst). lia. }
  revert H1. generalize (fold_left (fun (st : ledger) (r : Z * Z) =>
                         <[fst r := have st (fst r) + snd r]> st) refined ∅).
  induction items as [|p ps IH]; intros st Hst; simpl; [exact Hst|].
  inversion Hq; subst. apply IH; [assumption|].
  destruct (item_category p); try assumption;
    apply nonneg_insert; try assumption;
    pose proof (nonneg_have _ (et_id (evetype p)) Hst); lia.
Qed.

Lemma categorize_items_quantities resolved :
  Forall (fun p => 0 <= pl_quantity p) resolved ->
  Forall (fun p => 0 <= item_quantity p) (categorize_items db resolved).
Proof.
  intros H. unfold categorize_items.
  generalize (has_materials db (map (fun p => et_id (pl_evetype p)) resolved)).
  intros hm. induction H as [|p ps Hp Hps IH]; simpl; [constructor|].
  apply Forall_app. split; [|exact IH].
  destruct (is_fuel_name _); [repeat constructor; exact Hp|].
  destruct (bool_decide _); [repeat constructor; exact Hp|].
  destruct (bool_decide _); [repeat constructor; exact Hp|constructor].
Qed.

Lemma add_unlisted_nonneg already resolved : forall st extra,
  nonneg st -> nonneg (fst (fold_left (Views.add_line already) resolved (st, extra))).
Proof.
  induction resolved as [|pl ps IH]; intros st extra Hst; simpl; [exact Hst|].
  destruct (Z.leb_spec (pl_quantity pl) 0); [apply IH, Hst|].
  destruct (bool_decide _); [apply IH, Hst|].
  apply IH. apply nonneg_insert; [assumption|].
  pose proof (nonneg_have _ (et_id (pl_evetype pl)) Hst). lia.
Qed.

Lemma request_stock_nonneg resolved rate urate :
  Forall (fun p => 0 <= pl_quantity p) resolved ->
  nonneg (Views.request_stock db resolved rate urate).
Proof.
  intros Hq. unfold Views.request_stock.
  pose proof (build_initial_stock_nonneg (categorize_items db resolved) rate urate
                (categorize_items_quantities resolved Hq)) as Hn.
  destruct (build_initial_stock _ _ _ _) as [stock rows]. cbn [fst] in Hn.
  unfold Views.add_unlisted. apply add_unlisted_nonneg, Hn.
Qed.

Lemma consume_one_nonneg tm r tr a req a' :
  consume_one cfg tm r tr a req = Some a' -> nonneg (acc_stock a) -> nonneg (acc_stock a').
Proof.
  unfold consume_one. destruct req as [tid need].
  destruct (PyDict.get tm tid) as [et|]; [|intros [= <-]; auto].
  intros H Hn.
  destruct (if Z.min _ _ =? 0 then _ else _) as [supply'|]; [|discriminate].
  cbn [mbind option_bind] in H.
  destruct (if _ && _ && _ then _ else _) as [u|]; [|discriminate].
  cbn [mbind option_bind] in H. injection H as <-. simpl.
  apply nonneg_insert; [assumption|lia].
Qed.

Lemma consume_all_nonneg tm r tr reqs : forall a a',
  consume_all cfg tm r tr a reqs = Some a' -> nonneg (acc_stock a) -> nonneg (acc_stock a').
Proof.
  induction reqs as [|req reqs IH]; simpl; intros a a' H Hn.
  - injection H as <-. exact Hn.
  - destruct (consume_one cfg tm r tr a req) as [a1|] eqn:E; [|discriminate].
    cbn [mbind option_bind] in H.
    eapply IH; [exact H|]. eapply consume_one_nonneg; eassumption.
Qed.

Lemma produce_one_nonneg tm r tr o prod :
  0 <= snd prod * r -> nonneg (out_stock o) ->
  nonneg (out_stock (produce_one cfg tm r tr o prod)).
Proof.
  unfold produce_one. destruct prod as [tid q]. simpl. intros Hq Hn.
  destruct (PyDict.get tm tid); [|assumption]. simpl.
  apply nonneg_insert; [assumption|]. pose proof (nonneg_have _ tid Hn). lia.
Qed.

Lemma produce_all_nonneg tm r tr prods : forall o,
  Forall (fun pr => 0 <= snd pr * r) prods -> nonneg (out_stock o) ->
  nonneg (out_stock (fold_left (produce_one cfg tm r tr) prods o)).
Proof.
  induction prods as [|pr prods IH]; simpl; intros o Hf Hn; [assumption|].
  inversion Hf; subst. apply IH; [assumption|]. apply produce_one_nonneg; assumption.
Qed.

Lemma build_step_nonneg tm p r cur cum supply st cur' cum' :
  build_step cfg tm p r cur cum supply = Some (st, cur', cum') ->
  0 <= r -> Forall (fun pr => 0 <= snd pr) (per_run_products p) ->
  nonneg cur -> nonneg cur'.
Proof.
  unfold build_step. intros H Hr Hp Hn.
  destruct (consume_all _ _ _ _ _ _) as [a|] eqn:E; [|discriminate].
  cbn [mbind option_bind] in H.
  destruct (use_buyback cfg && _); [discriminate|]. injection H as _ <- _.
  apply produce_all_nonneg.
  - eapply Forall_impl; [|exact Hp]. simpl. intros pr Hq. nia.
  - simpl. eapply consume_all_nonneg; [exact E|exact Hn].
Qed.

Lemma deduct_nonneg used : forall cur, nonneg cur -> nonneg (deduct cur used).
Proof.
  unfold deduct. induction used as [|[t q] used IH]; simpl; intros cur Hn; [assumption|].
  apply IH, nonneg_insert; [assumption|lia].
Qed.

Lemma credit_nonneg added : forall cur,
  Forall (fun kv => 0 <= snd kv) added -> nonneg cur -> nonneg (credit cur added).
Proof.
  unfold credit. induction added as [|[t q] added IH]; simpl; intros cur Hf Hn; [assumption|].
  inversion Hf; subst. apply IH; [assumption|]. apply nonneg_insert; [assumption|].
  pose proof (nonneg_have _ t Hn). simpl in *. lia.
Qed.

Lemma reprocess_yields_positive mats qty portion rate : forall add,
  Forall (fun kv => 0 < snd kv) add ->
  Forall (fun kv => 0 < snd kv) (reprocess_yields mats qty portion rate add).
Proof.
  unfold reprocess_yields. induction mats as [|m ms IH]; intros add Ha; simpl; [exact Ha|].
  apply IH. destruct (Z.ltb_spec 0 (refine_units (snd m) qty portion rate)); [|exact Ha].
  apply dict_set_Forall; [exact Ha|]. simpl.
  destruct (PyDict.get add (fst m)) as [v|] eqn:E; simpl; [|lia].
  apply dict_get_In_weak in E. rewrite Forall_forall in Ha.
  specialize (Ha _ E). simpl in Ha. lia.
Qed.

Lemma reprocess_loop_positive rows produced rate ids : forall st,
  Forall (fun kv => 0 < snd kv) (fst st) ->
  Forall (fun kv => 0 < snd kv)
    (fst (fold_left (reprocess_one db rows produced rate) ids st)).
Proof.
  induction ids as [|i ids IH]; intros [a0 u0] Ha; simpl; [exact Ha|].
  apply IH. destruct (default 0 (PyDict.get produced i) <=? 0); [exact Ha|].
  simpl. apply reprocess_yields_positive. exact Ha.
Qed.

Lemma reprocess_add_positive produced rate tm add used tm' :
  reprocess_unrefined_in_stock db produced rate tm = (add, used, tm') ->
  Forall (fun kv => 0 < snd kv) add.
Proof.
  unfold reprocess_unrefined_in_stock.
  destruct (List.filter _ (PyDict.keys produced)) as [|u us]; [intros [= <- _ _]; constructor|].
  intros H. apply (f_equal (fun x => fst (fst x))) in H. cbn [fst] in H.
  rewrite <- H. apply reprocess_loop_positive. constructor.
Qed.

Lemma build_step_profit tm p r cur cum supply st cur' cum' :
  build_step cfg tm p r cur cum supply = Some (st, cur', cum') ->
  step_kind st = reaction /\
  exists sp, step_profit st = Some sp /\ cumulative_profit st = Decimal.add cum sp
             /\ cum' = cumulative_profit st.
Proof.
  unfold build_step. intros H.
  destruct (consume_all _ _ _ _ _ _) as [a|]; [|discriminate].
  cbn [mbind option_bind] in H.
  destruct (use_buyback cfg && _); [discriminate|].
  injection H as <- _ <-. simpl. eauto.
Qed.

Lemma additive_app l1 : forall cum l2,
  additive cum l1 -> additive (last_cum cum l1) l2 -> additive cum (l1 ++ l2).
Proof.
  induction l1 as [|s l1 IH]; simpl; intros cum l2 H1 H2; [exact H2|].
  destruct (step_kind s), (step_profit s); try contradiction;
    destruct H1 as [Hc H1]; (split; [assumption|]).
  - apply IH; assumption.
  - apply IH; [assumption|]. rewrite <- Hc. assumption.
Qed.

Lemma last_cum_app l1 : forall cum l2,
  last_cum cum (l1 ++ l2) = last_cum (last_cum cum l1) l2.
Proof. induction l1 as [|s l1 IH]; simpl; intros; [reflexivity|apply IH]. Qed.

Lemma additive_sum sts : forall cum,
  additive cum sts ->
  last_cum cum sts = fold_left Decimal.add (omap step_profit sts) cum.
Proof.
  induction sts as [|s sts IH]; simpl; intros cum H; [reflexivity|].
  destruct (step_kind s), (step_profit s) as [sp|]; try contradiction;
    destruct H as [Hc H]; simpl.
  - rewrite IH by assumption. rewrite Hc. reflexivity.
  - rewrite Hc. apply IH, H.
Qed.

Lemma carries_app profit rendered sts profit' :
  carries profit rendered -> additive profit sts -> last_cum profit sts = profit' ->
  carries profit' (rendered ++ sts).
Proof.
  intros [Ha Hl] Hs Hp. split.
  - apply additive_app; [assumption|]. rewrite Hl. assumption.
  - rewrite last_cum_app, Hl. assumption.
Qed.

Lemma reprocess_step_additive used add tm cum feeder :
  additive cum [build_reprocess_step cfg used add tm cum feeder]
  /\ last_cum cum [build_reprocess_step cfg used add tm cum feeder] = cum.
Proof.
  unfold build_reprocess_step.
  destruct (fold_left _ add _) as [[v vol] ids]. simpl. auto.
Qed.

Lemma reaction_step_additive tm p r cur cum supply st cur' cum' :
  build_step cfg tm p r cur cum supply = Some (st, cur', cum') ->
  additive cum [st] /\ last_cum cum [st] = cum'
  /\ additive cum [mark_feeder st] /\ last_cum cum [mark_feeder st] = cum'.
Proof.
  intros H. destruct (build_step_profit _ _ _ _ _ _ _ _ _ H) as (Hk & sp & Hsp & Hc & ->).
  simpl. rewrite Hk, Hsp. auto.
Qed.

Context (priced_plans : list plan).

Lemma feeder_one_inv a fd tm a' tm' :
  feeder_one cfg db a fd tm = Some (a', tm') ->
  (carries (fd_profit a) (fd_steps a) -> carries (fd_profit a') (fd_steps a'))
  /\ (Forall (fun pr => 0 <= snd pr) (per_run_products (snd fd)) ->
      nonneg (fd_stock a) -> nonneg (fd_stock a')).
Proof.
  unfold feeder_one, bind, get_type_map, lift, ret, reprocessM.
  destruct (Z.leb_spec (runcap_with_present (fd_stock a) (per_run_requirements (snd fd)) tm) 0) as [Hr|Hr].
  { intros [= <- <-]. auto. }
  destruct (build_step cfg tm (snd fd) _ (fd_stock a) (fd_profit a) ∅)
    as [[[st cur] profit]|] eqn:Eb; [|discriminate].
  destruct (reprocess_unrefined_in_stock db _ _ tm) as [[add used] tm1] eqn:Er.
  destruct (reaction_step_additive _ _ _ _ _ _ _ _ _ Eb) as (_ & _ & Hadd & Hlast).
  destruct add as [|x add]; intros [= <- <-]; simpl; split.
  - intros Hc. eapply carries_app; eassumption.
  - intros Hp Hn. apply deduct_nonneg. eapply build_step_nonneg; try eassumption. lia.
  - intros Hc.
    replace [mark_feeder st; build_reprocess_step cfg used (x :: add) tm1 profit true]
      with ([mark_feeder st] ++ [build_reprocess_step cfg used (x :: add) tm1 profit true])
      by reflexivity.
    rewrite app_assoc. eapply carries_app; [eapply carries_app; eassumption|..];
      apply reprocess_step_additive.
  - intros Hp Hn. apply deduct_nonneg. eapply build_step_nonneg; try eassumption. lia.
Qed.

Lemma feeder_loop_inv feeders : forall a tm a' tm',
  feeder_loop cfg db a feeders tm = Some (a', tm') ->
  (carries (fd_profit a) (fd_steps a) -> carries (fd_profit a') (fd_steps a')).
Proof.
  induction feeders as [|fd feeders IH]; simpl; intros a tm a' tm'.
  - intros [= <- <-]. auto.
  - unfold bind at 1. destruct (feeder_one cfg db a fd tm) as [[a1 tm1]|] eqn:E; [|discriminate].
    intros H Hc. eapply IH; [exact H|]. eapply feeder_one_inv; eassumption.
Qed.

Lemma step_and_reprocess_inv p r cur profit tm sts cur' profit' refined allowed tm' :
  step_and_reprocess cfg db p r cur profit tm = Some ((sts, cur', profit', refined, allowed), tm') ->
  additive profit sts /\ last_cum profit sts = profit'
  /\ (0 <= r -> Forall (fun pr => 0 <= snd pr) (per_run_products p) ->
      nonneg cur -> nonneg cur').
Proof.
  unfold step_and_reprocess, bind, get_type_map, lift, ret, reprocessM.
  destruct (build_step cfg tm p r cur profit ∅) as [[[st cur1] profit1]|] eqn:Eb; [|discriminate].
  destruct (reprocess_unrefined_in_stock db _ _ tm) as [[add used] tm1] eqn:Er.
  destruct (reaction_step_additive _ _ _ _ _ _ _ _ _ Eb) as (Hadd & Hlast & _ & _).
  destruct add as [|x add]; intros [= <- <- <- <- <- <-].
  - repeat split; try assumption. intros. eapply build_step_nonneg; eassumption.
  - split; [|split].
    + change [st; ?b] with ([st] ++ [b]). apply additive_app; [assumption|].
      rewrite Hlast. apply reprocess_step_additive.
    + change [st; ?b] with ([st] ++ [b]). rewrite last_cum_app, Hlast.
      apply reprocess_step_additive.
    + intros Hr Hp Hn. apply credit_nonneg.
      * pose proof (reprocess_add_positive _ _ _ _ _ _ Er) as Hpos.
        eapply Forall_impl; [|exact Hpos]. simpl. intros; lia.
      * apply deduct_nonneg. eapply build_step_nonneg; eassumption.
Qed.

Lemma steps_finish_chain rendered tm c :
  finish_chain rendered tm = Some c -> steps c = rendered.
Proof.
  unfold finish_chain. destruct (last_reaction_step rendered);
    destruct (Decimal.ltb _ _ && _); intros [= <-]; reflexivity.
Qed.

Lemma forward_inv left : forall p2 rp na cur profit rendered tm rendered' tm',
  forward cfg db priced_plans left p2 rp na cur profit rendered tm = Some (rendered', tm') ->
  carries profit rendered -> rendered <> [] ->
  exists profit', carries profit' rendered' /\ rendered' <> [].
Proof.
  induction left as [|left IH]; intros p2 rp na cur profit rendered tm rendered' tm'.
  - simpl. unfold ret. intros [= <- <-]. eauto.
  - cbn [forward]. unfold bind at 1.
    destruct (pick_best _ _ _ _ _ _ _ _ tm) as [[best tm1]|]; [|discriminate].
    destruct best as [[[pn rN] key]|]; [|unfold ret; intros [= <- <-]; eauto].
    unfold bind at 1.
    destruct (step_and_reprocess cfg db pn rN cur profit tm1)
      as [[[[[[sts curN] profitN] refN] allowedN] tm2]|] eqn:Es; [|discriminate].
    intros H Hc Hne. eapply IH; [exact H| |].
    + destruct (step_and_reprocess_inv _ _ _ _ _ _ _ _ _ _ _ Es) as (Ha & Hl & _).
      eapply carries_app; eassumption.
    + destruct rendered; [congruence|discriminate].
Qed.

Lemma chain_for_goal_inv stock gp tm c tm' :
  chain_for_goal cfg db priced_plans stock gp tm = Some (Some c, tm') ->
  (exists profit, carries profit (steps c) /\ steps c <> [])
  /\ (exists tm0, finish_chain (steps c) tm0 = Some c).
Proof.
  unfold chain_for_goal. unfold bind at 1, get_type_map at 1. unfold bind at 1.
  destruct (feeder_loop _ _ _ _ tm) as [[a tm1]|] eqn:Ef; [|discriminate].
  assert (Hca : carries (fd_profit a) (fd_steps a)).
  { eapply feeder_loop_inv; [exact Ef|]. split; reflexivity. }
  unfold bind at 1, get_type_map at 1.
  destruct (runcap_with_supply _ _ _ _ <=? 0); [unfold ret; discriminate|].
  unfold bind at 1, lift at 1.
  destruct (build_step cfg tm1 (snd gp) _ (fd_stock a) (fd_profit a) (fd_supply a))
    as [[[step1 cur1] profit]|] eqn:Eb; [|discriminate].
  unfold bind at 1, reprocessM at 1.
  destruct (reprocess_unrefined_in_stock db _ _ tm1) as [[add used] tm2] eqn:Er.
  unfold bind at 1, get_type_map at 1.
  destruct (_would_self_loop _ _ _ _ _); [unfold ret; discriminate|].
  destruct (reaction_step_additive _ _ _ _ _ _ _ _ _ Eb) as (Hadd & Hlast & _ & _).
  assert (Hc1 : carries profit (fd_steps a ++ [step1])) by (eapply carries_app; eassumption).
  set (st3 := match add with
              | [] => _
              | _ :: _ => _
              end).
  assert (Hc2 : carries profit (snd (fst st3)) /\ snd (fst st3) <> []).
  { subst st3. destruct add; simpl.
    - split; [assumption|]. destruct (fd_steps a); discriminate.
    - split; [eapply carries_app; [eassumption|..]; apply reprocess_step_additive|].
      destruct (fd_steps a); discriminate. }
  destruct st3 as [[cur3 rendered3] prev]. simpl in Hc2. destruct Hc2 as [Hc2 Hne].
  unfold bind at 1.
  destruct (pick_best _ _ _ _ _ _ _ _ tm2) as [[best tm3]|]; [|discriminate].
  unfold bind at 1.
  destruct best as [[[p2 r2] key]|].
  - unfold bind at 1.
    destruct (step_and_reprocess cfg db p2 r2 cur3 profit tm3)
      as [[[[[[sts2 cur4] profit2] ref2] allowed2] tm4]|] eqn:Es; [|discriminate].
    destruct (forward _ _ _ _ _ _ _ _ _ _ tm4) as [[rendered5 tm5]|] eqn:Efw; [|discriminate].
    intros H. unfold bind, get_type_map, lift, ret in H.
    destruct (finish_chain rendered5 tm5) as [c5|] eqn:Efin; [|discriminate].
    injection H as <- <-.
    rewrite (steps_finish_chain _ _ _ Efin). split; [|eauto].
    destruct (step_and_reprocess_inv _ _ _ _ _ _ _ _ _ _ _ Es) as (Ha & Hl & _).
    destruct (forward_inv _ _ _ _ _ _ _ _ _ _ Efw) as (pr & Hpr & Hne5).
    { eapply carries_app; eassumption. }
    { destruct rendered3; [congruence|discriminate]. }
    eauto.
  - unfold ret at 1. intros H. unfold bind, get_type_map, lift, ret in H.
    destruct (finish_chain rendered3 tm3) as [c3|] eqn:Efin; [|discriminate].
    injection H as <- <-.
    rewrite (steps_finish_chain _ _ _ Efin). eauto.
Qed.

Lemma chain_for_goal_finish stock gp tm c tm' :
  chain_for_goal cfg db priced_plans stock gp tm = Some (Some c, tm') ->
  exists tm0, finish_chain (steps c) tm0 = Some c.
Proof. intros H. apply (chain_for_goal_inv _ _ _ _ _ H). Qed.

Lemma finish_chain_profit rendered tm c :
  finish_chain rendered tm = Some c -> rendered <> [] ->
  final_profit_unformatted c = final_profit_formula rendered.
Proof.
  unfold finish_chain, final_profit_formula. intros H Hne.
  destruct rendered as [|s l]; [congruence|].
  destruct (last_reaction_step (s :: l));
    destruct (Decimal.ltb _ _ && _); try discriminate;
    injection H as <-; reflexivity.
Qed.


Lemma chains_loop_inv (P : chain -> Prop) stock goals : forall acc tm chains tm',
  (forall gp tm c tm', chain_for_goal cfg db priced_plans stock gp tm = Some (Some c, tm') -> P c) ->
  chains_loop cfg db priced_plans stock goals acc tm = Some (chains, tm') ->
  Forall P acc -> Forall P chains.
Proof.
  induction goals as [|gp goals IH]; intros acc tm chains tm' HP; cbn [chains_loop].
  - unfold ret. intros [= <- <-]. auto.
  - destruct (virtual_limit <=? length acc)%nat; [unfold ret; intros [= <- <-]; auto|].
    unfold bind at 1.
    destruct (chain_for_goal cfg db priced_plans stock gp tm) as [[c tm1]|] eqn:E; [|discriminate].
    intros H Hacc. eapply IH; [exact HP|exact H|].
    apply Forall_app. split; [assumption|].
    destruct c as [ch|]; [|constructor]. repeat constructor. eapply HP, E.
Qed.

(** C8.  The quantities of a chain's ledger stay non-negative through
    every operation that changes the ledger: a reaction step ([build_step],
    for runs >= 0 and product quantities >= 0, as the recipe table
    guarantees), the deduction of used or produced items, which clamps at
    zero, the credit of the materials refined by reprocessing, and the
    compound operations of the chain builder, a feeder step and a step
    followed by reprocessing.  The ledger that a request starts from, of
    which every chain takes its copy, is non-negative. *)
Theorem C8_ledger_nonnegative (cur : ledger) (Hcur : nonneg cur) :
  (forall tm p r cum supply st cur' cum',
      0 <= r -> products_nonneg p ->
      build_step cfg tm p r cur cum supply = Some (st, cur', cum') -> nonneg cur')
  /\ (forall used, nonneg (deduct cur used))
  /\ (forall produced rate tm add used tm',
        reprocess_unrefined_in_stock db produced rate tm = (add, used, tm') ->
        nonneg (credit (deduct cur used) add))
  /\ (forall a fd tm a' tm',
        fd_stock a = cur -> products_nonneg (snd fd) ->
        feeder_one cfg db a fd tm = Some (a', tm') -> nonneg (fd_stock a'))
  /\ (forall p r profit tm sts cur' profit' refined allowed tm',
        0 <= r -> products_nonneg p ->
        step_and_reprocess cfg db p r cur profit tm
          = Some ((sts, cur', profit', refined, allowed), tm') ->
        nonneg cur')
  /\ (forall resolved rate urate,
        Forall (fun p => 0 <= pl_quantity p) resolved ->
        nonneg (Views.request_stock db resolved rate urate)).
Proof.
  split; [|split; [|split; [|split; [|split; [|apply request_stock_nonneg]]]]].
  - intros tm p r cum supply st cur' cum' Hr Hp H.
    eapply build_step_nonneg; eassumption.
  - intros used. apply deduct_nonneg, Hcur.
  - intros produced rate tm add used tm' H. apply credit_nonneg.
    + pose proof (reprocess_add_positive _ _ _ _ _ _ H) as Hpos.
      eapply Forall_impl; [|exact Hpos]. simpl. intros; lia.
    + apply deduct_nonneg, Hcur.
  - intros a fd tm a' tm' <- Hp H.
    destruct (feeder_one_inv _ _ _ _ _ H) as [_ Hn]. apply Hn; assumption.
  - intros p r profit tm sts cur' profit' refined allowed tm' Hr Hp H.
    destruct (step_and_reprocess_inv _ _ _ _ _ _ _ _ _ _ _ H) as (_ & _ & Hn).
    apply Hn; assumption.
Qed.

(** C2 (as amended).  For every chain that a request produces, the
    cumulative profit accumulates additively step by step, and the
    cumulative profit of the last step is exactly the sum of the step
    profits of the chain's reaction steps.  The final profit of the chain
    is another quantity: the displayed value of the products of the last
    reaction step, minus the displayed fees, need costs and stock values
    of all steps. *)
Theorem C2_cumulative_profit_additive (stock : ledger) (type_map : type_map_t)
    (chains : list chain) (type_map' : type_map_t) (c : chain)
    (Hrun : build_chains cfg db priced_plans stock type_map = Some (chains, type_map'))
    (Hc : In c chains) :
  steps c <> []
  /\ additive Decimal.zero (steps c)
  /\ last_cum Decimal.zero (steps c) = sum_step_profits (steps c)
  /\ final_profit_unformatted c = final_profit_formula (steps c).
Proof.
  revert Hrun Hc.
  unfold build_chains, bind, get_type_map. intros H Hin.
  assert (HF : Forall (fun c => (exists profit, carries profit (steps c) /\ steps c <> [])
                        /\ exists tm, finish_chain (steps c) tm = Some c) chains).
  { eapply chains_loop_inv; [|exact H|constructor].
    intros gp tm c0 tm0 Hc. exact (chain_for_goal_inv _ _ _ _ _ Hc). }
  rewrite List.Forall_forall in HF.
  destruct (HF c Hin) as ((profit & Hcar & Hne) & tm & Hfin).
  destruct Hcar as [Ha Hl].
  split; [assumption|]. split; [assumption|]. split.
  - unfold sum_step_profits, Decimal.sum. apply additive_sum. assumption.
  - eapply finish_chain_profit; eassumption.
Qed.

End chain_facts.

Section chain_examples.
Import Catalog Helper Chain.

(** Ten runs of the recipe on 100 units of its material. *)
Lemma C8_ledger_nonnegative_witness :
  match build_step Demo.cfg Demo.type_map Demo.recipe 10 Demo.stock Decimal.zero ∅ with
  | Some (_, cur', _) => nonneg cur'
  | None => False
  end.
Proof.
  destruct (build_step Demo.cfg Demo.type_map Demo.recipe 10 Demo.stock Decimal.zero ∅)
    as [[[st cur'] cum']|] eqn:E; [|vm_compute in E; discriminate E].
  assert (Hstock : nonneg Demo.stock).
  { intros t q H. unfold Demo.stock in H. apply lookup_singleton_Some in H as [_ <-]. lia. }
  destruct (C8_ledger_nonnegative Demo.cfg Demo.db Demo.stock Hstock) as (Hstep & _).
  apply (Hstep Demo.type_map Demo.recipe 10 Decimal.zero ∅ st cur' cum').
  - lia.
  - repeat constructor. simpl. lia.
  - exact E.
Defined.

(** The chain of the one recipe. *)
Lemma C2_cumulative_profit_witness :
  match build_chains Demo.cfg Demo.db [Demo.recipe] Demo.stock Demo.type_map with
  | Some (c :: _, _) => last_cum Decimal.zero (steps c) = sum_step_profits (steps c)
  | _ => False
  end.
Proof.
  destruct (build_chains Demo.cfg Demo.db [Demo.recipe] Demo.stock Demo.type_map)
    as [[[|c cs] tm']|] eqn:E;
    [vm_compute in E; discriminate E| |vm_compute in E; discriminate E].
  destruct (C2_cumulative_profit_additive Demo.cfg Demo.db [Demo.recipe]
              Demo.stock Demo.type_map (c :: cs) tm' c E) as (_ & _ & H & _).
  - left. reflexivity.
  - exact H.
Defined.

(** C2 as stated fails: the chain of one recipe (10 of Alpha for 5 of Beta,
    100 of Alpha in stock, a broker fee of 3 % and a sales tax of 3.375 %)
    has the final profit 394.35, while its only step profit is 362.475:
    the final profit counts the gross value 500.00 of the products, the
    step profit their value net of the output fees, 468.125. *)
Lemma C2_counterexample_final_profit :
  exists c tm,
    build_chains Demo.cfg Demo.db [Demo.recipe] Demo.stock Demo.type_map = Some ([c], tm)
    /\ this (final_profit_unformatted c) = 7887 # 20
    /\ this (sum_step_profits (steps c)) = 14499 # 40
    /\ final_profit_unformatted c <> sum_step_profits (steps c)
    /\ Decimal.display2 (final_profit_unformatted c)
       <> Decimal.display2 (sum_step_profits (steps c)).
Proof.
  eexists. eexists. split; [vm_compute; reflexivity|].
  split; [vm_compute; reflexivity|]. split; [vm_compute; reflexivity|].
  split; intros H; apply (f_equal this) in H; vm_compute in H; discriminate H.
Qed.

End chain_examples.

(* ===================================================================== *)
(** * Further properties of the planning core                            *)
(* ===================================================================== *)

(** ** The parser: entries and numeric tokens *)

Section entry_facts.
Import Text Parser.

Lemma str_nonempty c l : str (c :: l) <> ""%string.
Proof. unfold str. simpl. discriminate. Qed.

Lemma add_entries_ok agg c : Forall entry_ok agg -> Forall entry_ok (add agg c).
Proof.
  intros Ha. unfold add. destruct c as [nm q0]. cbn [fst snd].
  destruct (_clean_name_fragment nm) as [|x n] eqn:E; [exact Ha|].
  destruct (Z.leb_spec q0 0) as [|Hq]; [exact Ha|].
  apply dict_set_Forall; [exact Ha|]. split; cbn [fst snd].
  - apply str_nonempty.
  - destruct (PyDict.get agg (str (x :: n))) as [v|] eqn:Eg; simpl; [|lia].
    apply dict_get_In_weak in Eg. rewrite List.Forall_forall in Ha.
    destruct (Ha _ Eg) as [_ Hv]. cbn [snd] in Hv. lia.
Qed.

Lemma fold_add_entries_ok cs : forall agg,
  Forall entry_ok agg -> Forall entry_ok (fold_left add cs agg).
Proof.
  induction cs as [|c cs IH]; simpl; intros agg Ha; [exact Ha|].
  apply IH, add_entries_ok, Ha.
Qed.

(** X1.  Every entry of the list that [parse_input_lines] returns has a
    name that is not the empty text and a quantity of at least 1: a line
    whose name cleans to nothing or whose quantity is not positive leaves
    no entry. *)
Theorem X1_parsed_entries_positive (raw : string) (r : list (string * Z))
    (name : string) (q : Z)
    (Hparse : parse_input_lines raw = Some r) (Hin : In (name, q) r) :
  name <> ""%string /\ 0 < q.
Proof.
  rewrite parse_is_lines_loop, lines_loop_all_calls in Hparse.
  destruct (all_calls _) as [cs|]; [|discriminate]. injection Hparse as <-.
  pose proof (fold_add_entries_ok cs [] ltac:(constructor)) as H.
  rewrite List.Forall_forall in H. exact (H _ Hin).
Qed.

(** The line "Tritanium x 100". *)
Lemma X1_parsed_entries_witness : "Tritanium"%string <> ""%string /\ 0 < 100.
Proof.
  apply (X1_parsed_entries_positive "Tritanium x 100" [("Tritanium"%string, 100)]).
  - vm_compute. reflexivity.
  - left. reflexivity.
Defined.

End entry_facts.

Section float_facts.
Import Text Parser.

Lemma this_Qc_of_Z n : this (Qc_of_Z n) = inject_Z n.
Proof.
  reflexivity.
Qed.

Lemma Qc_of_Z_frac m k : 0 <= k -> Q2Qc (m * 2 ^ k # Z.to_pos (2 ^ k)) = Qc_of_Z m.
Proof.
  intros Hk. apply Qc_is_canon. cbn [this Q2Qc]. rewrite Qred_correct.
  rewrite this_Qc_of_Z. unfold Qeq, inject_Z. cbn [Qnum Qden].
  rewrite Z2Pos.id by (apply Z.pow_pos_nonneg; lia). lia.
Qed.

(** Binary rounding is exact on the integers below [2 ^ 53]. *)
Lemma round_sig_int n : Z.abs n < 2 ^ 53 ->
  Num.round_sig 2 53 (-1074) (Qc_of_Z n) = Qc_of_Z n.
Proof.
  intros Hn. unfold Num.round_sig. rewrite this_Qc_of_Z. cbn [Qnum Qden inject_Z].
  destruct (Z.eqb_spec n 0) as [|Hn0]; [reflexivity|].
  set (l := Num.ilog 2 (Z.abs n) 1).
  assert (Hl : l <= 52).
  { destruct (ilog_le 2 (Z.abs n) 1 ltac:(lia) ltac:(lia) ltac:(lia)) as [H1 _].
    fold l in H1. destruct (Z_lt_le_dec 52 l) as [Hgt|]; [exfalso|lia].
    specialize (H1 ltac:(lia)).
    assert (2 ^ 53 <= 2 ^ l) by (apply Z.pow_le_mono_r; lia). lia. }
  set (e := Z.max (l - (53 - 1)) (-1074)).
  assert (He : -1074 <= e <= 0) by lia.
  unfold Num.scaled. destruct (Z.leb_spec e 0) as [_|]; [|lia].
  try rewrite this_Qc_of_Z. cbn [this Qc_of_Z Qnum Qden inject_Z].
  replace (n * 2 ^ (- e)) with ((n * 2 ^ (- e)) * 1) at 1 by lia.
  rewrite div_half_even_exact by lia.
  unfold Num.unscaled. destruct (Z.leb_spec 0 e).
  - replace e with 0 by lia. simpl. f_equal. lia.
  - apply Qc_of_Z_frac. lia.
Qed.

Lemma Qc_of_Z_opp n : (- Qc_of_Z n)%Qc = Qc_of_Z (- n).
Proof.
  apply Qc_is_canon. cbn [this Qcopp Q2Qc]. rewrite Qred_correct, !this_Qc_of_Z.
  reflexivity.
Qed.

Lemma Qc_leb_of_Z a b : Num.Qc_leb (Qc_of_Z a) (Qc_of_Z b) = (a <=? b).
Proof.
  unfold Num.Qc_leb. rewrite !this_Qc_of_Z. unfold Qle_bool, inject_Z. cbn [Qnum Qden].
  rewrite !Z.mul_1_r. reflexivity.
Qed.

Lemma Qc_ltb_of_Z a b : Num.Qc_ltb (Qc_of_Z a) (Qc_of_Z b) = (a <? b).
Proof.
  unfold Num.Qc_ltb. change (Qle_bool (Qc_of_Z b) (Qc_of_Z a)) with (Num.Qc_leb (Qc_of_Z b) (Qc_of_Z a)).
  rewrite Qc_leb_of_Z, Z.leb_antisym, negb_involutive. reflexivity.
Qed.

Lemma float_round_int n : Z.abs n < 2 ^ 53 ->
  Float.round (Qc_of_Z n) = Float.Finite (Qc_of_Z n).
Proof.
  intros Hn. unfold Float.round. rewrite round_sig_int by assumption.
  assert (Hlt : Num.Qc_ltb (Qc_of_Z n) 0 = (n <? 0)).
  { unfold Num.Qc_ltb, Qle_bool. simpl. rewrite Z.leb_antisym, negb_involutive, Z.mul_1_r.
    reflexivity. }
  rewrite Hlt.
  assert (Hbig : 2 ^ 53 <= 2 ^ 1024) by (apply Z.pow_le_mono_r; lia).
  destruct (n <? 0) eqn:E.
  - rewrite Qc_of_Z_opp, Qc_leb_of_Z. apply Z.ltb_lt in E.
    destruct (Z.leb_spec (2 ^ 1024) (- n)); [lia|reflexivity].
  - rewrite Qc_leb_of_Z. apply Z.ltb_ge in E.
    destruct (Z.leb_spec (2 ^ 1024) n); [lia|reflexivity].
Qed.

Lemma Qc_of_Z_mul a b : (Qc_of_Z a * Qc_of_Z b)%Qc = Qc_of_Z (a * b).
Proof.
  apply Qc_is_canon. cbn [this Qcmult Q2Qc]. rewrite Qred_correct, !this_Qc_of_Z.
  unfold Qeq, Qmult, inject_Z. simpl. lia.
Qed.

Lemma float_mul_int_exact n m : Z.abs (n * m) < 2 ^ 53 ->
  Float.mul_int (Float.Finite (Qc_of_Z n)) m = Float.Finite (Qc_of_Z (n * m)).
Proof.
  intros H. unfold Float.mul_int. rewrite Qc_of_Z_mul. apply float_round_int, H.
Qed.

Lemma float_to_int_of_Z n : Float.to_int (Float.Finite (Qc_of_Z n)) = Some n.
Proof.
  unfold Float.to_int, Num.Qc_trunc. rewrite this_Qc_of_Z. simpl. rewrite Z.quot_1_r. reflexivity.
Qed.

End float_facts.

Section token_text_facts.
Import Text Parser.

Lemma digit_char_facts c : is_digit c = true ->
  is_space c = false /\ ch_eqb c "," = false /\ ch_eqb c "_" = false
  /\ lower_char c = c /\ one_of "-" c = false /\ one_of "+" c = false
  /\ one_of "." c = false /\ one_of ".kmb-+" c = false /\ one_of "kmb" c = false.
Proof.
  destruct c as [[] [] [] [] [] [] [] []]; vm_compute; intros;
    try discriminate; repeat split; reflexivity.
Qed.

Lemma separator_char_facts c : is_digit c = false -> one_of ",_" c = true ->
  is_space c = false /\ (ch_eqb c "," || ch_eqb c "_") = true.
Proof.
  destruct c as [[] [] [] [] [] [] [] []]; vm_compute; intros;
    try discriminate; repeat split; reflexivity.
Qed.

Lemma suffix_char_facts c : one_of "kmbKMB" c = true ->
  is_space c = false /\ is_digit c = false /\ ch_eqb c "," = false /\ ch_eqb c "_" = false
  /\ one_of "kmb" (lower_char c) = true /\ is_digit (lower_char c) = false
  /\ one_of ".kmb-+" (lower_char c) = true /\ one_of "." (lower_char c) = false.
Proof.
  destruct c as [[] [] [] [] [] [] [] []]; vm_compute; intros;
    try discriminate; repeat split; reflexivity.
Qed.

Lemma lstrip_by_head p c s : p c = false -> lstrip_by p (c :: s) = c :: s.
Proof. intros H. simpl. rewrite H. reflexivity. Qed.

Lemma strip_no_space s : forallb (fun c => negb (is_space c)) s = true -> strip s = s.
Proof.
  intros H. unfold strip, strip_by, rstrip_by.
  assert (Hl : forall t, forallb (fun c => negb (is_space c)) t = true -> lstrip_by is_space t = t).
  { intros [|c t] Ht; [reflexivity|]. simpl in Ht. apply andb_prop in Ht as [Hc _].
    apply lstrip_by_head. destruct (is_space c); [discriminate|reflexivity]. }
  rewrite (Hl s H), Hl, rev_involutive; [reflexivity|].
  rewrite forallb_forall in *. intros x Hx. apply H. apply in_rev. assumption.
Qed.

(** [re.sub] of one character class by the empty text is a filter. *)
Lemma sub_class_empty p s : Re.sub (Re.Chr p) [] s = List.filter (fun c => negb (p c)) s.
Proof.
  unfold Re.sub. generalize (length s) as n0.
  induction s as [|c s IH]; intros n0; [reflexivity|].
  cbn [Re.sub_go Re.match_len Re.run List.filter].
  destruct (p c) eqn:E; cbn [negb].
  - replace (length (c :: s) - length s)%nat with 1%nat by (simpl; lia).
    simpl. apply IH.
  - f_equal. apply IH.
Qed.

Lemma rep_greedy_run {A} p (k : list ascii -> option A) a rest :
  match rest with [] => True | c :: _ => p c = false end ->
  k rest = Some a ->
  forall ds lo, forallb p ds = true -> (lo <= length ds)%nat ->
  Re.rep true p lo None (ds ++ rest) k = Some a.
Proof.
  intros Hrest Hk. induction ds as [|d ds IH]; intros lo Hds Hlo.
  - simpl in Hlo. assert (lo = O) by lia. subst lo. cbn [app].
    destruct rest as [|c r]; [exact Hk|]. cbn [Re.rep]. rewrite Hrest.
    cbn [andb]. exact Hk.
  - simpl in Hds. apply andb_prop in Hds as [Hd Hds]. simpl in Hlo.
    cbn [app Re.rep]. rewrite Hd. cbn [Re.exhausted negb andb fmap option_fmap option_map].
    destruct lo as [|lo].
    + rewrite (IH O Hds ltac:(lia)). reflexivity.
    + apply IH; [assumption|lia].
Qed.

End token_text_facts.

Section token_digit_facts.
Import Text Parser.

Lemma digit_value_range c : is_digit c = true -> 0 <= digit_value c <= 9.
Proof.
  unfold is_digit, digit_value. intros H. apply andb_prop in H as [H1 H2].
  apply Z.leb_le in H1, H2. lia.
Qed.

Lemma digits_value_nonneg ds : forallb is_digit ds = true -> 0 <= digits_value ds.
Proof.
  unfold digits_value.
  assert (H : forall acc, 0 <= acc -> forallb is_digit ds = true ->
            0 <= fold_left (fun acc c => 10 * acc + digit_value c) ds acc).
  { induction ds as [|d ds IH]; intros acc Hacc Hds; simpl; [exact Hacc|].
    simpl in Hds. apply andb_prop in Hds as [Hd Hds].
    apply IH; [|assumption]. pose proof (digit_value_range d Hd). lia. }
  apply H. lia.
Qed.

Lemma filter_digits_all tok : forallb is_digit (List.filter is_digit tok) = true.
Proof.
  apply forallb_forall. intros x Hx. apply filter_In in Hx. tauto.
Qed.

Lemma clean_token_body tok :
  forallb (fun c => is_digit c || one_of ",_" c) tok = true ->
  forall rest,
  lower (remove_char "_" (remove_char "," (tok ++ rest)))
  = List.filter is_digit tok ++ lower (remove_char "_" (remove_char "," rest)).
Proof.
  intros H rest. induction tok as [|c tok IH]; [reflexivity|].
  simpl in H. apply andb_prop in H as [Hc H]. specialize (IH H).
  unfold remove_char, lower in *. cbn [app List.filter].
  destruct (is_digit c) eqn:Ed.
  - destruct (digit_char_facts c Ed) as (_ & H1 & H2 & H3 & _).
    rewrite H1. cbn [negb List.filter]. rewrite H2. cbn [negb map app]. rewrite H3.
    f_equal. exact IH.
  - simpl in Hc. destruct (separator_char_facts c Ed Hc) as (_ & Hs).
    destruct (ch_eqb c ",") eqn:E1; cbn [negb List.filter]; [exact IH|].
    simpl in Hs. rewrite Hs. cbn [negb]. exact IH.
Qed.

Lemma no_space_body tok :
  forallb (fun c => is_digit c || one_of ",_" c) tok = true ->
  forallb (fun c => negb (is_space c)) tok = true.
Proof.
  intros H. rewrite forallb_forall in *. intros c Hc. specialize (H c Hc).
  destruct (is_digit c) eqn:Ed.
  - destruct (digit_char_facts c Ed) as (-> & _). reflexivity.
  - simpl in H. destruct (separator_char_facts c Ed H) as (-> & _). reflexivity.
Qed.

Lemma number_re_digits ds suf :
  ds <> [] -> forallb is_digit ds = true ->
  (suf = [] \/ exists c, suf = [c] /\ one_of "kmb" c = true /\ is_digit c = false
                         /\ one_of "." c = false) ->
  exists m, Re.fullmatch number_re (ds ++ suf) = Some m
            /\ Re.group 1 m = ds /\ Re.group 2 m = suf.
Proof.
  intros Hne Hds Hsuf.
  destruct ds as [|d ds']; [congruence|]. clear Hne.
  assert (Hd : is_digit d = true) by (simpl in Hds; apply andb_prop in Hds; tauto).
  destruct (digit_char_facts d Hd) as (_ & _ & _ & _ & Hm & Hp & _).
  assert (Hsign : one_of "-+" d = false).
  { unfold one_of in *. simpl in *. rewrite orb_false_r in *. rewrite Hm, Hp. reflexivity. }
  unfold Re.fullmatch, number_re, Re.seq, Re.opt, Re.plus.
  cbn [fold_right]. cbn [Re.run app]. rewrite Hsign. rewrite !app_comm_cons.
  destruct Hsuf as [->|(c & -> & Hc & Hcd & Hcdot)].
  - eexists. split.
    + erewrite (rep_greedy_run is_digit _ _ [] I); [reflexivity| |exact Hds|simpl; lia].
      cbn [Re.run]. reflexivity.
    + rewrite app_nil_r. cbn [Re.group List.find fst snd Nat.eqb].
      replace (length (d :: ds') - length (@nil ascii))%nat with (length (d :: ds')) by (simpl; lia).
      rewrite firstn_all. split; reflexivity.
  - eexists. split.
    + erewrite (rep_greedy_run is_digit _ _ [c] Hcd); [reflexivity| |exact Hds|simpl; lia].
      cbn [Re.run]. rewrite Hcdot, Hc. reflexivity.
    + cbn [Re.group List.find fst snd Nat.eqb].
      replace (length [c] - length (@nil ascii))%nat with 1%nat by reflexivity.
      split; [|reflexivity].
      replace (length ((d :: ds') ++ [c]) - length [c])%nat with (length (d :: ds'))
        by (rewrite length_app; simpl; lia).
      rewrite take_app_length. reflexivity.
Qed.

End token_digit_facts.

Section token_value_facts.
Import Text Parser.

Lemma literal_value_digits ds : ds <> [] -> forallb is_digit ds = true ->
  literal_value ds = Qc_of_Z (digits_value ds).
Proof.
  intros Hne Hds. destruct ds as [|d ds']; [congruence|].
  assert (Hd : is_digit d = true) by (simpl in Hds; apply andb_prop in Hds; tauto).
  destruct (digit_char_facts d Hd) as (_ & _ & _ & _ & Hm & Hp & _).
  unfold literal_value. rewrite Hm, Hp.
  assert (Ht : forall s, forallb is_digit s = true -> take_while is_digit s = s).
  { induction s as [|x s IH]; [reflexivity|]. simpl. intros H.
    apply andb_prop in H as [-> H]. f_equal. auto. }
  assert (Hl : forall s, forallb is_digit s = true -> lstrip_by is_digit s = []).
  { induction s as [|x s IH]; [reflexivity|]. simpl. intros H.
    apply andb_prop in H as [-> H]. auto. }
  rewrite (Ht _ Hds), (Hl _ Hds). cbn [drop length]. rewrite app_nil_r.
  unfold Num.unscaled. simpl. f_equal. lia.
Qed.

(** X2.  [_parse_number_token] reads a token made of decimal digits (at
    least one), with thousands separators [,] and [_] anywhere among them
    and an optional suffix k, m or b in either case, as the number that
    the digits spell times 1000, 10^6 or 10^9 for the suffix, exactly, as
    long as the result is below 2^53 (the computation goes through a
    [float]). *)
Theorem X2_number_token_exact (tok suf : list ascii)
    (Hbody : forallb (fun c => is_digit c || one_of ",_" c) tok = true)
    (Hdigit : List.filter is_digit tok <> [])
    (Hsuf : suf = [] \/ exists c, suf = [c] /\ one_of "kmbKMB" c = true)
    (Hsmall : digits_value (List.filter is_digit tok) * suffix_mult suf < 2 ^ 53) :
  _parse_number_token (tok ++ suf)
  = Some (digits_value (List.filter is_digit tok) * suffix_mult suf).
Proof.
  set (ds := List.filter is_digit tok) in *.
  pose proof (filter_digits_all tok) as Hds. fold ds in Hds.
  pose proof (digits_value_nonneg ds Hds) as Hn.
  assert (Hstrip : strip (tok ++ suf) = tok ++ suf).
  { apply strip_no_space. rewrite forallb_app, (no_space_body tok Hbody). cbn [andb].
    destruct Hsuf as [->|(c & -> & Hc)]; [reflexivity|].
    destruct (suffix_char_facts c Hc) as (Hsp & _). cbn [forallb]. rewrite Hsp. reflexivity. }
  unfold _parse_number_token. rewrite Hstrip, (clean_token_body tok Hbody).
  fold ds. rewrite sub_class_empty.
  assert (Hsuf' : lower (remove_char "_" (remove_char "," suf)) = lower suf).
  { destruct Hsuf as [->|(c & -> & Hc)]; [reflexivity|].
    destruct (suffix_char_facts c Hc) as (_ & _ & H1 & H2 & _).
    unfold remove_char. cbn [List.filter]. rewrite H1. cbn [negb List.filter]. rewrite H2.
    reflexivity. }
  rewrite Hsuf'.
  assert (Hkeep : List.filter
            (fun c => negb (negb (is_digit c || one_of ".kmb-+" c))) (ds ++ lower suf)
            = ds ++ lower suf).
  { rewrite List.filter_app. f_equal.
    - apply forallb_filter_id. rewrite forallb_forall in *. intros x Hx.
      rewrite (Hds x Hx). reflexivity.
    - destruct Hsuf as [->|(c & -> & Hc)]; [reflexivity|].
      destruct (suffix_char_facts c Hc) as (_ & _ & _ & _ & _ & _ & H3 & _).
      unfold lower. cbn [map List.filter]. rewrite H3, orb_true_r. reflexivity. }
  rewrite Hkeep.
  destruct (number_re_digits ds (lower suf) Hdigit Hds) as (m & -> & Hg1 & Hg2).
  { destruct Hsuf as [->|(c & -> & Hc)]; [left; reflexivity|]. right.
    destruct (suffix_char_facts c Hc) as (_ & _ & _ & _ & H1 & H2 & _ & H4).
    exists (lower_char c). auto. }
  rewrite Hg1, Hg2, (literal_value_digits ds Hdigit Hds), float_round_int.
  2:{ destruct Hsuf as [->|(c & -> & Hc)]; simpl in Hsmall; [lia|].
      destruct (one_of "kK" c); [lia|]. destruct (one_of "mM" c); [lia|].
      destruct (one_of "bB" c); lia. }
  assert (Hmult : (if list_eqb (lower suf) (chars "k") then 1000
                   else if list_eqb (lower suf) (chars "m") then 1000000
                   else if list_eqb (lower suf) (chars "b") then 1000000000 else 1)
                  = suffix_mult suf).
  { destruct Hsuf as [->|(c & -> & Hc)]; [reflexivity|].
    revert Hc. clear.
    destruct c as [[] [] [] [] [] [] [] []]; vm_compute; intros;
      try discriminate; reflexivity. }
  rewrite Hmult, float_mul_int_exact, float_to_int_of_Z; [reflexivity|].
  assert (0 < suffix_mult suf).
  { unfold suffix_mult. destruct suf as [|c [|? ?]]; try lia.
    destruct (one_of "kK" c); [lia|]. destruct (one_of "mM" c); [lia|].
    destruct (one_of "bB" c); lia. }
  rewrite Z.abs_eq by nia. exact Hsmall.
Qed.

(** The token "1,250_000k". *)
Lemma X2_number_token_witness :
  _parse_number_token (chars "1,250_000k") = Some 1250000000.
Proof.
  apply (X2_number_token_exact (chars "1,250_000") (chars "k")).
  - reflexivity.
  - vm_compute. discriminate.
  - right. exists "k"%char. split; reflexivity.
  - vm_compute. reflexivity.
Defined.

End token_value_facts.

(** ** The sums of the parser *)

Section parser_sum_facts.
Import Text Parser.

Lemma name_char_facts c : name_char c = true ->
  is_space c = false /\ x_or_times c = false /\ is_dot c = true
  /\ ch_eqb c tab = false /\ ch_eqb c (chr 34) = false /\ one_of "'" c = false
  /\ one_of ":|,-" c = false /\ one_of ":-" c = false
  /\ (one_of ";" c || ch_eqb c newline || ch_eqb c (chr 13)) = false.
Proof.
  destruct c as [[] [] [] [] [] [] [] []]; vm_compute; intros;
    try discriminate; repeat split; reflexivity.
Qed.

Lemma digit_line_facts c : is_digit c = true ->
  is_space c = false /\ qty_class c = true /\ is_dot c = true
  /\ ch_eqb c tab = false
  /\ (one_of ";" c || ch_eqb c newline || ch_eqb c (chr 13)) = false.
Proof.
  destruct c as [[] [] [] [] [] [] [] []]; vm_compute; intros;
    try discriminate; repeat split; reflexivity.
Qed.

Lemma number_token_digits ds :
  ds <> [] -> forallb is_digit ds = true -> digits_value ds < 2 ^ 53 ->
  _parse_number_token ds = Some (digits_value ds).
Proof.
  intros Hne Hds Hsmall.
  pose proof (digits_value_nonneg ds Hds) as Hn.
  assert (Hbody : forallb (fun c => is_digit c || one_of ",_" c) ds = true).
  { rewrite forallb_forall in *. intros c Hc. rewrite (Hds c Hc). reflexivity. }
  assert (Hfilter : List.filter is_digit ds = ds) by (apply forallb_filter_id, Hds).
  unfold _parse_number_token.
  rewrite (strip_no_space ds (no_space_body ds Hbody)).
  pose proof (clean_token_body ds Hbody []) as Hclean.
  rewrite app_nil_r, Hfilter in Hclean. cbn in Hclean. rewrite app_nil_r in Hclean.
  rewrite Hclean, sub_class_empty.
  assert (Hkeep : List.filter (fun c => negb (negb (is_digit c || one_of ".kmb-+" c))) ds = ds).
  { apply forallb_filter_id. rewrite forallb_forall in *. intros x Hx.
    rewrite (Hds x Hx). reflexivity. }
  rewrite Hkeep.
  destruct (number_re_digits ds [] Hne Hds (or_introl eq_refl)) as (m & Hm & Hg1 & Hg2).
  rewrite app_nil_r in Hm. rewrite Hm, Hg1, Hg2.
  rewrite (literal_value_digits ds Hne Hds), float_round_int by lia.
  cbn [list_eqb]. change (list_eqb [] (chars "k")) with false.
  change (list_eqb [] (chars "m")) with false. change (list_eqb [] (chars "b")) with false.
  cbv iota. rewrite float_mul_int_exact, float_to_int_of_Z by lia.
  rewrite Z.mul_1_r. reflexivity.
Qed.

Lemma strip_by_keep p s :
  match s with a :: _ => p a = false | [] => True end ->
  match rev s with z :: _ => p z = false | [] => True end ->
  strip_by p s = s.
Proof.
  intros Hh Hl. unfold strip_by, rstrip_by.
  assert (H1 : lstrip_by p s = s).
  { destruct s as [|a s']; [reflexivity|]. apply lstrip_by_head, Hh. }
  rewrite H1.
  assert (H2 : lstrip_by p (rev s) = rev s).
  { destruct (rev s) as [|z r]; [reflexivity|]. apply lstrip_by_head, Hl. }
  rewrite H2. apply rev_involutive.
Qed.

(** [re.sub(r"\s+", " ", s)] on words separated by single blanks. *)
Lemma sub_spaces_word n0 w : forall rest,
  forallb (fun c => negb (is_space c)) w = true ->
  Re.sub_go n0 (Re.plus is_space) [space] (w ++ rest) 0
  = w ++ Re.sub_go n0 (Re.plus is_space) [space] rest 0.
Proof.
  induction w as [|c w IH]; intros rest Hw; [reflexivity|].
  cbn [forallb] in Hw. apply andb_prop in Hw as [Hc Hw].
  apply negb_true_iff in Hc.
  cbn [app Re.sub_go Re.match_len Re.run Re.plus Re.rep]. rewrite Hc. cbn [andb].
  f_equal. apply IH, Hw.
Qed.

Lemma sub_spaces_blank n0 c rest : is_space c = false ->
  Re.sub_go n0 (Re.plus is_space) [space] (space :: c :: rest) 0
  = space :: Re.sub_go n0 (Re.plus is_space) [space] (c :: rest) 0.
Proof.
  intros Hc. cbn [Re.sub_go Re.match_len Re.run Re.plus Re.rep].
  change (is_space space) with true. rewrite Hc.
  cbn [andb negb Re.exhausted fmap option_fmap option_map].
  replace (length (space :: c :: rest) - length (c :: rest))%nat with 1%nat
    by (cbn [length]; lia).
  cbn [app]. reflexivity.
Qed.

(** Lazy repetition takes the shortest match after which the rest of the
    pattern succeeds. *)
Lemma rep_lazy_skip {A} p (k : list ascii -> option A) rest a :
  k rest = Some a ->
  forall w, forallb p w = true ->
  (forall w1 c w2, w = w1 ++ c :: w2 -> k (c :: w2 ++ rest) = None) ->
  Re.rep false p 0 None (w ++ rest) k = Some a.
Proof.
  intros Hk. induction w as [|c w IH]; intros Hw Hfail.
  - cbn [app]. destruct rest as [|r rest']; cbn [Re.rep]; [exact Hk|].
    rewrite Hk. reflexivity.
  - cbn [forallb] in Hw. apply andb_prop in Hw as [Hc Hw].
    cbn [app Re.rep]. rewrite (Hfail [] c w eq_refl), Hc.
    cbn [andb negb Re.exhausted fmap option_fmap option_map].
    apply IH; [exact Hw|]. intros w1 c' w2 ->. apply (Hfail (c :: w1) c' w2). reflexivity.
Qed.

Lemma rep_lazy_plus {A} p (k : list ascii -> option A) rest a c w :
  k rest = Some a -> p c = true -> forallb p w = true ->
  (forall w1 c' w2, w = w1 ++ c' :: w2 -> k (c' :: w2 ++ rest) = None) ->
  Re.rep false p 1 None (c :: w ++ rest) k = Some a.
Proof.
  intros Hk Hc Hw Hfail. cbn [Re.rep]. rewrite Hc.
  cbn [andb negb Re.exhausted fmap option_fmap option_map].
  apply rep_lazy_skip; assumption.
Qed.

Lemma wchar_facts c : wchar c = true ->
  is_dot c = true /\ is_space c = false /\ x_or_times c = false.
Proof.
  unfold wchar. intros H. apply andb_prop in H as [H H3]. apply andb_prop in H as [H1 H2].
  apply negb_true_iff in H2, H3. auto.
Qed.

Lemma star_skip {A} p (k : list ascii -> option A) c t :
  p c = false -> Re.rep true p 0 None (c :: t) k = k (c :: t).
Proof. intros Hc. cbn [Re.rep]. rewrite Hc. reflexivity. Qed.

Lemma star_one {A} p (k : list ascii -> option A) b c t a :
  p b = true -> p c = false -> k (c :: t) = Some a ->
  Re.rep true p 0 None (b :: c :: t) k = Some a.
Proof.
  intros Hb Hc Hk. cbn [Re.rep]. rewrite Hb, Hc.
  cbn [andb negb Re.exhausted fmap option_fmap option_map]. rewrite Hk. reflexivity.
Qed.

Lemma x_qty_tail_fail {A} n0 caps (K : list ascii -> Re.captures -> option A) c t :
  is_space c = false -> x_or_times c = false ->
  Re.run n0 x_qty_tail (c :: t) caps K = None.
Proof.
  intros Hs Hx. unfold x_qty_tail, Re.seq, Re.star. cbn [fold_right Re.run].
  rewrite star_skip by exact Hs. rewrite Hx. reflexivity.
Qed.

Lemma x_qty_tail_ok n0 caps ds :
  ds <> [] -> forallb is_digit ds = true ->
  Re.run n0 x_qty_tail (chars " x " ++ ds) caps (fun _ c => Some c)
  = Some ((g_qty, ds) :: caps).
Proof.
  intros Hne Hd. destruct ds as [|d0 ds']; [congruence|clear Hne].
  assert (Hd0 : is_digit d0 = true) by (cbn [forallb] in Hd; apply andb_prop in Hd; tauto).
  destruct (digit_line_facts d0 Hd0) as (Hsp0 & _).
  assert (Hq : forallb qty_class (d0 :: ds') = true).
  { rewrite forallb_forall in *. intros c Hc. apply digit_line_facts, Hd, Hc. }
  unfold x_qty_tail, Re.seq, Re.star, Re.plus. cbn [fold_right Re.run].
  cbn [chars list_ascii_of_string app].
  apply (star_one is_space _ " "%char "x"%char); [reflexivity|reflexivity|].
  change (x_or_times "x") with true. cbv iota.
  apply (star_one is_space _ " "%char d0); [reflexivity|exact Hsp0|].
  rewrite <- (app_nil_r (d0 :: ds')) at 1.
  apply (rep_greedy_run qty_class _ _ [] I); [|exact Hq|cbn [length]; lia].
  cbn [Re.rep]. rewrite Nat.sub_0_r, firstn_all. reflexivity.
Qed.

Lemma name_x_qty_run {A} n0 s (K : list ascii -> Re.captures -> option A) :
  Re.run n0 name_x_qty s [] K
  = if Nat.eqb (length s) n0
    then Re.rep false is_dot 1 None s
           (fun s' => Re.run n0 x_qty_tail s' [(g_name, take (length s - length s')%nat s)] K)
    else None.
Proof. reflexivity. Qed.

Lemma match_name_x_qty W ds :
  W <> [] -> forallb wchar W = true -> ds <> [] -> forallb is_digit ds = true ->
  exists m, Re.match_ name_x_qty (W ++ chars " x " ++ ds) = Some m
            /\ Re.group g_name m = W /\ Re.group g_qty m = ds.
Proof.
  intros HW Hw Hds Hd.
  destruct W as [|c0 W']; [congruence|clear HW].
  cbn [forallb] in Hw. apply andb_prop in Hw as [Hc0 Hw].
  destruct (wchar_facts c0 Hc0) as (Hdot0 & _ & _).
  set (tail := chars " x " ++ ds).
  exists [(g_qty, ds); (g_name, c0 :: W')]. split; [|split; reflexivity].
  unfold Re.match_. rewrite name_x_qty_run, Nat.eqb_refl.
  fold tail. cbn [app].
  apply rep_lazy_plus.
  - unfold tail. rewrite x_qty_tail_ok by assumption. do 2 f_equal.
    generalize (chars " x " ++ ds). intros t.
    replace (length (c0 :: W' ++ t) - length t)%nat with (length (c0 :: W'))
      by (cbn [length]; rewrite length_app; lia).
    change (c0 :: W' ++ t) with ((c0 :: W') ++ t). rewrite take_app_length. reflexivity.
  - exact Hdot0.
  - rewrite forallb_forall in *. intros c Hc. apply wchar_facts, Hw, Hc.
  - intros w1 c' w2 ->. rewrite forallb_app in Hw. apply andb_prop in Hw as [_ Hw].
    cbn [forallb] in Hw. apply andb_prop in Hw as [Hc' _].
    destruct (wchar_facts c' Hc') as (_ & Hs & Hx).
    apply x_qty_tail_fail; assumption.
Qed.

Lemma not_space_not_tab c : is_space c = false -> ch_eqb c tab = false.
Proof.
  destruct c as [[] [] [] [] [] [] [] []]; vm_compute; intros;
    try discriminate; reflexivity.
Qed.

Lemma replace_tab_id s :
  forallb (fun c => negb (is_space c)) s = true -> replace_char tab space s = s.
Proof.
  unfold replace_char. induction s as [|c s IH]; cbn [forallb map]; [reflexivity|].
  intros H. apply andb_prop in H as [Hc H]. apply negb_true_iff in Hc.
  rewrite (not_space_not_tab c Hc), IH by exact H. reflexivity.
Qed.

Lemma wchar_nospace W :
  forallb wchar W = true -> forallb (fun c => negb (is_space c)) W = true.
Proof.
  rewrite !forallb_forall. intros H c Hc. destruct (wchar_facts c (H c Hc)) as (_ & -> & _).
  reflexivity.
Qed.

Lemma digits_nospace ds :
  forallb is_digit ds = true -> forallb (fun c => negb (is_space c)) ds = true.
Proof.
  rewrite !forallb_forall. intros H c Hc. destruct (digit_line_facts c (H c Hc)) as (-> & _).
  reflexivity.
Qed.

(** The normalisations of a line leave a line [name x qty] as it is. *)
Lemma item_line_strip W ds :
  W <> [] -> forallb wchar W = true -> ds <> [] -> forallb is_digit ds = true ->
  strip (W ++ chars " x " ++ ds) = W ++ chars " x " ++ ds.
Proof.
  intros HW Hw Hds Hd. apply strip_by_keep.
  - destruct W as [|c0 W']; [congruence|]. cbn [app].
    cbn [forallb] in Hw. apply andb_prop in Hw as [Hc0 _].
    apply (wchar_facts c0 Hc0).
  - destruct (exists_last Hds) as (ds0 & z & ->).
    rewrite !rev_app_distr. cbn [rev app].
    rewrite forallb_app in Hd. apply andb_prop in Hd as [_ Hz].
    cbn [forallb] in Hz. apply andb_prop in Hz as [Hz _].
    apply (digit_line_facts z Hz).
Qed.

Lemma item_line_spaces W ds :
  forallb wchar W = true -> ds <> [] -> forallb is_digit ds = true ->
  Re.sub (Re.plus is_space) [space] (W ++ chars " x " ++ ds) = W ++ chars " x " ++ ds.
Proof.
  intros Hw Hds Hd. unfold Re.sub. generalize (length (W ++ chars " x " ++ ds)) as n0.
  intros n0. destruct ds as [|d0 ds']; [congruence|].
  assert (Hd0 : is_space d0 = false).
  { cbn [forallb] in Hd. apply andb_prop in Hd as [Hd0 _]. apply (digit_line_facts d0 Hd0). }
  rewrite sub_spaces_word by (apply wchar_nospace, Hw).
  cbn [chars list_ascii_of_string app].
  rewrite (sub_spaces_blank n0 "x"%char) by reflexivity.
  change ("x"%char :: " "%char :: d0 :: ds') with (["x"%char] ++ space :: d0 :: ds') at 1.
  rewrite (sub_spaces_word n0 ["x"%char] (space :: d0 :: ds') eq_refl). cbn [app].
  rewrite (sub_spaces_blank n0 d0) by exact Hd0.
  rewrite <- (app_nil_r (d0 :: ds')) at 1.
  rewrite sub_spaces_word by (apply digits_nospace, Hd).
  cbn [Re.sub_go]. rewrite app_nil_r. reflexivity.
Qed.

Lemma line_calls_item W ds :
  W <> [] -> forallb wchar W = true ->
  ds <> [] -> forallb is_digit ds = true -> digits_value ds < 2 ^ 53 ->
  line_calls (W ++ chars " x " ++ ds) = Some [(W, digits_value ds)].
Proof.
  intros HW Hw Hds Hd Hsmall. unfold line_calls.
  rewrite (item_line_strip W ds HW Hw Hds Hd).
  destruct (W ++ chars " x " ++ ds) as [|l0 L'] eqn:EL.
  { destruct W; [congruence|discriminate EL]. }
  rewrite <- EL. clear l0 L' EL.
  assert (Hns : forallb (fun c => negb (is_space c)) W = true) by (apply wchar_nospace, Hw).
  assert (Htab : replace_char tab space (W ++ chars " x " ++ ds) = W ++ chars " x " ++ ds).
  { unfold replace_char. rewrite !map_app.
    fold (replace_char tab space W). fold (replace_char tab space ds).
    rewrite (replace_tab_id W Hns), (replace_tab_id ds (digits_nospace ds Hd)). reflexivity. }
  rewrite Htab, (item_line_spaces W ds Hw Hds Hd), (item_line_strip W ds HW Hw Hds Hd).
  destruct (match_name_x_qty W ds HW Hw Hds Hd) as (m & -> & Hn & Hq).
  unfold matched. rewrite Hq, Hn, (number_token_digits ds Hds Hd Hsmall). reflexivity.
Qed.

Lemma call_total_cons c cs k :
  call_total (c :: cs) k = call_total [c] k + call_total cs k.
Proof.
  unfold call_total. cbn [fold_right].
  destruct (_clean_name_fragment c.1) as [|a l]; [lia|].
  destruct ((0 <? c.2) && String.eqb (str (a :: l)) k); lia.
Qed.

Lemma call_total_nonneg cs k : 0 <= call_total cs k.
Proof.
  induction cs as [|c cs IH]; [cbn; lia|].
  rewrite call_total_cons. enough (0 <= call_total [c] k) by lia.
  unfold call_total. cbn [fold_right].
  destruct (_clean_name_fragment c.1) as [|a l]; [lia|].
  destruct (Z.ltb_spec 0 c.2); cbn [andb]; [|lia].
  destruct (String.eqb (str (a :: l)) k); lia.
Qed.

Lemma add_total agg c :
  positive_dict agg ->
  positive_dict (add agg c)
  /\ forall k, default 0 (PyDict.get (add agg c) k)
               = default 0 (PyDict.get agg k) + call_total [c] k.
Proof.
  intros Hpos. unfold add, call_total. cbn [fold_right].
  destruct (_clean_name_fragment c.1) as [|a l]; cbv iota;
    [split; [exact Hpos|intros; lia]|].
  destruct (Z.leb_spec c.2 0) as [Hle|Hlt].
  { replace (0 <? c.2) with false by (symmetry; apply Z.ltb_ge; lia).
    cbn [andb]. split; [exact Hpos|intros; lia]. }
  replace (0 <? c.2) with true by (symmetry; apply Z.ltb_lt; lia). cbn [andb].
  assert (Hold : 0 <= default 0 (PyDict.get agg (str (a :: l)))).
  { destruct (PyDict.get agg (str (a :: l))) as [v|] eqn:E; cbn [from_option]; unfold id; [|lia].
    specialize (Hpos _ _ E). lia. }
  split.
  - intros k v. rewrite dict_get_set.
    destruct (decide (str (a :: l) = k)); [|apply Hpos].
    intros Hv. injection Hv as Hv.
    change (String a (str l)) with (str (a :: l)) in Hv. lia.
  - intros k. rewrite dict_get_set.
    destruct (decide (str (a :: l) = k)) as [Heq|Hne].
    + rewrite (proj2 (String.eqb_eq _ _) Heq). subst k. cbn [from_option]. unfold id. lia.
    + rewrite (proj2 (String.eqb_neq _ _) Hne). lia.
Qed.

Lemma fold_add_total cs : forall agg,
  positive_dict agg ->
  positive_dict (fold_left add cs agg)
  /\ forall k, default 0 (PyDict.get (fold_left add cs agg) k)
               = default 0 (PyDict.get agg k) + call_total cs k.
Proof.
  induction cs as [|c cs IH]; intros agg Hpos; cbn [fold_left].
  - split; [exact Hpos|]. intros k. cbn. lia.
  - destruct (add_total agg c Hpos) as [Hpos' Hval].
    destruct (IH _ Hpos') as [Hpos'' Hval'].
    split; [exact Hpos''|]. intros k.
    rewrite Hval', Hval, (call_total_cons c cs). lia.
Qed.

(** The dictionary built from the calls holds, for each key, the sum of
    the quantities of the calls whose name cleans to the key. *)
Lemma fold_add_entries cs k :
  PyDict.get (fold_left add cs []) k = entry_of (call_total cs k).
Proof.
  assert (H0 : positive_dict []) by (intros k0 v0; cbn; discriminate).
  destruct (fold_add_total cs [] H0) as [Hpos Hval]. specialize (Hval k).
  cbn [PyDict.get from_option] in Hval. unfold id in Hval. unfold entry_of.
  destruct (PyDict.get (fold_left add cs []) k) as [v|] eqn:E; cbn [from_option] in Hval; unfold id in Hval.
  - specialize (Hpos _ _ E).
    replace (call_total cs k) with v by lia.
    rewrite (proj2 (Z.ltb_lt 0 v) Hpos). reflexivity.
  - replace (call_total cs k) with 0 by lia. reflexivity.
Qed.

Lemma name_char_wchar c : name_char c = true -> wchar c = true.
Proof.
  intros H. destruct (name_char_facts c H) as (Hs & Hx & Hd & _).
  unfold wchar. rewrite Hs, Hx, Hd. reflexivity.
Qed.

Lemma written_wchar q n : forallb name_char n = true -> forallb wchar (written q n) = true.
Proof.
  intros Hn.
  assert (H : forallb wchar n = true).
  { rewrite forallb_forall in *. intros c Hc. apply name_char_wchar, Hn, Hc. }
  destruct q; cbn [written]; [exact H| |];
    cbn [forallb]; rewrite forallb_app, H; reflexivity.
Qed.

Lemma written_nonempty q n : n <> [] -> written q n <> [].
Proof. destruct q; cbn [written]; [auto|discriminate|discriminate]. Qed.

Lemma ends_by (p : ascii -> bool) s :
  forallb (fun c => negb (p c)) s = true ->
  match s with a :: _ => p a = false | [] => True end
  /\ match rev s with z :: _ => p z = false | [] => True end.
Proof.
  intros H. rewrite forallb_forall in H. split.
  - destruct s as [|a s']; [exact I|]. apply negb_true_iff, H. left. reflexivity.
  - destruct (rev s) as [|z r] eqn:E; [exact I|].
    apply negb_true_iff, H, in_rev. rewrite E. left. reflexivity.
Qed.

Lemma strip_by_quoted p a s :
  p a = true -> s <> [] -> forallb (fun c => negb (p c)) s = true ->
  strip_by p (a :: s ++ [a]) = s.
Proof.
  intros Ha Hs Hall. destruct (ends_by p s Hall) as [Hh Hl].
  unfold strip_by, rstrip_by. cbn [lstrip_by]. rewrite Ha.
  destruct s as [|c s']; [congruence|]. cbn [app lstrip_by]. rewrite Hh.
  change (c :: s' ++ [a]) with ((c :: s') ++ [a]).
  rewrite rev_app_distr. cbn [rev app lstrip_by]. rewrite Ha.
  cbn [rev] in Hl. destruct (rev s' ++ [c]) as [|z r] eqn:E.
  { destruct (rev s'); discriminate E. }
  cbn [lstrip_by]. rewrite Hl, <- E.
  change (rev s' ++ [c]) with (rev (c :: s')). apply rev_involutive.
Qed.

Lemma strip_by_plain p s :
  forallb (fun c => negb (p c)) s = true -> strip_by p s = s.
Proof. intros H. destruct (ends_by p s H). apply strip_by_keep; assumption. Qed.

Lemma name_chars_avoid (p : ascii -> bool) n :
  (forall c, name_char c = true -> p c = false) ->
  forallb name_char n = true -> forallb (fun c => negb (p c)) n = true.
Proof.
  intros Hp Hn. rewrite forallb_forall in *. intros c Hc.
  rewrite (Hp c (Hn c Hc)). reflexivity.
Qed.

Lemma sub_tail_word n0 w :
  forallb name_char w = true ->
  Re.sub_go n0
    (Re.seq [Re.star is_space; Re.Chr (one_of ":|,-"); Re.star is_space; Re.Eol]) [] w 0
  = w.
Proof.
  induction w as [|c w IH]; intros Hw; [reflexivity|].
  cbn [forallb] in Hw. apply andb_prop in Hw as [Hc Hw].
  destruct (name_char_facts c Hc) as (Hs & _ & _ & _ & _ & _ & Hsep & _).
  cbn [Re.sub_go Re.match_len Re.run Re.seq fold_right Re.star Re.rep].
  rewrite Hs, Hsep. cbn [andb]. f_equal. apply IH, Hw.
Qed.

(** Cleaning a written name gives the name. *)
Lemma clean_written q n :
  n <> [] -> forallb name_char n = true -> _clean_name_fragment (written q n) = n.
Proof.
  intros Hne Hn. unfold _clean_name_fragment.
  assert (Hsp : forallb (fun c => negb (is_space c)) n = true)
    by (apply name_chars_avoid; [intros c Hc; apply (name_char_facts c Hc)|exact Hn]).
  assert (Hdq : forallb (fun c => negb (ch_eqb (chr 34) c)) n = true).
  { apply name_chars_avoid; [|exact Hn]. intros c Hc.
    destruct (name_char_facts c Hc) as (_ & _ & _ & _ & H & _).
    unfold ch_eqb in *. rewrite Ascii.eqb_sym. exact H. }
  assert (Hsq : forallb (fun c => negb (one_of "'" c)) n = true)
    by (apply name_chars_avoid; [intros c Hc; apply (name_char_facts c Hc)|exact Hn]).
  assert (Hstrip : strip_by (one_of "'") (strip_by (ch_eqb (chr 34)) (strip (written q n))) = n).
  { unfold strip. destruct q; cbn [written].
    - rewrite (strip_by_plain is_space n Hsp), (strip_by_plain _ n Hdq).
      apply strip_by_plain, Hsq.
    - rewrite (strip_by_plain is_space).
      2:{ cbn [forallb]. rewrite forallb_app, Hsp. reflexivity. }
      rewrite (strip_by_quoted _ (chr 34) n eq_refl Hne Hdq).
      apply strip_by_plain, Hsq.
    - rewrite (strip_by_plain is_space).
      2:{ cbn [forallb]. rewrite forallb_app, Hsp. reflexivity. }
      rewrite (strip_by_plain (ch_eqb (chr 34))).
      2:{ cbn [forallb]. rewrite forallb_app, Hdq. reflexivity. }
      apply (strip_by_quoted _ "'"%char n eq_refl Hne Hsq). }
  assert (Hsub : Re.sub (Re.plus is_space) [space] n = n).
  { unfold Re.sub. pose proof (sub_spaces_word (length n) n [] Hsp) as H.
    rewrite !app_nil_r in H. exact H. }
  rewrite Hstrip, Hsub. apply sub_tail_word, Hn.
Qed.

Lemma line_calls_item_line it :
  item_ok it -> line_calls (item_line it) = Some [item_call it].
Proof.
  destruct it as [[q n] ds]. unfold item_ok, item_line, item_call. cbn [fst snd].
  intros (Hne & Hn & Hds & Hd & Hsmall).
  apply line_calls_item; auto using written_nonempty, written_wchar.
Qed.

Lemma all_calls_items items :
  Forall item_ok items -> all_calls (map item_line items) = Some (map item_call items).
Proof.
  induction 1 as [|it items Hit _ IH]; [reflexivity|].
  cbn [map all_calls]. rewrite (line_calls_item_line it Hit), IH. reflexivity.
Qed.

Lemma call_total_items items k :
  Forall item_ok items -> call_total (map item_call items) k = item_total items k.
Proof.
  induction 1 as [|it items Hit _ IH]; [reflexivity|].
  cbn [map]. rewrite call_total_cons, IH. unfold item_total at 2. cbn [fold_right].
  fold (item_total items k).
  destruct it as [[q n] ds]. destruct Hit as (Hne & Hn & Hds & Hd & Hsmall).
  cbn [fst snd] in *. unfold call_total, item_call. cbn [fold_right fst snd].
  rewrite (clean_written q n Hne Hn).
  pose proof (digits_value_nonneg ds Hd) as H0.
  destruct n as [|a l]; [congruence|].
  destruct (String.eqb (str (a :: l)) k).
  - destruct (Z.ltb_spec 0 (digits_value ds)); cbn [andb]; lia.
  - rewrite andb_false_r. lia.
Qed.

Lemma item_line_chars it : item_ok it -> forallb line_char (item_line it) = true.
Proof.
  destruct it as [[q n] ds]. unfold item_ok, item_line. cbn [fst snd].
  intros (Hne & Hn & Hds & Hd & Hsmall).
  assert (H1 : forallb line_char n = true).
  { rewrite forallb_forall in *. intros c Hc. unfold line_char.
    destruct (name_char_facts c (Hn c Hc)) as (_ & _ & _ & _ & _ & _ & _ & _ & ->).
    reflexivity. }
  assert (H2 : forallb line_char ds = true).
  { rewrite forallb_forall in *. intros c Hc. unfold line_char.
    destruct (digit_line_facts c (Hd c Hc)) as (_ & _ & _ & _ & ->). reflexivity. }
  rewrite !forallb_app, H2. cbn [chars list_ascii_of_string forallb].
  destruct q; cbn [written forallb]; rewrite ?forallb_app, H1; reflexivity.
Qed.

Lemma item_line_nonempty it : item_ok it -> item_line it <> [].
Proof.
  destruct it as [[q n] ds]. unfold item_ok, item_line. cbn [fst snd].
  intros (Hne & _). destruct q; cbn [written]; [|discriminate|discriminate].
  destruct n; [congruence|discriminate].
Qed.

Lemma split_chars n0 l : forall rest cur,
  forallb line_char l = true ->
  Re.split_go n0 line_seps (l ++ rest) 0 cur
  = Re.split_go n0 line_seps rest 0 (rev l ++ cur).
Proof.
  induction l as [|c l IH]; intros rest cur Hl; [reflexivity|].
  cbn [forallb] in Hl. apply andb_prop in Hl as [Hc Hl].
  unfold line_char in Hc. apply negb_true_iff in Hc.
  cbn [app Re.split_go Re.match_len Re.run line_seps Re.plus Re.rep].
  rewrite Hc. cbn [andb]. rewrite IH by exact Hl.
  cbn [rev]. rewrite <- app_assoc. reflexivity.
Qed.

Lemma split_newline n0 c rest cur :
  line_char c = true ->
  Re.split_go n0 line_seps (newline :: c :: rest) 0 cur
  = rev cur :: Re.split_go n0 line_seps (c :: rest) 0 [].
Proof.
  intros Hc. unfold line_char in Hc. apply negb_true_iff in Hc.
  cbn [Re.split_go Re.match_len Re.run line_seps Re.plus Re.rep].
  change (one_of ";" newline || ch_eqb newline newline || ch_eqb newline (chr 13)) with true.
  rewrite Hc. cbn [andb negb Re.exhausted fmap option_fmap option_map].
  replace (length (newline :: c :: rest) - length (c :: rest))%nat with 1%nat
    by (cbn [length]; lia).
  reflexivity.
Qed.

(** Splitting the joined lines gives the lines back. *)
Lemma split_join_lines n0 ls :
  ls <> [] -> Forall (fun l => l <> [] /\ forallb line_char l = true) ls ->
  Re.split_go n0 line_seps (join_lines ls) 0 [] = ls.
Proof.
  intros Hne Hall. induction Hall as [|l rest [Hl Hc] Hrest IH]; [congruence|].
  destruct rest as [|l2 rest'].
  - cbn [join_lines]. rewrite <- (app_nil_r l) at 1.
    rewrite split_chars by exact Hc. cbn [Re.split_go].
    rewrite app_nil_r, rev_involutive. reflexivity.
  - change (join_lines (l :: l2 :: rest')) with (l ++ newline :: join_lines (l2 :: rest')).
    rewrite split_chars by exact Hc. rewrite app_nil_r.
    assert (Hhead : exists c t, join_lines (l2 :: rest') = c :: t /\ line_char c = true).
    { inversion Hrest as [|? ? [Hl2 Hc2] _]; subst.
      destruct l2 as [|c l2']; [congruence|].
      cbn [forallb] in Hc2. apply andb_prop in Hc2 as [Hc2 _].
      exists c. destruct rest'; cbn [join_lines app]; eauto. }
    destruct Hhead as (c & t & Ej & Hcc).
    specialize (IH ltac:(discriminate)). rewrite Ej in *.
    rewrite split_newline by exact Hcc. rewrite rev_involutive, IH. reflexivity.
Qed.

(** The parse of a text of item lines: each name with the sum of its
    quantities. *)
Lemma parse_items items :
  Forall item_ok items ->
  exists r, parse_input_lines (str (join_lines (map item_line items))) = Some r
            /\ forall k, PyDict.get r k = entry_of (item_total items k).
Proof.
  intros Hok. unfold parse_input_lines, chars.
  rewrite list_ascii_of_string_of_list_ascii.
  destruct items as [|it items'].
  { exists []. split; reflexivity. }
  set (items := it :: items') in *.
  assert (Hlines : Re.split line_seps (join_lines (map item_line items)) = map item_line items).
  { unfold Re.split. apply split_join_lines; [discriminate|].
    apply Forall_map. eapply Forall_impl; [|exact Hok].
    intros x Hx. cbn beta. split; [apply item_line_nonempty|apply item_line_chars]; exact Hx. }
  destruct (join_lines (map item_line items)) as [|c0 t0] eqn:Ej.
  { exfalso. subst items. cbn [map join_lines] in Ej.
    inversion Hok as [|? ? Hit _]; subst.
    pose proof (item_line_nonempty it Hit) as Hn.
    destruct (item_line it); [congruence|].
    destruct (map item_line items'); discriminate Ej. }
  rewrite Hlines, lines_loop_all_calls, (all_calls_items items Hok).
  eexists. split; [reflexivity|]. intros k.
  rewrite fold_add_entries. f_equal. apply call_total_items, Hok.
Qed.

(** C9.  Quantities are aggregated by the cleaned name, whatever the order
    of the lines.  The two lines ["Tritanium x 100"] and ["Tritanium x 50"]
    give the single entry [("Tritanium", 150)]; a result has one entry per
    name; two texts whose lines are permutations of each other give the
    same (name, quantity) pairs (or both raise).  For every text, the
    parse returns exactly when every line yields its calls of [add], and
    the entry of a key is then the sum of the positive quantities of the
    calls whose name cleans to that key (no entry when there is none).
    For every text of lines [name x qty], the name of letters, bare or in
    double or single quotes, the entry of a name is the sum of the
    quantities written for it.  A quoted name, a name followed by a colon
    and the names of a line cut at [|] are summed under the cleaned name,
    and names that differ in case are kept apart. *)
Theorem C9_aggregation_order_irrelevant (raw1 raw2 : string)
    (Hperm : Permutation (raw_lines raw1) (raw_lines raw2)) :
  parse_input_lines ("Tritanium x 100" ++ Demo.newline_text ++ "Tritanium x 50")
    = Some [("Tritanium"%string, 150)]
  /\ (forall r, parse_input_lines raw1 = Some r -> List.NoDup (map fst r))
  /\ same_items (parse_input_lines raw1) (parse_input_lines raw2)
  /\ match all_calls (raw_lines raw1) with
     | Some cs =>
         exists r, parse_input_lines raw1 = Some r
                   /\ forall k, PyDict.get r k = entry_of (call_total cs k)
     | None => parse_input_lines raw1 = None
     end
  /\ (forall items, Forall item_ok items ->
        exists r, parse_input_lines (str (join_lines (map item_line items))) = Some r
                  /\ forall k, PyDict.get r k = entry_of (item_total items k))
  /\ parse_input_lines ("'Tritanium' x 100" ++ Demo.newline_text ++ "Tritanium x 50")
       = Some [("Tritanium"%string, 150)]
  /\ parse_input_lines
       (str (written double_quoted (chars "Tritanium")
             ++ chars " x 100;Tritanium x 50"))
       = Some [("Tritanium"%string, 150)]
  /\ parse_input_lines ("Tritanium: x 100" ++ Demo.newline_text ++ "Tritanium x 50")
       = Some [("Tritanium"%string, 150)]
  /\ parse_input_lines ("Tritanium 100 | Pyerite" ++ Demo.newline_text
                        ++ "Tritanium 50 | Pyerite")
       = Some [("Tritanium"%string, 150); ("Pyerite"%string, 2)]
  /\ parse_input_lines ("Tritanium x 1" ++ Demo.newline_text ++ "tritanium x 2")
       = Some [("Tritanium"%string, 1); ("tritanium"%string, 2)].
Proof.
  split; [vm_compute; reflexivity|]. split; [intros r; apply parse_keys_NoDup|].
  split; [apply parse_perm, Hperm|]. split.
  { unfold raw_lines. rewrite parse_is_lines_loop, lines_loop_all_calls.
    destruct (all_calls _) as [cs|]; [|reflexivity].
    eexists. split; [reflexivity|]. intros k. apply fold_add_entries. }
  split; [exact parse_items|].
  repeat split; vm_compute; reflexivity.
Qed.

(** Three lines in two orders. *)
Lemma C9_aggregation_witness :
  same_items
    (parse_input_lines ("Pyerite x 2" ++ Demo.newline_text ++ "Tritanium x 100"
                        ++ Demo.newline_text ++ "Pyerite x 3"))
    (parse_input_lines ("Tritanium x 100" ++ Demo.newline_text ++ "Pyerite x 3"
                        ++ Demo.newline_text ++ "Pyerite x 2")).
Proof.
  refine (proj1 (proj2 (proj2 (C9_aggregation_order_irrelevant
           ("Pyerite x 2" ++ Demo.newline_text ++ "Tritanium x 100"
            ++ Demo.newline_text ++ "Pyerite x 3")
           ("Tritanium x 100" ++ Demo.newline_text ++ "Pyerite x 3"
            ++ Demo.newline_text ++ "Pyerite x 2") _)))).
  vm_compute.
  eapply perm_trans; [apply perm_swap|]. apply perm_skip, perm_swap.
Defined.

End parser_sum_facts.

(** ** Facility bonuses and the refine rate *)

Section half_up_facts.
Import Helper Facility.

Lemma div_half_up_exact q d : 0 < d -> Num.div_half_up (q * d) d = q.
Proof.
  intros Hd. unfold Num.div_half_up.
  destruct (Z.leb_spec 0 (q * d)) as [H|H].
  - replace (2 * (q * d) + d) with (d + q * (2 * d)) by lia.
    rewrite Z.div_add by lia. rewrite Z.div_small by lia. lia.
  - replace (2 * - (q * d) + d) with (d + (- q) * (2 * d)) by lia.
    rewrite Z.div_add by lia. rewrite Z.div_small by lia. lia.
Qed.

Lemma div_half_up_cancel n d g : 0 < d -> 0 < g ->
  Num.div_half_up (n * g) (d * g) = Num.div_half_up n d.
Proof.
  intros Hd Hg. unfold Num.div_half_up.
  assert (Hs : (0 <=? n * g) = (0 <=? n)).
  { destruct (Z.leb_spec 0 n), (Z.leb_spec 0 (n * g)); try reflexivity; nia. }
  rewrite Hs. destruct (0 <=? n).
  - replace (2 * (n * g) + d * g) with ((2 * n + d) * g) by lia.
    replace (2 * (d * g)) with ((2 * d) * g) by lia.
    rewrite Z.div_mul_cancel_r by lia. reflexivity.
  - replace (2 * - (n * g) + d * g) with ((2 * - n + d) * g) by lia.
    replace (2 * (d * g)) with ((2 * d) * g) by lia.
    rewrite Z.div_mul_cancel_r by lia. reflexivity.
Qed.

(** The reduced fraction of [dval c j] and the factor taken out. *)
Lemma dval_reduced c j : 0 <= j ->
  exists g, 0 < g /\ c = Qnum (this (dval c j)) * g
            /\ 10 ^ j = Zpos (Qden (this (dval c j))) * g.
Proof.
  intros Hj. pose proof (pow10_pos j Hj) as Hp.
  unfold dval. cbn [this Q2Qc].
  pose proof (Qred_correct (c # Z.to_pos (10 ^ j))) as Hr.
  unfold Qred in *. cbn [Qnum Qden] in *.
  pose proof (Z.ggcd_gcd c (Zpos (Z.to_pos (10 ^ j)))) as Hg.
  pose proof (Z.ggcd_correct_divisors c (Zpos (Z.to_pos (10 ^ j)))) as Hd.
  destruct (Z.ggcd c (Zpos (Z.to_pos (10 ^ j)))) as [g [aa bb]].
  cbn [fst snd] in *. cbn [Qnum Qden].
  rewrite Z2Pos.id in Hd by assumption. destruct Hd as [Ha Hb].
  assert (Hg0 : 0 <= g) by (rewrite Hg; apply Z.gcd_nonneg).
  assert (Hgne : g <> 0) by (intros ->; lia).
  assert (Hbb : 0 < bb) by nia.
  exists g. rewrite Z2Pos.id by assumption. split; [lia|]. split; lia.
Qed.

Lemma rescale_half_up_dval c j : 0 <= j ->
  Decimal.rescale Decimal.ROUND_HALF_UP 0 (dval c j) = Num.div_half_up c (10 ^ j).
Proof.
  intros Hj. unfold Decimal.rescale, Num.scaled.
  destruct (dval_reduced c j Hj) as (g & Hg & Hc & Hp).
  set (n := Qnum (this (dval c j))) in *. set (d := Zpos (Qden (this (dval c j)))) in *.
  change (- 0 <=? 0) with true. cbv iota beta. change (10 ^ (- 0)) with 1.
  assert (Hd : 0 < d) by (unfold d; lia). clearbody n d.
  rewrite Z.mul_1_r, Hp. subst c.
  symmetry. apply div_half_up_cancel; lia.
Qed.

Lemma rescale_half_up_exact c j : 0 <= j ->
  Decimal.rescale Decimal.ROUND_HALF_UP j (dval c j) = c.
Proof.
  intros Hj. unfold Decimal.rescale, Num.scaled.
  destruct (Z.leb_spec (- j) 0); [|lia].
  rewrite Z.opp_involutive, dval_cross by assumption.
  apply div_half_up_exact. lia.
Qed.

Lemma quantize_half_up_dval c j : 0 <= j -> Z.abs c < 10 ^ 28 ->
  Decimal.quantize Decimal.ROUND_HALF_UP j (dval c j) = Some (dval c j).
Proof.
  intros Hj Hc. unfold Decimal.quantize. rewrite rescale_half_up_exact by assumption.
  unfold Decimal.prec. destruct (Z.leb_spec (10 ^ 28) (Z.abs c)); [lia|].
  rewrite lit_dval by assumption. reflexivity.
Qed.

Lemma sales_tax_pct_exact l : Z.abs l <= 10 ^ 20 ->
  sales_tax_pct l = Some (dval (Z.max 0 (7500 - 825 * l)) 3).
Proof.
  intros Hl. unfold sales_tax_pct, Decimal.mul, Decimal.sub.
  rewrite !lit_dval, !of_Z_dval by lia.
  rewrite dval_mul, fix_exact by (simpl; lia). simpl (2 + 0).
  rewrite (dval_scale 1 0 2) by lia. simpl (0 + 2). rewrite dval_lt by lia.
  destruct (Z.ltb_spec (1 * 10 ^ 2) (11 * l)) as [H|H].
  - rewrite dval_sub, fix_exact by (simpl; lia).
    rewrite dval_mul, fix_exact by (simpl; lia).
    change (1 + (0 + 2)) with 3.
    rewrite quantize_half_up_dval by (simpl; lia).
    f_equal. f_equal. simpl in H. simpl. lia.
  - rewrite dval_sub, fix_exact by (simpl in *; lia).
    rewrite dval_mul, fix_exact by (simpl in *; lia).
    change (1 + (0 + 2)) with 3.
    rewrite quantize_half_up_dval by (simpl in *; lia).
    f_equal. f_equal. simpl in *. lia.
Qed.

End half_up_facts.

Section sales_tax_facts.
Import Helper Facility Request.

(** X3.  For a level of absolute value up to 10^20, [sales_tax_pct]
    returns max(0, 7.5 * (1 - 0.11 * level)), exactly: the result has
    three decimals and no rounding takes place.  For a
    level of at least 0 the tax lies between 0 and 7.5 per cent, and from
    level 10 on it is 0. *)
Theorem X3_sales_tax (level : Z) (Hlevel : Z.abs level <= 10 ^ 20) :
  exists t, sales_tax_pct level = Some t
    /\ (this t == Qmax 0 ((75 # 10) * (1 - (11 # 100) * inject_Z level)))%Q
    /\ (0 <= level -> (0 <= this t)%Q /\ (this t <= 75 # 10)%Q)
    /\ (10 <= level -> (this t == 0)%Q).
Proof.
  exists (dval (Z.max 0 (7500 - 825 * level)) 3).
  split; [apply sales_tax_pct_exact, Hlevel|].
  rewrite dval_Q by lia. change (inject_Z (10 ^ 3)) with 1000%Q.
  destruct (Z_le_gt_dec level 9) as [Hle|Hgt].
  - rewrite Z.max_r by lia. split; [|split].
    + rewrite Q.max_r.
      * unfold Z.sub. rewrite inject_Z_plus, inject_Z_opp, inject_Z_mult.
        change (inject_Z 7500) with 7500%Q. change (inject_Z 825) with 825%Q. field.
      * unfold Qle, Qmult, Qminus, Qplus, Qopp, inject_Z. simpl. lia.
    + intros H0. split; unfold Qle, Qdiv, Qmult, Qinv, inject_Z; simpl; lia.
    + lia.
  - rewrite Z.max_l by lia. split; [|split].
    + rewrite Q.max_l; [reflexivity|].
      unfold Qle, Qmult, Qminus, Qplus, Qopp, inject_Z. simpl. lia.
    + intros _. split; unfold Qle; simpl; lia.
    + intros _. reflexivity.
Qed.

(** Accounting at level 5 gives 3.375 per cent. *)
Lemma X3_sales_tax_witness :
  exists t, sales_tax_pct 5 = Some t /\ (this t == 3375 # 1000)%Q.
Proof.
  destruct (X3_sales_tax 5) as (t & Ht & Hv & _).
  - vm_compute. discriminate.
  - exists t. split; [exact Ht|]. rewrite Hv. vm_compute. reflexivity.
Defined.

Lemma me_bonus_pct_values rig location :
  exists k, me_bonus_pct rig location = Some (Decimal.lit k 3)
    /\ (k = 0 \/ k = 2000 \/ k = 2200 \/ k = 2400 \/ k = 2640)
    /\ (String.eqb rig "t1" = false -> String.eqb rig "t2" = false -> k = 0).
Proof.
  unfold me_bonus_pct, LOCATION_MULT.
  destruct (String.eqb rig "t1"), (String.eqb rig "t2"),
    (String.eqb location "low"), (String.eqb location "null"), (String.eqb location "wh");
  first [ exists 0; split; [vm_compute; reflexivity|split; [tauto|intros; congruence]]
        | exists 2000; split; [vm_compute; reflexivity|split; [tauto|intros; congruence]]
        | exists 2200; split; [vm_compute; reflexivity|split; [tauto|intros; congruence]]
        | exists 2400; split; [vm_compute; reflexivity|split; [tauto|intros; congruence]]
        | exists 2640; split; [vm_compute; reflexivity|split; [tauto|intros; congruence]] ].
Qed.

End sales_tax_facts.

Section facility_facts.
Import Helper Facility Request.

Lemma eff_qty_dval base_q k :
  0 <= k <= 100000 -> 0 < base_q -> base_q * 100000 < 10 ^ 28 ->
  eff_qty base_q (Decimal.lit k 3) = - ((- (base_q * (100000 - k))) / 100000).
Proof.
  intros Hk Hq Hb. unfold eff_qty, Decimal.mul.
  rewrite (me_factor_dval k 3) by (simpl; lia).
  rewrite of_Z_dval, dval_mul, fix_exact by (simpl; try lia; nia).
  rewrite ceil_dval by lia. reflexivity.
Qed.

(** X4.  [me_bonus_pct] never raises and returns a bonus between 0 and
    2.64 per cent, whatever the rig and the location; the effective
    quantity [eff_qty] of a requirement of 1 to 2147483647 units under
    that bonus lies between 1 and the base quantity, and it is the base
    quantity when the rig is neither "t1" nor "t2". *)
Theorem X4_me_bonus_bounds (rig_me location : string) (base_q : Z)
    (Hq : 1 <= base_q <= 2147483647) :
  exists b, me_bonus_pct rig_me location = Some b
    /\ (0 <= this b)%Q /\ (this b <= 264 # 100)%Q
    /\ 1 <= eff_qty base_q b <= base_q
    /\ (String.eqb rig_me "t1" = false -> String.eqb rig_me "t2" = false ->
        eff_qty base_q b = base_q).
Proof.
  destruct (me_bonus_pct_values rig_me location) as (k & Hb & Hk & Hnone).
  exists (Decimal.lit k 3). split; [exact Hb|].
  assert (Hk' : 0 <= k <= 2640) by lia.
  rewrite lit_dval, dval_Q by lia. change (inject_Z (10 ^ 3)) with 1000%Q.
  split; [|split; [|split]].
  - unfold Qle, Qdiv, Qmult, Qinv, inject_Z. simpl. lia.
  - unfold Qle, Qdiv, Qmult, Qinv, inject_Z. simpl. lia.
  - rewrite <- lit_dval by lia. rewrite eff_qty_dval by lia.
    assert (H1 : - base_q <= - (base_q * (100000 - k)) / 100000).
    { apply Z.div_le_lower_bound; nia. }
    assert (H2 : - (base_q * (100000 - k)) / 100000 < 0).
    { apply Z.div_lt_upper_bound; nia. }
    lia.
  - intros H1 H2. rewrite (Hnone H1 H2). rewrite <- lit_dval by lia.
    rewrite eff_qty_dval by lia.
    replace (- (base_q * (100000 - 0))) with ((- base_q) * 100000) by lia.
    rewrite Z.div_mul by lia. lia.
Qed.

(** A T2 rig in null security, 100 units. *)
Lemma X4_me_bonus_witness :
  exists b, me_bonus_pct "t2" "null" = Some b /\ 1 <= eff_qty 100 b <= 100.
Proof.
  destruct (X4_me_bonus_bounds "t2" "null" 100) as (b & Hb & _ & _ & He & _).
  - lia.
  - exists b. split; assumption.
Defined.

Lemma te_bonus_pct_values rig location :
  exists k, te_bonus_pct rig location = Some (Decimal.lit k 3)
    /\ (k = 0 \/ k = 20000 \/ k = 22000 \/ k = 24000 \/ k = 26400).
Proof.
  unfold te_bonus_pct, LOCATION_MULT.
  destruct (String.eqb rig "t1"), (String.eqb rig "t2"),
    (String.eqb location "low"), (String.eqb location "null"), (String.eqb location "wh");
  first [ exists 0; split; [vm_compute; reflexivity|tauto]
        | exists 20000; split; [vm_compute; reflexivity|tauto]
        | exists 22000; split; [vm_compute; reflexivity|tauto]
        | exists 24000; split; [vm_compute; reflexivity|tauto]
        | exists 26400; split; [vm_compute; reflexivity|tauto] ].
Qed.

Lemma effective_time_exact base skill size k :
  0 <= base <= 10 ^ 15 -> 0 <= skill <= 25 -> 0 <= k <= 100000 ->
  effective_time_seconds base skill size (Decimal.lit k 3)
  = Num.div_half_up (base * (100 - 4 * skill) * size_left size * (100000 - k)) (10 ^ 10).
Proof.
  intros Hb Hs Hk. unfold effective_time_seconds, Decimal.mul, Decimal.sub, Decimal.div.
  assert (Hsz : size_time_bonus_pct size = dval (1000 - size_left size) 1
                /\ (size_left size = 750 \/ size_left size = 800)).
  { unfold size_time_bonus_pct, size_left. destruct (String.eqb size "large");
      rewrite lit_dval by lia; split; try reflexivity; tauto. }
  destruct Hsz as [-> Hsl].
  rewrite !lit_dval, !of_Z_dval by lia.
  (* skill *)
  rewrite dval_mul, fix_exact by (simpl; lia). simpl (2 + 0).
  rewrite (dval_scale 1 0 2) at 1 by lia. simpl (0 + 2).
  rewrite dval_sub, fix_exact by (simpl; lia).
  rewrite dval_mul, fix_exact by (simpl in *; try lia; nia).
  (* size *)
  change (dval 100 0) with (dval (10 ^ 2) 0).
  rewrite (dval_div_pow10 (1000 - size_left size) 1 2), fix_exact by (simpl; lia).
  rewrite (dval_scale 1 0 3) at 1 by lia. simpl (0 + 3). simpl (1 + 2).
  rewrite dval_sub, fix_exact by (simpl; lia).
  rewrite dval_mul, fix_exact by (simpl in *; try lia; nia).
  (* rig *)
  rewrite (dval_div_pow10 k 3 2), fix_exact by (simpl; lia).
  rewrite (dval_scale 1 0 5) by lia. simpl (0 + 5). simpl (3 + 2).
  rewrite dval_sub, fix_exact by (simpl; lia).
  rewrite dval_mul, fix_exact by (simpl in *; try lia; nia).
  rewrite rescale_half_up_dval by lia.
  f_equal. simpl. lia.
Qed.

(** X5.  [te_bonus_pct] never raises and returns a bonus k/1000 per cent;
    for a base time of 0 to 10^15 seconds and a skill level of 0 to 5,
    [effective_time_seconds] under that bonus is the base time times
    (1 - 0.04 * skill), times 0.75 for a large facility and 0.80
    otherwise, times (1 - k/100000), rounded half up to whole seconds: no
    intermediate rounding takes place.  The result lies between 0 and the
    base time. *)
Theorem X5_effective_time (base skill : Z) (size rig_te location : string)
    (Hbase : 0 <= base <= 10 ^ 15) (Hskill : 0 <= skill <= 5) :
  exists k, te_bonus_pct rig_te location = Some (Decimal.lit k 3)
    /\ effective_time_seconds base skill size (Decimal.lit k 3)
       = Num.div_half_up (base * (100 - 4 * skill) * size_left size * (100000 - k))
           (10 ^ 10)
    /\ 0 <= effective_time_seconds base skill size (Decimal.lit k 3) <= base.
Proof.
  destruct (te_bonus_pct_values rig_te location) as (k & Hte & Hk).
  exists k. split; [exact Hte|].
  rewrite effective_time_exact by lia. split; [reflexivity|].
  assert (Hsl : size_left size = 750 \/ size_left size = 800)
    by (unfold size_left; destruct (String.eqb size "large"); tauto).
  set (n := base * (100 - 4 * skill) * size_left size * (100000 - k)).
  assert (Hn : 0 <= n <= base * 10 ^ 10).
  { unfold n. change (10 ^ 10) with (100 * 1000 * 100000).
    assert (0 <= (100 - 4 * skill) <= 100) by lia.
    assert (0 <= size_left size <= 1000) by lia.
    assert (0 <= 100000 - k <= 100000) by lia.
    split; [repeat apply Z.mul_nonneg_nonneg; lia|].
    rewrite !Z.mul_assoc.
    repeat (apply Z.mul_le_mono_nonneg; try lia; try (repeat apply Z.mul_nonneg_nonneg; lia)). }
  unfold Num.div_half_up. destruct (Z.leb_spec 0 n); [|lia].
  split.
  - apply Z.div_pos; lia.
  - assert (H1 : (2 * n + 10 ^ 10) / (2 * 10 ^ 10) < base + 1); [|lia].
    apply Z.div_lt_upper_bound; [lia|].
    change (10 ^ 10) with 10000000000 in *. lia.
Qed.

(** One hour at skill 5 in a large facility with a T2 rig in null security. *)
Lemma X5_effective_time_witness :
  exists k, te_bonus_pct "t2" "null" = Some (Decimal.lit k 3)
    /\ 0 <= effective_time_seconds 3600 5 "large" (Decimal.lit k 3) <= 3600.
Proof.
  destruct (X5_effective_time 3600 5 "large" "t2" "null") as (k & Hk & _ & Hb).
  - vm_compute. split; discriminate.
  - lia.
  - exists k. split; assumption.
Defined.

End facility_facts.

Section refine_rate_facts.
Import Helper Request.

Lemma dval_eqb_zero c j : 0 <= j -> Decimal.eqb (dval c j) Decimal.zero = (c =? 0).
Proof.
  intros Hj. unfold Decimal.eqb. pose proof (pow10_pos j Hj) as Hp.
  destruct (Z.eqb_spec c 0) as [->|Hc].
  - apply Qeq_bool_iff. rewrite dval_this by assumption. reflexivity.
  - apply not_true_is_false. intros H. apply Qeq_bool_iff in H.
    rewrite dval_this in H by assumption. unfold Qeq in H. simpl in H. lia.
Qed.

(** X6.  The refine rate of a request: a form value of 0 counts as no
    value (the stored setting is used).  A positive form value c/10^d
    (c below 10^24, d at most 20) of at most 1 is the rate itself, a larger one is a percentage and is
    divided by 100, so a form value of exactly 1 means 100 per cent; for
    every form value up to 100 the rate is above 0 and at most 1. *)
Theorem X6_refine_rate (c d : Z) (settings_value : Decimal.t)
    (Hd : 0 <= d <= 20) (Hc : 0 < c < 10 ^ 24) :
  refine_rate_of (Some Decimal.zero) settings_value = refine_rate_of None settings_value
  /\ snd (refine_rate_of (Some (dval c d)) settings_value)
     = (if c <=? 10 ^ d then dval c d else dval c (d + 2))
  /\ (c <= 100 * 10 ^ d ->
      (0 < this (snd (refine_rate_of (Some (dval c d)) settings_value)))%Q
      /\ (this (snd (refine_rate_of (Some (dval c d)) settings_value)) <= 1)%Q).
Proof.
  split; [reflexivity|].
  pose proof (pow10_pos d ltac:(lia)) as Hp.
  assert (Hrate : snd (refine_rate_of (Some (dval c d)) settings_value)
                  = (if c <=? 10 ^ d then dval c d else dval c (d + 2))).
  { unfold refine_rate_of. rewrite dval_eqb_zero by lia.
    destruct (Z.eqb_spec c 0) as [?|_]; [lia|].
    rewrite of_Z_dval, lit_dval by lia. rewrite (dval_scale 1 0 d) by lia.
    rewrite Z.add_0_l, Z.mul_1_l, dval_le by lia.
    cbn [snd]. unfold Decimal.mul, Decimal.div.
    change (dval 100 0) with (dval (10 ^ 2) 0).
    destruct (Z.leb_spec c (10 ^ d)) as [Hle|Hgt].
    - rewrite dval_mul, Z.add_0_r, fix_exact by (try lia; simpl; lia).
      rewrite dval_div_pow10, fix_exact by (try lia; simpl; lia).
      symmetry. apply dval_scale; lia.
    - rewrite dval_div_pow10 by lia. apply fix_exact; lia. }
  split; [exact Hrate|]. intros Hmax. rewrite Hrate.
  destruct (Z.leb_spec c (10 ^ d)) as [Hle|Hgt].
  - rewrite dval_Q by lia. split.
    + apply Qlt_shift_div_l; [unfold Qlt; simpl; lia|].
      unfold Qlt. simpl. lia.
    + apply Qle_shift_div_r; [unfold Qlt; simpl; lia|].
      unfold Qle. simpl. lia.
  - rewrite dval_Q by lia. pose proof (pow10_pos (d + 2) ltac:(lia)).
    assert (10 ^ (d + 2) = 100 * 10 ^ d) by (rewrite Z.pow_add_r by lia; lia).
    split.
    + apply Qlt_shift_div_l; [unfold Qlt; simpl; lia|].
      unfold Qlt. simpl. lia.
    + apply Qle_shift_div_r; [unfold Qlt; simpl; lia|].
      unfold Qle. simpl. lia.
Qed.

(** The form values 80.00 and 0.8 both give the rate 0.8. *)
Lemma X6_refine_rate_witness :
  snd (refine_rate_of (Some (dval 8000 2)) Decimal.zero) = dval 8000 4
  /\ snd (refine_rate_of (Some (dval 8 1)) Decimal.zero) = dval 8 1.
Proof.
  split.
  - destruct (X6_refine_rate 8000 2 Decimal.zero) as (_ & H & _);
      [lia|vm_compute; split; reflexivity|exact H].
  - destruct (X6_refine_rate 8 1 Decimal.zero) as (_ & H & _);
      [lia|vm_compute; split; reflexivity|exact H].
Defined.

End refine_rate_facts.

(** ** Supply and the initial stock *)

Section supply_facts.
Import Catalog Helper.

Lemma add_supply_have src : forall dst t,
  have (add_supply dst src) t = have dst t + supplied src t.
Proof.
  unfold add_supply. induction src as [|[k v] src IH]; intros dst t; simpl; [lia|].
  rewrite IH. destruct (Z.eqb_spec v 0) as [->|Hv].
  - destruct (k =? t); lia.
  - rewrite have_insert. destruct (decide (k = t)) as [->|Hne].
    + rewrite Z.eqb_refl. lia.
    + destruct (Z.eqb_spec k t); [congruence|lia].
Qed.

Lemma supplied_perm l1 l2 t : Permutation l1 l2 -> supplied l1 t = supplied l2 t.
Proof.
  induction 1 as [|x l1 l2 Hp IH|x y l|l1 l2 l3 H1 IH1 H2 IH2]; simpl.
  - reflexivity.
  - rewrite IH. reflexivity.
  - destruct (fst x =? t), (fst y =? t); lia.
  - congruence.
Qed.

Lemma supplied_map_to_list (m : ledger) t : supplied (map_to_list m) t = have m t.
Proof.
  induction m as [|k v m Hk Hfirst IH] using map_first_key_ind.
  - rewrite map_to_list_empty. reflexivity.
  - rewrite map_to_list_insert_first_key by assumption. simpl.
    rewrite IH, have_insert. destruct (decide (k = t)) as [->|Hne].
    + rewrite Z.eqb_refl. unfold have. rewrite Hk. simpl. lia.
    + destruct (Z.eqb_spec k t); [congruence|reflexivity].
Qed.

End supply_facts.

Section supply_capacity_facts.
Import Catalog Helper.

(** X8.  [add_supply] adds to every type of the ledger the sum of the
    quantities that the source lists for it; a type that the source does
    not list keeps its entry (or stays absent), and a non-negative ledger
    with non-negative source quantities stays non-negative. *)
Theorem X8_add_supply_totals (dst : ledger) (src : list (Z * Z)) (t : Z) :
  have (add_supply dst src) t = have dst t + supplied src t
  /\ (Forall (fun kv => fst kv <> t) src -> add_supply dst src !! t = dst !! t)
  /\ (nonneg dst -> Forall (fun kv => 0 <= snd kv) src -> nonneg (add_supply dst src)).
Proof.
  split; [apply add_supply_have|]. split.
  - revert dst. unfold add_supply.
    induction src as [|[k v] src IH]; intros dst Hf; simpl; [reflexivity|].
    inversion Hf as [|? ? Hk Hf']; subst. rewrite IH by assumption.
    destruct (v =? 0); [reflexivity|]. simpl in Hk. apply lookup_insert_ne. exact Hk.
  - revert dst. unfold add_supply.
    induction src as [|[k v] src IH]; intros dst Hn Hf; simpl; [exact Hn|].
    inversion Hf as [|? ? Hv Hf']; subst. apply IH; [|assumption].
    destruct (v =? 0); [exact Hn|]. apply nonneg_insert; [exact Hn|].
    pose proof (nonneg_have dst k Hn). simpl in Hv. lia.
Qed.

Lemma present_spec_ext s1 s2 reqs tm :
  (forall t, have s1 t = have s2 t) -> present_spec s1 reqs tm = present_spec s2 reqs tm.
Proof.
  intros H. unfold present_spec. f_equal.
  rewrite (List.filter_ext (fun r => 0 <? have s1 (fst r)) (fun r => 0 <? have s2 (fst r)))
    by (intros r; rewrite H; reflexivity).
  apply map_ext. intros r. unfold cap_of. rewrite H. reflexivity.
Qed.

(** X9.  [runcap_with_supply] is the run capacity of [runcap_with_present]
    over stock and feeder supply added up: the minimum, over the non-fuel
    requirements with a positive quantity per run of which stock and
    supply together hold some, of floor((stock + supply) / need), and 0
    when there is none.  The runs times the need never exceed stock plus
    supply for such a requirement. *)
Theorem X9_capacity_with_supply (stock supply : ledger) (reqs : list (Z * Z))
    (type_map : type_map_t) :
  let total t := have stock t + have supply t in
  runcap_with_supply stock reqs supply type_map
  = min_or_zero
      (map (fun r => total (fst r) / snd r)
         (List.filter (fun r => 0 <? total (fst r)) (gating type_map reqs)))
  /\ (forall tid need, In (tid, need) reqs -> is_fuel_id type_map tid = false ->
        0 < need -> 0 < total tid ->
        runcap_with_supply stock reqs supply type_map * need <= total tid).
Proof.
  cbv zeta.
  assert (Hsum : exists merged : ledger,
            runcap_with_supply stock reqs supply type_map
            = runcap_with_present merged reqs type_map
            /\ forall t, have merged t = have stock t + have supply t).
  { unfold runcap_with_supply. destruct (bool_decide (supply = ∅)) eqn:E.
    - apply bool_decide_eq_true in E. subst supply. exists stock. split; [reflexivity|].
      intros t. unfold have at 3. rewrite lookup_empty. simpl. lia.
    - exists (add_supply stock (map_to_list supply)). split; [reflexivity|].
      intros t. rewrite add_supply_have, supplied_map_to_list. reflexivity. }
  destruct Hsum as (merged & -> & Hm). split.
  - rewrite runcap_with_present_spec. unfold present_spec. f_equal.
    rewrite (List.filter_ext (fun r => 0 <? have merged (fst r))
               (fun r => 0 <? have stock (fst r) + have supply (fst r)))
      by (intros r; rewrite Hm; reflexivity).
    apply map_ext. intros r. unfold cap_of. rewrite Hm. reflexivity.
  - intros tid need Hin Hf Hn Ht. rewrite <- Hm.
    apply cap_sound; [assumption|].
    rewrite runcap_with_present_spec. apply min_or_zero_le.
    apply (in_map (cap_of merged) _ (tid, need)).
    apply filter_In. split; [|apply Z.ltb_lt; simpl; rewrite Hm; assumption].
    apply filter_In. split; [assumption|]. simpl. rewrite Hf.
    apply andb_true_intro. split; [apply Z.ltb_lt; assumption|reflexivity].
Qed.

(** 100 of item 1 in stock and 5 of item 2 supplied by a feeder. *)
Lemma X9_capacity_with_supply_witness :
  runcap_with_supply {[ 1 := 100 ]} [(1, 10); (2, 5)] {[ 2 := 5 ]} [] * 5 <= 0 + 5.
Proof.
  destruct (X9_capacity_with_supply {[ 1 := 100 ]} {[ 2 := 5 ]} [(1, 10); (2, 5)] [])
    as (_ & H).
  apply (H 2 5).
  - simpl. auto.
  - reflexivity.
  - lia.
  - vm_compute. reflexivity.
Defined.

End supply_capacity_facts.

Section stock_facts.
Import Catalog Helper.

Lemma supplied_dict (d : PyDict.t Z Z) t :
  List.NoDup (PyDict.keys d) -> supplied d t = default 0 (PyDict.get d t).
Proof.
  induction d as [|[k v] d IH]; simpl; intros Hnd; [reflexivity|].
  inversion Hnd as [|? ? Hk Hnd']; subst. rewrite (IH Hnd').
  destruct (decide (k = t)) as [->|Hne].
  - rewrite Z.eqb_refl. simpl.
    destruct (PyDict.get d t) as [v'|] eqn:E; [|simpl; lia].
    exfalso. apply Hk. apply dict_get_In_weak in E.
    apply (in_map fst) in E. exact E.
  - destruct (Z.eqb_spec k t); [congruence|reflexivity].
Qed.

Lemma credit_rows_have rows : forall (st : ledger) t,
  have (fold_left (fun st r => <[fst r := have st (fst r) + snd r]> st) rows st) t
  = have st t + supplied rows t.
Proof.
  induction rows as [|[k v] rows IH]; intros st t; simpl; [lia|].
  rewrite IH, have_insert. destruct (decide (k = t)) as [->|Hne].
  - rewrite Z.eqb_refl. lia.
  - destruct (Z.eqb_spec k t); [congruence|lia].
Qed.

Lemma direct_fold_have items : forall (st : ledger) t,
  have (fold_left
          (fun st p =>
             match item_category p with
             | material | fuel =>
                 <[et_id (evetype p) := have st (et_id (evetype p)) + item_quantity p]> st
             | refine => st
             end) items st) t
  = have st t + supplied (direct_items items) t.
Proof.
  induction items as [|p items IH]; intros st t; [unfold direct_items; simpl; lia|].
  cbn [fold_left]. rewrite IH. unfold direct_items. cbn [List.filter].
  destruct (item_category p); cbn [category_eqb negb map]; [| |reflexivity];
    cbn [supplied fold_right fst snd]; rewrite have_insert;
    (destruct (decide (et_id (evetype p) = t)) as [->|Hne];
     [rewrite Z.eqb_refl; unfold supplied; lia
     |destruct (Z.eqb_spec (et_id (evetype p)) t); [congruence|unfold supplied; lia]]).
Qed.

Lemma refine_yields_NoDup (f : Z * Z -> Z) mats : forall refined : PyDict.t Z Z,
  List.NoDup (PyDict.keys refined) ->
  List.NoDup (PyDict.keys
    (fold_left (fun refined m => if f m <=? 0 then refined
                                 else PyDict.set refined (fst m)
                                        (default 0 (PyDict.get refined (fst m)) + f m))
               mats refined)).
Proof.
  induction mats as [|m mats IH]; intros refined Hnd; simpl; [exact Hnd|].
  apply IH. destruct (f m <=? 0); [exact Hnd|]. apply dict_NoDup_set, Hnd.
Qed.

Lemma refine_from_inputs_NoDup db items rate urate :
  List.NoDup (PyDict.keys (fst (refine_from_inputs db items rate urate))).
Proof.
  unfold refine_from_inputs. cbn [fst].
  match goal with
  | |- List.NoDup (PyDict.keys (fold_left ?f ?l [])) =>
      assert (H : forall refined : PyDict.t Z Z, List.NoDup (PyDict.keys refined) ->
                  List.NoDup (PyDict.keys (fold_left f l refined)));
      [|apply H; constructor]
  end.
  generalize (List.filter (fun p => category_eqb (item_category p) refine) items) at 2.
  intros l. induction l as [|p l IH]; intros refined Hnd; simpl; [exact Hnd|].
  apply IH.
  apply (refine_yields_NoDup
           (fun m => refine_units (snd m) (item_quantity p) (et_portion_size (evetype p))
                       (rate_for (et_name (evetype p)) rate urate))).
  exact Hnd.
Qed.

(** X7.  The ledger that [build_initial_stock] returns holds for every
    type the quantity refined into it by [refine_from_inputs] plus the
    sum of the quantities of all material and fuel items of that type:
    repeated items add up, items to refine enter only through their
    yield.  The rows returned are those of [refine_from_inputs]. *)
Theorem X7_initial_stock_totals (db : DB) (items : list ParsedItem)
    (refine_rate : Decimal.t) (unrefined_rate : option Decimal.t) (t : Z) :
  have (fst (build_initial_stock db items refine_rate unrefined_rate)) t
  = default 0 (PyDict.get (fst (refine_from_inputs db items refine_rate unrefined_rate)) t)
    + supplied (direct_items items) t
  /\ snd (build_initial_stock db items refine_rate unrefined_rate)
     = snd (refine_from_inputs db items refine_rate unrefined_rate).
Proof.
  unfold build_initial_stock.
  pose proof (refine_from_inputs_NoDup db items refine_rate unrefined_rate) as Hnd.
  destruct (refine_from_inputs db items refine_rate unrefined_rate) as [refined rows].
  cbn [fst snd] in *. split; [|reflexivity].
  rewrite direct_fold_have, credit_rows_have, (supplied_dict refined t Hnd).
  unfold have. rewrite lookup_empty. simpl. lia.
Qed.

End stock_facts.

(** ** The first planning pass *)

Section planner_facts.
Import Catalog Helper Planner.

Lemma to_dict_NoDup rows : List.NoDup (PyDict.keys (to_dict rows)).
Proof.
  unfold to_dict.
  assert (H : forall d : PyDict.t Z Z, List.NoDup (PyDict.keys d) ->
            List.NoDup (PyDict.keys (fold_left (fun d '(k, v) => PyDict.set d k v) rows d))).
  { induction rows as [|[k v] rows IH]; intros d Hd; simpl; [exact Hd|].
    apply IH, dict_NoDup_set, Hd. }
  apply H. constructor.
Qed.

Lemma to_dict_values (P : Z -> Prop) rows :
  Forall (fun r => P (snd r)) rows -> Forall (fun r => P (snd r)) (to_dict rows).
Proof.
  unfold to_dict. intros Hr.
  assert (H : forall d : PyDict.t Z Z, Forall (fun r => P (snd r)) d ->
            Forall (fun r => P (snd r)) (fold_left (fun d '(k, v) => PyDict.set d k v) rows d)).
  { induction Hr as [|[k v] rows Hv Hr IH]; intros d Hd; simpl; [exact Hd|].
    apply IH, dict_set_Forall; assumption. }
  apply H. constructor.
Qed.

Lemma caps_of_fold rem reqs :
  caps_of rem reqs
  = map (fun r => have rem (fst r) / snd r) (List.filter (fun r => 0 <? snd r) reqs).
Proof.
  unfold caps_of.
  assert (H : forall acc,
            fold_left (fun caps '(tid, need) =>
                         if need <=? 0 then caps else caps ++ [have rem tid / need]) reqs acc
            = acc ++ map (fun r => have rem (fst r) / snd r)
                       (List.filter (fun r => 0 <? snd r) reqs)).
  { induction reqs as [|[t n] reqs IH]; intros acc; simpl; [rewrite app_nil_r; reflexivity|].
    rewrite IH. destruct (Z.leb_spec n 0), (Z.ltb_spec 0 n); try lia; [reflexivity|].
    simpl. rewrite <- app_assoc. reflexivity. }
  apply H.
Qed.

Lemma consume_nonneg runs reqs : forall rem consumed,
  List.NoDup (PyDict.keys reqs) -> nonneg rem ->
  Forall (fun r => snd r * runs <= have rem (fst r)) reqs ->
  nonneg (fst (fold_left
                 (fun '(rem, consumed) '(tid, need) =>
                    let use := need * runs in
                    (<[tid := have rem tid - use]> rem, PyDict.set consumed tid use))
                 reqs (rem, consumed))).
Proof.
  induction reqs as [|[t n] reqs IH]; intros rem consumed Hnd Hn Hf; simpl; [exact Hn|].
  inversion Hnd as [|? ? Hnotin Hnd']; subst. inversion Hf as [|? ? Ht Hf']; subst.
  simpl in Ht. apply IH; [assumption| |].
  - apply nonneg_insert; [assumption|lia].
  - rewrite List.Forall_forall in *. intros [t' n'] Hin. simpl.
    rewrite have_insert. destruct (decide (t = t')) as [->|_].
    + exfalso. apply Hnotin. apply (in_map fst) in Hin. exact Hin.
    + apply (Hf' _ Hin).
Qed.

Lemma produce_nonneg runs prods : forall rem produced,
  0 <= runs -> nonneg rem -> Forall (fun r => 0 <= snd r) prods ->
  nonneg (fst (fold_left
                 (fun '(rem, produced) '(tid, outq) =>
                    let qty := outq * runs in
                    (<[tid := have rem tid + qty]> rem, PyDict.set produced tid qty))
                 prods (rem, produced))).
Proof.
  induction prods as [|[t n] prods IH]; intros rem produced Hr Hn Hf; simpl; [exact Hn|].
  inversion Hf as [|? ? Ht Hf']; subst. simpl in Ht. apply IH; try assumption.
  apply nonneg_insert; [assumption|]. pose proof (nonneg_have rem t Hn). nia.
Qed.

Lemma plan_one_inv plans rem rx :
  Forall (fun r => 0 <= snd r) (products rx) -> nonneg rem ->
  nonneg (snd (plan_one (plans, rem) rx))
  /\ exists p, fst (plan_one (plans, rem) rx) = plans ++ [p] /\ rp_reaction p = rx /\ plan_ok p.
Proof.
  intros Hp Hn. unfold plan_one.
  set (reqs := to_dict (materials rx)). set (prods := to_dict (products rx)).
  set (runs := min_or_zero (caps_of rem reqs)).
  destruct (Z.leb_spec runs 0) as [Hr|Hr].
  - destruct (missing_of rem reqs) as [missing have_any]. simpl. split; [exact Hn|].
    eexists. split; [reflexivity|]. split; [reflexivity|].
    unfold plan_ok. simpl. repeat split; try reflexivity; lia.
  - destruct (consume rem reqs runs) as [rem1 consumed] eqn:Ec.
    destruct (produce rem1 prods runs) as [rem2 produced] eqn:Epr. simpl. split.
    + replace rem2 with (fst (produce rem1 prods runs)) by (rewrite Epr; reflexivity).
      apply produce_nonneg; [lia| |apply (to_dict_values (fun q => 0 <= q)); exact Hp].
      replace rem1 with (fst (consume rem reqs runs)) by (rewrite Ec; reflexivity).
      apply consume_nonneg; [apply to_dict_NoDup|exact Hn|].
      apply List.Forall_forall. intros [t n] Hin. simpl.
      destruct (Z_le_gt_dec n 0) as [Hle|Hgt].
      * pose proof (nonneg_have rem t Hn). nia.
      * rewrite Z.mul_comm. apply cap_sound; [lia|]. unfold runs. apply min_or_zero_le.
        rewrite caps_of_fold.
        apply (in_map (fun r => have rem (fst r) / snd r) _ (t, n)).
        apply filter_In. split; [exact Hin|]. apply Z.ltb_lt. simpl. lia.
    + eexists. split; [reflexivity|]. split; [reflexivity|].
      unfold plan_ok. simpl. repeat split; try reflexivity; lia.
Qed.

End planner_facts.

Section planner_pass_facts.
Import Catalog Helper Planner.

Lemma plan_fold_inv rxs : forall plans rem,
  Forall (fun rx => Forall (fun r => 0 <= snd r) (products rx)) rxs ->
  nonneg rem -> Forall plan_ok plans ->
  nonneg (snd (fold_left plan_one rxs (plans, rem)))
  /\ map rp_reaction (fst (fold_left plan_one rxs (plans, rem)))
     = map rp_reaction plans ++ rxs
  /\ Forall plan_ok (fst (fold_left plan_one rxs (plans, rem))).
Proof.
  induction rxs as [|rx rxs IH]; intros plans rem Hp Hn Hok; cbn [fold_left].
  - cbn [fst snd]. rewrite app_nil_r. auto.
  - inversion Hp as [|? ? Hrx Hp']; subst.
    destruct (plan_one_inv plans rem rx Hrx Hn) as (Hn1 & p & Hfst & Hrxp & Hpok).
    destruct (plan_one (plans, rem) rx) as [plans1 rem1]. cbn [fst snd] in *. subst plans1.
    destruct (IH (plans ++ [p]) rem1 Hp' Hn1) as (H1 & H2 & H3).
    { apply Forall_app. split; [assumption|]. constructor; [exact Hpok|constructor]. }
    split; [exact H1|]. split; [|exact H3].
    rewrite H2, map_app. simpl. rewrite Hrxp, <- app_assoc. reflexivity.
Qed.

(** X10.  [plan_reactions_once], started on a non-negative ledger with
    recipes whose product quantities are non-negative, never overdraws:
    the remaining ledger is non-negative.  It returns exactly one plan per
    recipe, in the order of the recipes; every plan has runs >= 0, a plan
    of 0 runs consumes and produces nothing, and a plan that runs misses
    nothing. *)
Theorem X10_plan_reactions_once (db : DB) (stock : ledger)
    (Hstock : nonneg stock)
    (Hprods : Forall (fun rx => Forall (fun r => 0 <= snd r) (products rx)) (reactions db)) :
  nonneg (snd (plan_reactions_once db stock))
  /\ map rp_reaction (plan_reactions_with_chain db stock) = reactions db
  /\ Forall plan_ok (plan_reactions_with_chain db stock).
Proof.
  unfold plan_reactions_with_chain, plan_reactions_once.
  destruct (plan_fold_inv (reactions db) [] stock Hprods Hstock ltac:(constructor))
    as (H1 & H2 & H3).
  auto.
Qed.

End planner_pass_facts.

(** ** Goal plans, feeders and the ranking *)

Section sort_facts.
Context {A : Type} (lt : A -> A -> bool).

Lemma insert_by_perm x l : Permutation (x :: l) (Chain.insert_by lt x l).
Proof.
  induction l as [|y l IH]; simpl; [reflexivity|].
  destruct (lt x y); [reflexivity|].
  etransitivity; [apply perm_swap|]. apply perm_skip, IH.
Qed.

Lemma sort_by_perm l : Permutation l (Chain.sort_by lt l).
Proof.
  unfold Chain.sort_by.
  assert (H : forall acc, Permutation (acc ++ l) (fold_left (fun acc x => Chain.insert_by lt x acc) l acc)).
  { induction l as [|x l IH]; intros acc; simpl; [rewrite app_nil_r; reflexivity|].
    etransitivity; [|apply IH].
    etransitivity; [apply Permutation_sym, Permutation_middle|].
    change (x :: acc ++ l) with ((x :: acc) ++ l).
    apply Permutation_app_tail, insert_by_perm. }
  apply (H []).
Qed.

Hypothesis lt_asym : forall a b, lt a b = true -> lt b a = false.
Hypothesis precede_trans : forall a b c,
  may_precede lt a b -> may_precede lt b c -> may_precede lt a c.

Lemma insert_by_ordered x l :
  ordered (may_precede lt) l -> ordered (may_precede lt) (Chain.insert_by lt x l).
Proof.
  induction l as [|y l IH]; simpl; [intros _; split; [constructor|exact I]|].
  intros [Hy Hs]. destruct (lt x y) eqn:E.
  - split; [|split; assumption].
    constructor; [apply lt_asym, E|].
    rewrite List.Forall_forall in *. intros z Hz.
    apply (precede_trans x y z); [apply lt_asym, E|apply Hy, Hz].
  - split; [|apply IH, Hs].
    rewrite List.Forall_forall in *. intros z Hz.
    apply (Permutation_in _ (Permutation_sym (insert_by_perm x l))) in Hz.
    destruct Hz as [<-|Hz]; [exact E|apply Hy, Hz].
Qed.

Lemma sort_by_ordered l : ordered (may_precede lt) (Chain.sort_by lt l).
Proof.
  unfold Chain.sort_by.
  assert (H : forall acc, ordered (may_precede lt) acc ->
            ordered (may_precede lt) (fold_left (fun acc x => Chain.insert_by lt x acc) l acc)).
  { induction l as [|x l IH]; intros acc Ha; simpl; [exact Ha|].
    apply IH, insert_by_ordered, Ha. }
  apply H. exact I.
Qed.

End sort_facts.

Section goal_facts.
Import Catalog Helper Chain.
Context (cfg : settings) (db : DB) (priced_plans : list plan).

Lemma rank_lt_asym a b : rank_lt a b = true -> rank_lt b a = false.
Proof.
  unfold rank_lt. destruct a as [[] x], b as [[] y]; simpl; intros H;
    try discriminate; try reflexivity;
    apply Z.ltb_lt in H; apply Z.ltb_ge; lia.
Qed.

Lemma rank_precede_trans a b c :
  may_precede rank_lt a b -> may_precede rank_lt b c -> may_precede rank_lt a c.
Proof.
  unfold may_precede, rank_lt. destruct a as [[] x], b as [[] y], c as [[] z]; simpl;
    intros H1 H2; try discriminate; try reflexivity;
    apply Z.ltb_ge in H1, H2; apply Z.ltb_ge; lia.
Qed.

Lemma goal_plans_inv stock tm :
  exists cands seen,
    goal_plans cfg db priced_plans stock tm
    = map snd (sort_by (fun a b => rank_lt (fst a) (fst b)) cands)
    /\ candidates_ok cfg db priced_plans tm cands seen.
Proof.
  unfold goal_plans.
  match goal with
  | |- context [fold_left ?f (indexed priced_plans) ([], [])] => set (step := f)
  end.
  assert (H : forall l cands seen,
            (forall p, In p l -> In p (indexed priced_plans)) ->
            candidates_ok cfg db priced_plans tm cands seen ->
            candidates_ok cfg db priced_plans tm (fst (fold_left step l (cands, seen)))
                             (snd (fold_left step l (cands, seen)))).
  { induction l as [|p l IH]; intros cands seen Hl Hok; [exact Hok|].
    cbn [fold_left]. 
    assert (Hstep : candidates_ok cfg db priced_plans tm (fst (step (cands, seen) p)) (snd (step (cands, seen) p))).
    { unfold step. cbv beta iota.
      destruct (negb _); [exact Hok|].
      destruct (bool_decide (goal_key p ∈ seen)) eqn:E; [exact Hok|].
      apply bool_decide_eq_false in E. cbn [fst snd].
      destruct Hok as (Hperm & Hnd & Hf). split; [|split].
      - rewrite map_app. cbn [map snd].
        etransitivity; [apply Permutation_app_comm|]. simpl. apply perm_skip, Hperm.
      - constructor; [|exact Hnd]. intros Hin. apply E. apply list_elem_of_In. exact Hin.
      - apply Forall_app. split; [exact Hf|]. constructor; [|constructor].
        cbn [fst snd]. split; [reflexivity|]. apply Hl. left. reflexivity. }
    destruct (step (cands, seen) p) as [cands1 seen1]. cbn [fst snd] in Hstep.
    apply IH; [intros q Hq; apply Hl; right; exact Hq|exact Hstep]. }
  specialize (H (indexed priced_plans) [] [] ltac:(auto)).
  destruct (fold_left step (indexed priced_plans) ([], [])) as [cands seen].
  exists cands, seen. split; [reflexivity|].
  apply H. split; [reflexivity|]. split; constructor.
Qed.

Lemma goal_plans_in stock tm gp :
  In gp (goal_plans cfg db priced_plans stock tm) -> In gp (indexed priced_plans).
Proof.
  destruct (goal_plans_inv stock tm) as (cands & seen & -> & Hperm & Hnd & Hf).
  intros Hgp. apply in_map_iff in Hgp as (c & <- & Hc).
  match type of Hc with
  | In _ (sort_by ?lt ?l) => apply (Permutation_in _ (Permutation_sym (sort_by_perm lt l))) in Hc
  end.
  rewrite List.Forall_forall in Hf. apply (Hf c Hc).
Qed.

Lemma goal_plans_keys stock tm :
  List.NoDup (map goal_key (goal_plans cfg db priced_plans stock tm)).
Proof.
  destruct (goal_plans_inv stock tm) as (cands & seen & -> & Hperm & Hnd & Hf).
  rewrite map_map. eapply Permutation_NoDup; [|exact Hnd].
  symmetry. etransitivity; [|exact Hperm].
  apply Permutation_map, Permutation_sym, sort_by_perm.
Qed.

Lemma goal_plans_length stock tm :
  (length (goal_plans cfg db priced_plans stock tm) <= length priced_plans)%nat.
Proof.
  rewrite <- (length_imap (fun i x => (i, x)) priced_plans).
  apply NoDup_incl_length; [|intros gp; apply goal_plans_in].
  eapply NoDup_map_inv. apply goal_plans_keys.
Qed.

(** X13.  The goal plans of a request are priced plans, no two of them
    share a blueprint id (plans without one count by identity), they are
    sorted by rank (plans that produce nothing unrefined first, then by
    the self-recovery loss), and they are at most as many as the priced
    plans. *)
Theorem X13_goal_plans (stock : ledger) (tm : type_map_t) :
  (forall gp, In gp (goal_plans cfg db priced_plans stock tm) ->
     In gp (indexed priced_plans))
  /\ List.NoDup (map goal_key (goal_plans cfg db priced_plans stock tm))
  /\ ordered (fun a b => rank_lt (rank cfg db (snd b) tm) (rank cfg db (snd a) tm) = false)
       (goal_plans cfg db priced_plans stock tm)
  /\ (length (goal_plans cfg db priced_plans stock tm) <= length priced_plans)%nat.
Proof.
  split; [intros gp; apply goal_plans_in|]. split; [apply goal_plans_keys|].
  split; [|apply goal_plans_length].
  destruct (goal_plans_inv stock tm) as (cands & seen & -> & Hperm & Hnd & Hf).
  set (ltk := fun a b : bool * Z * (nat * plan) => rank_lt (fst a) (fst b)).
  pose proof (sort_by_perm ltk cands) as Hs.
  pose proof (sort_by_ordered ltk
                (fun a b H => rank_lt_asym (fst a) (fst b) H)
                (fun a b c H1 H2 => rank_precede_trans (fst a) (fst b) (fst c) H1 H2)
                cands) as Hord.
  assert (Hf' : Forall (fun c => fst c = rank cfg db (snd (snd c)) tm) (sort_by ltk cands)).
  { rewrite List.Forall_forall in *. intros c Hc.
    apply (Permutation_in _ (Permutation_sym Hs)) in Hc. apply (Hf c Hc). }
  revert Hord Hf'. generalize (sort_by ltk cands) as l.
  induction l as [|c l IH]; simpl; [auto|].
  intros [Hc Hl] Hf'. inversion Hf' as [|? ? Hc0 Hl0]; subst.
  split; [|apply IH; assumption].
  rewrite List.Forall_forall in *. intros gp Hgp.
  apply in_map_iff in Hgp as (c' & <- & Hc').
  specialize (Hc c' Hc'). unfold may_precede, ltk in Hc.
  rewrite <- Hc0, <- (Hl0 c' Hc'). exact Hc.
Qed.

End goal_facts.

Section feeder_facts.
Import Catalog Helper Chain.
Context (priced_plans : list plan).

(** X14.  [find_feeders_for_parent] returns at most [max_count] plans; each
    of them is a priced plan other than the parent that produces an item
    which is not fuel and which the parent requires in positive quantity. *)
Theorem X14_feeders (parent : nat * plan) (tm : type_map_t) (max_count : nat) :
  (length (find_feeders_for_parent priced_plans parent tm max_count) <= max_count)%nat
  /\ forall fd, In fd (find_feeders_for_parent priced_plans parent tm max_count) ->
       In fd (indexed priced_plans)
       /\ fst fd <> fst parent
       /\ exists pid, In pid (map fst (per_run_products (snd fd)))
                      /\ In pid (positive_inputs (snd parent))
                      /\ is_fuel_id tm pid = false.
Proof.
  unfold find_feeders_for_parent. split.
  - rewrite length_take. lia.
  - intros fd Hfd. apply list_elem_of_In, elem_of_take in Hfd as (i & Hfd & _).
    apply list_elem_of_lookup_2, list_elem_of_In in Hfd.
    apply in_map_iff in Hfd as ([ov cand] & <- & Hc). cbn [snd].
    match type of Hc with
    | In _ (sort_by ?lt ?l) => apply (Permutation_in _ (Permutation_sym (sort_by_perm lt l))) in Hc
    end.
    apply in_flat_map in Hc as (cand' & Hin & Hc).
    destruct (Nat.eqb_spec (fst cand') (fst parent)) as [|Hne]; [destruct Hc|].
    destruct (existsb _ _) eqn:Ex; [|destruct Hc].
    destruct Hc as [Hc|[]]. injection Hc as _ ->.
    split; [exact Hin|]. split; [exact Hne|].
    apply existsb_exists in Ex as (pid & Hpid & Hp).
    apply andb_prop in Hp as [H1 H2]. exists pid. split; [exact Hpid|]. split.
    + apply bool_decide_eq_true in H1. apply list_elem_of_In. exact H1.
    + destruct (is_fuel_id tm pid); [discriminate|reflexivity].
Qed.

End feeder_facts.

Section loss_facts.
Import Catalog Helper Chain.
Context (db : DB).

(** X16.  [self_recovery_loss] is never negative, and it is 0 for a plan
    that produces no unrefined item. *)
Theorem X16_self_recovery_loss (p : plan) (rate : Decimal.t) (tm : type_map_t) :
  0 <= self_recovery_loss db p rate tm
  /\ (produces_unrefined p tm = false -> self_recovery_loss db p rate tm = 0).
Proof.
  unfold self_recovery_loss.
  assert (Hfold : forall (recovered : PyDict.t Z Z) reqs acc, 0 <= acc ->
            0 <= fold_left
                   (fun loss '(mtid, need) =>
                      let rec := default 0 (PyDict.get recovered mtid) in
                      if 0 <? rec then loss + Z.max (need - rec) 0 else loss)
                   reqs acc).
  { intros recovered reqs. induction reqs as [|[m n] reqs IH]; intros acc Ha; simpl; [exact Ha|].
    apply IH. destruct (0 <? _); lia. }
  split.
  - destruct (per_run_products p) as [|pr prs]; [lia|].
    destruct (per_run_requirements p) as [|rq rqs]; [lia|].
    apply Hfold. lia.
  - intros Hnone. unfold produces_unrefined in Hnone.
    destruct (per_run_products p) as [|pr prs] eqn:Ep; [reflexivity|].
    destruct (per_run_requirements p) as [|rq rqs] eqn:Er; [reflexivity|].
    assert (Hunref : List.filter (is_unrefined_id tm) (map fst (pr :: prs)) = []).
    { generalize dependent (pr :: prs). intros l _ Hl.
      induction l as [|x l IH]; [reflexivity|]. simpl in *.
      apply orb_false_elim in Hl as [-> Hl]. apply IH, Hl. }
    set (reqs := rq :: rqs). clearbody reqs.
    rewrite Hunref. cbn [fold_left].
    match goal with
    | |- fold_left ?f reqs 0 = 0 =>
        assert (H0 : forall acc, fold_left f reqs acc = acc); [|apply H0]
    end.
    induction reqs as [|[m n] reqs IH]; intros acc; simpl; [reflexivity|apply IH].
Qed.

End loss_facts.

(** ** The shape of the chains *)

Section shape_facts.
Import Catalog Helper Chain.
Context (cfg : settings) (db : DB) (priced_plans : list plan).

Lemma block_app n1 k1 n2 k2 l1 l2 :
  block n1 k1 l1 -> block n2 k2 l2 -> block (n1 + n2) (k1 + k2) (l1 ++ l2).
Proof.
  intros (H1 & H2 & H3) (H4 & H5 & H6). unfold block.
  rewrite length_app, List.filter_app, length_app. split; [lia|]. split; [lia|].
  apply Forall_app. split; assumption.
Qed.

Lemma block_weaken n k n' k' l : block n k l -> (n <= n')%nat -> (k <= k')%nat -> block n' k' l.
Proof. intros (H1 & H2 & H3) Hn Hk. unfold block. repeat split; try lia; assumption. Qed.

Lemma build_step_runs tm p r cur cum supply st cur' cum' :
  build_step cfg tm p r cur cum supply = Some (st, cur', cum') ->
  runs st = r /\ is_reaction st = true /\ runs (mark_feeder st) = r
  /\ is_reaction (mark_feeder st) = true.
Proof.
  unfold build_step. intros H.
  destruct (consume_all _ _ _ _ _ _) as [a|]; [|discriminate].
  cbn [mbind option_bind] in H.
  destruct (use_buyback cfg && _); [discriminate|].
  injection H as <- _ _. repeat split.
Qed.

Lemma reprocess_step_block used add tm cum feeder :
  block 1 0 [build_reprocess_step cfg used add tm cum feeder].
Proof.
  unfold build_reprocess_step. destruct (fold_left _ add _) as [[v vol] ids].
  unfold block. simpl. repeat split; try lia. repeat constructor. simpl. lia.
Qed.

Lemma reaction_block tm p r cur cum supply st cur' cum' :
  build_step cfg tm p r cur cum supply = Some (st, cur', cum') -> 0 < r ->
  block 1 1 [st] /\ block 1 1 [mark_feeder st].
Proof.
  intros H Hr. destruct (build_step_runs _ _ _ _ _ _ _ _ _ H) as (H1 & H2 & H3 & H4).
  unfold block. cbn [length List.filter]. rewrite H2, H4. cbn [length].
  repeat split; try lia; repeat constructor; lia.
Qed.

Lemma feeder_one_shape a fd tm a' tm' :
  feeder_one cfg db a fd tm = Some (a', tm') ->
  exists extra, fd_steps a' = fd_steps a ++ extra /\ block 2 1 extra.
Proof.
  unfold feeder_one, bind, get_type_map, lift, ret, reprocessM.
  destruct (Z.leb_spec (runcap_with_present (fd_stock a) (per_run_requirements (snd fd)) tm) 0) as [Hr|Hr].
  { intros [= <- <-]. exists []. rewrite app_nil_r. split; [reflexivity|].
    unfold block. simpl. repeat split; try lia. constructor. }
  destruct (build_step cfg tm (snd fd) _ (fd_stock a) (fd_profit a) ∅)
    as [[[st cur] profit]|] eqn:Eb; [|discriminate].
  destruct (reprocess_unrefined_in_stock db _ _ tm) as [[add used] tm1] eqn:Er.
  destruct (reaction_block _ _ _ _ _ _ _ _ _ Eb Hr) as [_ Hb].
  destruct add as [|x add]; intros [= <- <-]; simpl.
  - eexists. split; [reflexivity|]. eapply block_weaken; [exact Hb|lia|lia].
  - eexists. split; [reflexivity|].
    change [mark_feeder st; ?b] with ([mark_feeder st] ++ [b]).
    apply (block_app 1 1 1 0); [exact Hb|apply reprocess_step_block].
Qed.

Lemma feeder_loop_shape feeders : forall a tm a' tm',
  feeder_loop cfg db a feeders tm = Some (a', tm') ->
  exists extra, fd_steps a' = fd_steps a ++ extra
                /\ block (2 * length feeders) (length feeders) extra.
Proof.
  induction feeders as [|fd feeders IH]; simpl; intros a tm a' tm'.
  - intros [= <- <-]. exists []. rewrite app_nil_r. split; [reflexivity|].
    unfold block. simpl. repeat split; try lia. constructor.
  - unfold bind at 1. destruct (feeder_one cfg db a fd tm) as [[a1 tm1]|] eqn:E; [|discriminate].
    intros H. destruct (feeder_one_shape _ _ _ _ _ E) as (e1 & He1 & Hb1).
    destruct (IH _ _ _ _ H) as (e2 & He2 & Hb2).
    exists (e1 ++ e2). split; [rewrite He2, He1, app_assoc; reflexivity|].
    eapply block_weaken; [apply (block_app _ _ _ _ _ _ Hb1 Hb2)|lia|lia].
Qed.

Lemma step_and_reprocess_shape p r cur profit tm sts cur' profit' refined allowed tm' :
  step_and_reprocess cfg db p r cur profit tm
    = Some ((sts, cur', profit', refined, allowed), tm') ->
  0 < r -> block 2 1 sts.
Proof.
  unfold step_and_reprocess, bind, get_type_map, lift, ret, reprocessM.
  destruct (build_step cfg tm p r cur profit ∅) as [[[st cur1] profit1]|] eqn:Eb; [|discriminate].
  destruct (reprocess_unrefined_in_stock db _ _ tm) as [[add used] tm1] eqn:Er.
  intros H Hr. destruct (reaction_block _ _ _ _ _ _ _ _ _ Eb Hr) as [Hb _].
  destruct add as [|x add]; injection H as <- _ _ _ _ _.
  - eapply block_weaken; [exact Hb|lia|lia].
  - change [st; ?b] with ([st] ++ [b]).
    apply (block_app 1 1 1 0); [exact Hb|apply reprocess_step_block].
Qed.

Lemma pick_best_positive skip guard allowed stock_map cands : forall best tm res tm',
  pick_best cfg db skip guard allowed stock_map cands best tm = Some (res, tm') ->
  (forall p r k, best = Some (p, r, k) -> 0 < r) ->
  forall p r k, res = Some (p, r, k) -> 0 < r.
Proof.
  induction cands as [|c cands IH]; intros best tm res tm'; cbn [pick_best].
  - unfold ret. intros [= <- <-]. auto.
  - destruct (bool_decide (skip = Some (fst c))); [apply IH|].
    unfold bind at 1, get_type_map at 1.
    destruct (negb (consumes_any_of (snd c) allowed tm)); [apply IH|].
    unfold bind at 1.
    destruct (has_refined_already db (snd c) stock_map tm) as [[refined tm1]|]; [|discriminate].
    destruct refined; [apply IH|].
    unfold bind at 1, get_type_map at 1.
    destruct (negb (guard (snd c) tm1)); [apply IH|].
    destruct (Z.leb_spec (runcap_with_present stock_map (per_run_requirements (snd c)) tm1) 0)
      as [Hr|Hr]; [apply IH|].
    intros H Hbest. eapply IH; [exact H|].
    intros p r k. destruct best as [[[bp br] bk]|].
    + destruct (rank_lt _ bk); intros [= <- <- <-]; [exact Hr|eapply Hbest; reflexivity].
    + intros [= <- <- <-]. exact Hr.
Qed.

Lemma forward_shape left : forall p2 rp na cur profit rendered tm rendered' tm',
  forward cfg db priced_plans left p2 rp na cur profit rendered tm = Some (rendered', tm') ->
  exists extra, rendered' = rendered ++ extra /\ block (2 * left) left extra.
Proof.
  induction left as [|left IH]; intros p2 rp na cur profit rendered tm rendered' tm'.
  - simpl. unfold ret. intros [= <- <-]. exists []. rewrite app_nil_r.
    split; [reflexivity|]. unfold block. simpl. repeat split; try lia. constructor.
  - cbn [forward]. unfold bind at 1.
    destruct (pick_best _ _ _ _ _ _ _ _ tm) as [[best tm1]|] eqn:Ep; [|discriminate].
    destruct best as [[[pn rN] key]|].
    2:{ unfold ret. intros [= <- <-]. exists []. rewrite app_nil_r.
        split; [reflexivity|]. unfold block. simpl. repeat split; try lia. constructor. }
    unfold bind at 1.
    destruct (step_and_reprocess cfg db pn rN cur profit tm1)
      as [[[[[[sts curN] profitN] refN] allowedN] tm2]|] eqn:Es; [|discriminate].
    intros H.
    assert (HrN : 0 < rN).
    { eapply (pick_best_positive _ _ _ _ _ _ _ _ _ Ep); [intros; discriminate|reflexivity]. }
    pose proof (step_and_reprocess_shape _ _ _ _ _ _ _ _ _ _ _ Es HrN) as Hb.
    destruct (IH _ _ _ _ _ _ _ _ _ H) as (e2 & -> & Hb2).
    exists (sts ++ e2). split; [rewrite app_assoc; reflexivity|].
    eapply block_weaken; [apply (block_app _ _ _ _ _ _ Hb Hb2)|lia|lia].
Qed.

Lemma feeders_length parent tm max_count :
  (length (find_feeders_for_parent priced_plans parent tm max_count) <= max_count)%nat.
Proof. unfold find_feeders_for_parent. rewrite length_take. lia. Qed.

Lemma block_nil n k : block n k [].
Proof. unfold block. simpl. repeat split; try lia. constructor. Qed.

Lemma chain_for_goal_shape stock gp tm c tm' :
  chain_for_goal cfg db priced_plans stock gp tm = Some (Some c, tm') ->
  exists pre step1 post,
    steps c = pre ++ step1 :: post
    /\ block 4 2 pre /\ block 1 1 [step1] /\ is_reaction step1 = true /\ block 7 3 post.
Proof.
  unfold chain_for_goal. unfold bind at 1, get_type_map at 1. unfold bind at 1.
  destruct (feeder_loop _ _ _ _ tm) as [[a tm1]|] eqn:Ef; [|discriminate].
  destruct (feeder_loop_shape _ _ _ _ _ Ef) as (pre & Hpre & Hbpre).
  cbn [fd_steps app] in Hpre.
  assert (Hb4 : block 4 2 pre).
  { pose proof (feeders_length gp tm 2) as Hl.
    eapply block_weaken; [exact Hbpre|lia|lia]. }
  unfold bind at 1, get_type_map at 1.
  destruct (Z.leb_spec (runcap_with_supply (fd_stock a) (per_run_requirements (snd gp))
                          (fd_supply a) tm1) 0) as [Hr|Hr]; [unfold ret; discriminate|].
  unfold bind at 1, lift at 1.
  destruct (build_step cfg tm1 (snd gp) _ (fd_stock a) (fd_profit a) (fd_supply a))
    as [[[step1 cur1] profit]|] eqn:Eb; [|discriminate].
  destruct (reaction_block _ _ _ _ _ _ _ _ _ Eb Hr) as [Hb1 _].
  destruct (build_step_runs _ _ _ _ _ _ _ _ _ Eb) as (_ & Hreact & _).
  unfold bind at 1, reprocessM at 1.
  destruct (reprocess_unrefined_in_stock db _ _ tm1) as [[add used] tm2] eqn:Er.
  unfold bind at 1, get_type_map at 1.
  destruct (_would_self_loop _ _ _ _ _); [unfold ret; discriminate|].
  set (st3 := match add with
              | [] => _
              | _ :: _ => _
              end).
  assert (H3 : exists post3, snd (fst st3) = pre ++ step1 :: post3 /\ block 1 0 post3).
  { subst st3. destruct add; cbn [fst snd]; rewrite Hpre.
    - exists []. split; [reflexivity|]. apply block_nil.
    - eexists. split; [rewrite <- app_assoc; reflexivity|]. apply reprocess_step_block. }
  destruct st3 as [[cur3 rendered3] prev]. cbn [fst snd] in H3.
  destruct H3 as (post3 & -> & Hb3).
  unfold bind at 1.
  destruct (pick_best _ _ _ _ _ _ _ _ tm2) as [[best tm3]|] eqn:Ep; [|discriminate].
  unfold bind at 1.
  destruct best as [[[p2 r2] key]|].
  - unfold bind at 1.
    destruct (step_and_reprocess cfg db p2 r2 cur3 profit tm3)
      as [[[[[[sts2 cur4] profit2] ref2] allowed2] tm4]|] eqn:Es; [|discriminate].
    destruct (forward _ _ _ _ _ _ _ _ _ _ tm4) as [[rendered5 tm5]|] eqn:Efw; [|discriminate].
    intros H. unfold bind, get_type_map, lift, ret in H.
    destruct (finish_chain rendered5 tm5) as [c5|] eqn:Efin; [|discriminate].
    injection H as <- <-.
    rewrite (steps_finish_chain _ _ _ Efin).
    assert (Hr2 : 0 < r2).
    { eapply (pick_best_positive _ _ _ _ _ _ _ _ _ Ep); [intros; discriminate|reflexivity]. }
    pose proof (step_and_reprocess_shape _ _ _ _ _ _ _ _ _ _ _ Es Hr2) as Hb2.
    destruct (forward_shape _ _ _ _ _ _ _ _ _ _ Efw) as (e5 & -> & Hb5).
    exists pre, step1, (post3 ++ sts2 ++ e5).
    split; [rewrite <- !app_assoc; reflexivity|].
    split; [exact Hb4|]. split; [exact Hb1|]. split; [exact Hreact|].
    apply (block_app 1 0 6 3); [exact Hb3|].
    apply (block_app 2 1 4 2); [exact Hb2|exact Hb5].
  - unfold ret at 1. intros H. unfold bind, get_type_map, lift, ret in H.
    destruct (finish_chain _ tm3) as [c3|] eqn:Efin; [|discriminate].
    injection H as <- <-.
    rewrite (steps_finish_chain _ _ _ Efin).
    exists pre, step1, post3.
    split; [reflexivity|]. split; [exact Hb4|]. split; [exact Hb1|]. split; [exact Hreact|].
    eapply block_weaken; [exact Hb3|lia|lia].
Qed.

Lemma chains_loop_length stock goals : forall acc tm chains tm',
  chains_loop cfg db priced_plans stock goals acc tm = Some (chains, tm') ->
  (length chains <= length acc + length goals)%nat
  /\ ((length acc <= virtual_limit)%nat -> (length chains <= virtual_limit)%nat).
Proof.
  induction goals as [|gp goals IH]; intros acc tm chains tm'; cbn [chains_loop].
  - unfold ret. intros [= <- <-]. simpl. lia.
  - destruct (Nat.leb_spec virtual_limit (length acc)) as [Hl|Hl].
    { unfold ret. intros [= <- <-]. simpl. lia. }
    unfold bind at 1.
    destruct (chain_for_goal cfg db priced_plans stock gp tm) as [[c tm1]|] eqn:E; [|discriminate].
    intros H. apply IH in H as [H1 H2]. rewrite length_app in H1, H2.
    cbn [length]. destruct c as [ch|]; cbn [length] in H1, H2; lia.
Qed.

(** X12.  Every chain that a request produces has between 1 and 12 steps,
    of which between 1 and 6 are reaction steps (at most two feeders, the
    goal, and at most three further reactions, each followed by at most
    one reprocess step), and every step of it has at least one run. *)
Theorem X12_chain_shape (stock : ledger) (type_map : type_map_t)
    (chains : list chain) (type_map' : type_map_t) (c : chain)
    (Hrun : build_chains cfg db priced_plans stock type_map = Some (chains, type_map'))
    (Hc : In c chains) :
  (1 <= length (steps c) <= 12)%nat
  /\ (1 <= length (List.filter is_reaction (steps c)) <= 6)%nat
  /\ Forall (fun s => 1 <= runs s) (steps c).
Proof.
  revert Hrun Hc. unfold build_chains, bind, get_type_map. intros H Hin.
  assert (HF : Forall (fun c => exists pre step1 post,
                          steps c = pre ++ step1 :: post
                          /\ block 4 2 pre /\ block 1 1 [step1]
                          /\ is_reaction step1 = true /\ block 7 3 post) chains).
  { eapply chains_loop_inv; [|exact H|constructor].
    intros gp tm c0 tm0 Hc. exact (chain_for_goal_shape _ _ _ _ _ Hc). }
  rewrite List.Forall_forall in HF.
  destruct (HF c Hin) as (pre & step1 & post & -> & Hpre & H1 & Hreact & Hpost).
  change (step1 :: post) with ([step1] ++ post).
  destruct (block_app _ _ _ _ _ _ Hpre (block_app _ _ _ _ _ _ H1 Hpost)) as (Ha & Hb & Hf).
  rewrite !length_app, !List.filter_app, !length_app in *.
  cbn [List.filter length] in *. rewrite Hreact in *. cbn [length] in *.
  repeat split; try lia. exact Hf.
Qed.

(** X11.  A request produces at most 50 chains, and at most one chain per
    priced plan. *)
Theorem X11_chain_count (stock : ledger) (type_map : type_map_t)
    (chains : list chain) (type_map' : type_map_t)
    (Hrun : build_chains cfg db priced_plans stock type_map = Some (chains, type_map')) :
  (length chains <= 50)%nat /\ (length chains <= length priced_plans)%nat.
Proof.
  revert Hrun. unfold build_chains, bind, get_type_map. intros H.
  destruct (chains_loop_length _ _ _ _ _ _ H) as [H1 H2]. split.
  - apply H2. simpl. unfold virtual_limit. lia.
  - pose proof (goal_plans_length cfg db priced_plans stock type_map). simpl in H1. lia.
Qed.

End shape_facts.

(** ** Reprocessing and the ledger after a step *)

Section reprocess_facts.
Import Catalog Helper Chain.
Context (db : DB).

Lemma reprocess_one_used rows produced rate st u t :
  PyDict.get (snd (reprocess_one db rows produced rate st u)) t
  = if bool_decide (t = u) && (0 <? default 0 (PyDict.get produced u))
    then Some (default 0 (PyDict.get (snd st) t) + default 0 (PyDict.get produced u))
    else PyDict.get (snd st) t.
Proof.
  destruct st as [add used]. unfold reprocess_one. rewrite Z.ltb_antisym.
  destruct (default 0 (PyDict.get produced u) <=? 0); cbn [negb snd].
  - rewrite andb_false_r. reflexivity.
  - rewrite andb_true_r, dict_get_set.
    destruct (decide (u = t)) as [->|Hne].
    + rewrite bool_decide_eq_true_2 by reflexivity. reflexivity.
    + rewrite bool_decide_eq_false_2 by congruence. reflexivity.
Qed.

Lemma reprocess_used_fold rows produced rate ids : forall st t,
  List.NoDup ids ->
  PyDict.get (snd (fold_left (reprocess_one db rows produced rate) ids st)) t
  = if bool_decide (t ∈ ids) && (0 <? default 0 (PyDict.get produced t))
    then Some (default 0 (PyDict.get (snd st) t) + default 0 (PyDict.get produced t))
    else PyDict.get (snd st) t.
Proof.
  induction ids as [|u ids IH]; intros st t Hnd; cbn [fold_left].
  - rewrite bool_decide_eq_false_2 by (apply not_elem_of_nil). reflexivity.
  - inversion Hnd as [|? ? Hu Hnd']; subst. rewrite (IH _ _ Hnd').
    rewrite reprocess_one_used.
    destruct (decide (t = u)) as [->|Hne].
    + rewrite (bool_decide_eq_false_2 (u ∈ ids))
        by (intros H; apply Hu, list_elem_of_In, H).
      rewrite (bool_decide_eq_true_2 (u ∈ u :: ids)) by (left).
      rewrite (bool_decide_eq_true_2 (u = u)) by reflexivity. reflexivity.
    + rewrite (bool_decide_eq_false_2 (t = u)) by exact Hne. cbn [andb].
      assert (Hb : bool_decide (t ∈ u :: ids) = bool_decide (t ∈ ids)).
      { apply bool_decide_ext. rewrite elem_of_cons. tauto. }
      rewrite Hb. reflexivity.
Qed.

Lemma reprocess_add_needs_used rows produced rate ids : forall st,
  (snd st = [] -> fst st = []) ->
  snd (fold_left (reprocess_one db rows produced rate) ids st) = [] ->
  fst (fold_left (reprocess_one db rows produced rate) ids st) = [].
Proof.
  induction ids as [|u ids IH]; intros [add used] Hst; cbn [fold_left]; [exact Hst|].
  apply IH. unfold reprocess_one.
  destruct (_ <=? 0); [exact Hst|]. cbn [fst snd]. intros H.
  destruct used as [|[k v] used]; simpl in H; [discriminate|].
  destruct (decide (k = u)); discriminate.
Qed.

Lemma type_map_grows (missing : list Z) (types : list EveType) : forall tm : type_map_t,
  (forall t, t ∈ missing -> PyDict.get tm t = None) ->
  forall t e, PyDict.get tm t = Some e ->
  PyDict.get (fold_left (fun tm ty => if bool_decide (et_id ty ∈ missing)
                                      then PyDict.set tm (et_id ty) ty else tm) types tm) t
  = Some e.
Proof.
  intros tm Hmiss t e Hget.
  assert (Ht : t ∉ missing) by (intros H; rewrite (Hmiss t H) in Hget; discriminate).
  clear Hmiss. revert tm Hget.
  induction types as [|ty types IH]; intros tm Hget; simpl; [exact Hget|].
  apply IH. destruct (bool_decide (et_id ty ∈ missing)) eqn:E; [|exact Hget].
  apply bool_decide_eq_true in E. rewrite dict_get_set.
  destruct (decide (et_id ty = t)) as [Heq|]; [|exact Hget].
  exfalso. apply Ht. rewrite <- Heq. exact E.
Qed.

(** X15.  [reprocess_unrefined_in_stock] on a dictionary of produced
    quantities: the quantity it marks as used for a type is the produced
    quantity when the type is an unrefined item of the database produced
    in positive quantity, and 0 otherwise; every quantity it adds is
    positive; it adds nothing when it uses nothing; and it leaves every
    entry that the type map had unchanged. *)
Theorem X15_reprocess_accounts (produced : list (Z * Z)) (rate : Decimal.t)
    (tm : type_map_t) (add used : PyDict.t Z Z) (tm' : type_map_t)
    (Hkeys : List.NoDup (PyDict.keys produced))
    (Hrun : reprocess_unrefined_in_stock db produced rate tm = (add, used, tm')) :
  (forall t,
     default 0 (PyDict.get used t)
     = if unrefined_in_db db t && (0 <? default 0 (PyDict.get produced t))
       then default 0 (PyDict.get produced t) else 0)
  /\ Forall (fun kv => 0 < snd kv) add
  /\ (used = [] -> add = [])
  /\ (forall t e, PyDict.get tm t = Some e -> PyDict.get tm' t = Some e).
Proof.
  split; [|split; [exact (reprocess_add_positive _ _ _ _ _ _ _ Hrun)|]].
  - intros t. revert Hrun. unfold reprocess_unrefined_in_stock.
    set (ids := List.filter _ (PyDict.keys produced)).
    assert (Hids : forall x, x ∈ ids <-> x ∈ PyDict.keys produced /\ unrefined_in_db db x = true).
    { intros x. unfold ids. rewrite !list_elem_of_In, filter_In. unfold unrefined_in_db.
      reflexivity. }
    assert (Hnd : List.NoDup ids) by (apply List.NoDup_filter, Hkeys).
    assert (Hnokey : t ∉ PyDict.keys produced -> PyDict.get produced t = None).
    { intros Hn. destruct (PyDict.get produced t) as [v|] eqn:E; [|reflexivity].
      exfalso. apply Hn. apply dict_get_In_weak in E. apply list_elem_of_In.
      apply (in_map fst) in E. exact E. }
    destruct ids as [|i ids'] eqn:Eids.
    + cbv beta iota. intros H0; injection H0 as Ha0 Hu0 Ht0; subst add used tm'. simpl.
      destruct (unrefined_in_db db t) eqn:Eu; [|reflexivity]. cbn [andb].
      destruct (decide (t ∈ PyDict.keys produced)) as [Hk|Hk].
      * exfalso. apply (not_elem_of_nil t). apply Hids. split; assumption.
      * rewrite (Hnokey Hk). reflexivity.
    + rewrite <- Eids in *. intros H.
      assert (Hu : used = snd (fold_left
                (reprocess_one db (material_totals db ids) produced rate) ids ([], []))).
      { injection H as H1 _. rewrite H1. reflexivity. }
      rewrite Hu, (reprocess_used_fold _ _ _ _ _ _ Hnd). simpl (PyDict.get (snd _) _).
      destruct (bool_decide (t ∈ ids)) eqn:E.
      * apply bool_decide_eq_true in E. apply Hids in E as [_ ->]. cbn [andb].
        destruct (0 <? _); reflexivity.
      * apply bool_decide_eq_false in E. cbn [andb default].
        destruct (unrefined_in_db db t) eqn:Eu; [|reflexivity]. cbn [andb].
        rewrite Hnokey; [reflexivity|]. intros Hk. apply E, Hids. split; assumption.
  - split.
    + revert Hrun. unfold reprocess_unrefined_in_stock.
      destruct (List.filter _ (PyDict.keys produced)) as [|i ids'] eqn:Eids.
      * cbv beta iota. intros H0; injection H0 as Ha0 Hu0 Ht0; subst add used tm'. reflexivity.
      * intros H Hused.
        match type of H with
        | (fold_left ?f ?l ?s, _) = _ =>
            pose proof (reprocess_add_needs_used (material_totals db l) produced rate l s
                          (fun _ => eq_refl)) as Hn;
            destruct (fold_left f l s) as [add0 used0]
        end.
        injection H as <- <- _. apply Hn. exact Hused.
    + revert Hrun. unfold reprocess_unrefined_in_stock.
      destruct (List.filter _ (PyDict.keys produced)) as [|i ids'] eqn:Eids.
      * cbv beta iota. intros H0; injection H0 as Ha0 Hu0 Ht0; subst add used tm'. auto.
      * intros H t e Hget. injection H as _ <-.
        apply type_map_grows; [|exact Hget].
        intros x Hx. apply list_elem_of_In, filter_In in Hx as [_ Hx].
        destruct (PyDict.get tm x) as [v|]; [|reflexivity].
        rewrite bool_decide_eq_true_2 in Hx by eauto. discriminate.
Qed.

End reprocess_facts.

Section step_ledger_facts.
Import Catalog Helper Chain.
Context (cfg : settings).

Lemma consume_one_have tm r tr a tid need a' :
  acc_supply a = ∅ -> 0 <= need * r ->
  consume_one cfg tm r tr a (tid, need) = Some a' ->
  acc_supply a' = ∅
  /\ forall t, have (acc_stock a') t
               = if bool_decide (tid = t) && known tm tid
                 then Z.max 0 (have (acc_stock a) t - need * r)
                 else have (acc_stock a) t.
Proof.
  intros Hs Hn. unfold consume_one, known.
  destruct (PyDict.get tm tid) as [et|].
  2:{ intros [= <-]. split; [exact Hs|]. intros t. rewrite andb_false_r. reflexivity. }
  assert (Hfc : Z.min (have (acc_supply a) tid) (need * r) = 0).
  { rewrite Hs. unfold have. rewrite lookup_empty. simpl. lia. }
  rewrite Hfc. cbn [Z.eqb mbind option_bind]. intros H.
  destruct (if _ && _ && _ then _ else _) as [u|]; [|discriminate].
  cbn [mbind option_bind] in H. injection H as <-. cbn [acc_supply acc_stock].
  split; [exact Hs|]. intros t. rewrite andb_true_r, have_insert.
  destruct (decide (tid = t)) as [->|Hne].
  - rewrite bool_decide_eq_true_2 by reflexivity. lia.
  - rewrite bool_decide_eq_false_2 by exact Hne. reflexivity.
Qed.

Lemma dict_get_fresh (d : list (Z * Z)) t : ~ In t (map fst d) -> PyDict.get d t = None.
Proof.
  intros Hn. destruct (PyDict.get d t) as [v|] eqn:E; [|reflexivity].
  exfalso. apply Hn. apply dict_get_In_weak in E. apply (in_map fst) in E. exact E.
Qed.

Lemma consume_all_have tm r tr reqs : forall a a',
  List.NoDup (map fst reqs) -> Forall (fun rq => 0 <= snd rq * r) reqs ->
  acc_supply a = ∅ ->
  consume_all cfg tm r tr a reqs = Some a' ->
  forall t, have (acc_stock a') t
            = match PyDict.get reqs t with
              | Some need => if known tm t then Z.max 0 (have (acc_stock a) t - need * r)
                             else have (acc_stock a) t
              | None => have (acc_stock a) t
              end.
Proof.
  induction reqs as [|[tid need] reqs IH]; intros a a' Hnd Hf Hs; cbn [consume_all].
  - intros [= <-] t. reflexivity.
  - inversion Hnd as [|? ? Hk Hnd']; subst. inversion Hf as [|? ? Hq Hf']; subst.
    destruct (consume_one cfg tm r tr a (tid, need)) as [a1|] eqn:E; [|discriminate].
    cbn [mbind option_bind]. intros H t.
    destruct (consume_one_have _ _ _ _ _ _ _ Hs Hq E) as [Hs1 H1].
    rewrite (IH _ _ Hnd' Hf' Hs1 H t). cbn [PyDict.get].
    destruct (decide (tid = t)) as [->|Hne].
    + rewrite (dict_get_fresh reqs t Hk), H1.
      rewrite bool_decide_eq_true_2 by reflexivity. reflexivity.
    + rewrite !H1, bool_decide_eq_false_2 by exact Hne. reflexivity.
Qed.

Lemma produce_all_have tm r tr prods : forall o,
  List.NoDup (map fst prods) ->
  forall t, have (out_stock (fold_left (produce_one cfg tm r tr) prods o)) t
            = have (out_stock o) t + per_run prods tm t * r.
Proof.
  unfold per_run.
  induction prods as [|[tid q] prods IH]; intros o Hnd t; cbn [fold_left].
  - simpl. destruct (known tm t); lia.
  - inversion Hnd as [|? ? Hk Hnd']; subst. rewrite (IH _ Hnd'). cbn [PyDict.get].
    unfold produce_one, known.
    destruct (decide (tid = t)) as [->|Hne]; cbn [default].
    + rewrite (dict_get_fresh prods t Hk).
      destruct (PyDict.get tm t) as [e|]; cbn [out_stock default]; [|lia].
      rewrite have_insert. destruct (decide (t = t)); [simpl; lia|congruence].
    + destruct (PyDict.get tm tid) as [e|]; cbn [out_stock]; [|reflexivity].
      rewrite have_insert. destruct (decide (tid = t)); [congruence|reflexivity].
Qed.

(** X17.  The ledger after a reaction step built without feeder supply:
    for a non-negative ledger, a run count >= 0 and a recipe that lists
    each required and each produced type once, with non-negative
    requirement quantities, every type t ends at
    max(0, stock[t] - need[t] * runs) + out[t] * runs, where need and out
    are the per-run quantities of the recipe for the types that the type
    map knows and 0 for all others.  So a step takes what it needs or all
    there is, credits its products, and touches nothing else. *)
Theorem X17_step_ledger (tm : type_map_t) (p : plan) (r : Z) (cur : ledger)
    (cum : Decimal.t) (st : step) (cur' : ledger) (cum' : Decimal.t)
    (Hcur : nonneg cur) (Hr : 0 <= r)
    (Hneeds : Forall (fun rq => 0 <= snd rq) (per_run_requirements p))
    (Hreqs : List.NoDup (map fst (per_run_requirements p)))
    (Hprods : List.NoDup (map fst (per_run_products p)))
    (Hrun : build_step cfg tm p r cur cum ∅ = Some (st, cur', cum')) :
  forall t,
    have cur' t
    = Z.max 0 (have cur t - per_run (per_run_requirements p) tm t * r)
      + per_run (per_run_products p) tm t * r.
Proof.
  intros t. revert Hrun. unfold build_step.
  destruct (consume_all _ _ _ _ _ _) as [a|] eqn:E; [|discriminate].
  cbn [mbind option_bind].
  destruct (use_buyback cfg && _); [discriminate|]. intros H. injection H as _ <- _.
  rewrite (produce_all_have _ _ _ _ _ Hprods). cbn [out_stock]. f_equal.
  assert (Hf : Forall (fun rq => 0 <= snd rq * r) (per_run_requirements p)).
  { eapply Forall_impl; [|exact Hneeds]. simpl. intros rq Hq. nia. }
  rewrite (fun Hs => consume_all_have _ _ _ _ _ _ Hreqs Hf Hs E t) by reflexivity.
  cbn [acc_stock].
  pose proof (nonneg_have cur t Hcur) as Hh. unfold per_run.
  destruct (PyDict.get (per_run_requirements p) t) as [need|]; destruct (known tm t);
    cbv beta iota; cbn [default]; unfold id; lia.
Qed.

End step_ledger_facts.

(** ** The buyback price and the order of the chains *)

Section buyback_facts.
Import Catalog Helper Chain.

Lemma div_half_even_cancel n d g : 0 < d -> 0 < g ->
  Num.div_half_even (n * g) (d * g) = Num.div_half_even n d.
Proof.
  intros Hd Hg. unfold Num.div_half_even.
  rewrite Z.div_mul_cancel_r by lia.
  rewrite Zmult_mod_distr_r.
  replace (2 * (n mod d * g)) with ((2 * (n mod d)) * g) by lia.
  assert (Hc : ((2 * (n mod d)) * g ?= d * g) = (2 * (n mod d) ?= d)).
  { destruct (Z.compare_spec (2 * (n mod d)) d) as [E|E|E].
    - rewrite E. apply Z.compare_refl.
    - apply Z.compare_lt_iff. nia.
    - apply Z.compare_gt_iff. nia. }
  rewrite Hc. reflexivity.
Qed.

Lemma div_half_even_bounds n d q : 0 < d -> 0 <= n <= q * d ->
  0 <= Num.div_half_even n d <= q.
Proof.
  intros Hd [Hn Hq]. unfold Num.div_half_even.
  pose proof (Z.mod_pos_bound n d Hd) as Hm.
  pose proof (Z.div_mod n d ltac:(lia)) as Hdm.
  assert (H0 : 0 <= n / d) by (apply Z.div_pos; lia).
  assert (Hle : n / d <= q) by (apply Z.div_le_upper_bound; lia).
  destruct (Z.compare_spec (2 * (n mod d)) d) as [E|E|E].
  - destruct (Z.even (n / d)); [lia|]. split; [lia|].
    destruct (Z.eq_dec (n / d) q) as [Hq'|]; [|lia]. nia.
  - lia.
  - split; [lia|]. destruct (Z.eq_dec (n / d) q) as [Hq'|]; [|lia]. nia.
Qed.

Lemma rescale_even_finer c j k : 0 <= j -> 0 <= k ->
  Decimal.rescale Decimal.ROUND_HALF_EVEN j (dval c (j + k)) = Num.div_half_even c (10 ^ k).
Proof.
  intros Hj Hk. unfold Decimal.rescale, Num.scaled.
  destruct (dval_reduced c (j + k) ltac:(lia)) as (g & Hg & Hc & Hp).
  set (n := Qnum (this (dval c (j + k)))) in *.
  set (d := Zpos (Qden (this (dval c (j + k))))) in *.
  assert (Hd : 0 < d) by (unfold d; lia). clearbody n d.
  destruct (Z.leb_spec (- j) 0) as [_|]; [|lia].
  rewrite Z.opp_involutive.
  pose proof (pow10_pos j Hj) as Hpj. pose proof (pow10_pos k Hk) as Hpk.
  rewrite Z.pow_add_r in Hp by lia.
  (* n * 10^j / d  against  c / 10^k, with c = n * g and 10^j * 10^k = d * g *)
  rewrite <- (div_half_even_cancel (n * 10 ^ j) d g) by lia.
  rewrite <- (div_half_even_cancel c (10 ^ k) (10 ^ j)) by lia.
  f_equal; [subst c; lia|lia].
Qed.

(** X18.  The buyback price of a unit: for a price with two decimals (as
    the price table stores it) between 0 and 10^18 and a buyback factor
    with four decimals between 0 and 1, [_buyback_unit] never raises and
    returns price times factor rounded half-even to four decimals, which
    is never negative and never above the price. *)
Theorem X18_buyback_unit (cfg : settings) (tid p m : Z)
    (Hprice : price cfg tid (buyback_basis cfg) = dval p 2)
    (Hmult : buyback_mult cfg = dval m 4)
    (Hp : 0 <= p < 10 ^ 20) (Hm : 0 <= m <= 10000) :
  _buyback_unit cfg tid = Some (dval (Num.div_half_even (p * m) 100) 4)
  /\ Decimal.leb Decimal.zero (dval (Num.div_half_even (p * m) 100) 4) = true
  /\ Decimal.leb (dval (Num.div_half_even (p * m) 100) 4)
                 (price cfg tid (buyback_basis cfg)) = true.
Proof.
  assert (Hb : 0 <= Num.div_half_even (p * m) 100 <= p * 100)
    by (apply div_half_even_bounds; nia).
  assert (H20 : (10 : Z) ^ 20 = 100000000000000000000) by reflexivity.
  assert (H28 : (10 : Z) ^ 28 = 10000000000000000000000000000) by reflexivity.
  split; [|split].
  - unfold _buyback_unit. rewrite Hprice, Hmult. unfold Decimal.mul.
    rewrite dval_mul by lia. change (2 + 4) with 6.
    rewrite fix_exact by (try lia; rewrite H28; nia).
    unfold Decimal.quantize. change 6 with (4 + 2).
    rewrite rescale_even_finer by lia. change (10 ^ 2) with 100.
    unfold Decimal.prec. destruct (Z.leb_spec (10 ^ 28) (Z.abs (Num.div_half_even (p * m) 100)));
      [rewrite H28 in *; lia|].
    rewrite lit_dval by lia. reflexivity.
  - unfold Decimal.zero. rewrite of_Z_dval, (dval_scale 0 0 4) by lia.
    change (0 * 10 ^ 4) with 0. change (0 + 4) with 4. rewrite dval_le by lia.
    apply Z.leb_le. lia.
  - rewrite Hprice, (dval_scale p 2 2) by lia. change (2 + 2) with 4. change (10 ^ 2) with 100.
    rewrite dval_le by lia. apply Z.leb_le. lia.
Qed.

End buyback_facts.

Section listing_facts.
Import Chain Listing.

Lemma ltb_lt (x y : Decimal.t) : Decimal.ltb x y = true <-> (this x < this y)%Q.
Proof.
  unfold Decimal.ltb, Num.Qc_ltb. rewrite negb_true_iff.
  split.
  - intros H. apply Qnot_le_lt. intros Hle. apply Qle_bool_iff in Hle. congruence.
  - intros H. destruct (Qle_bool (this y) (this x)) eqn:E; [|reflexivity].
    apply Qle_bool_iff in E. exfalso. apply (Qlt_not_le _ _ H E).
Qed.

Lemma pair_lt_true a b :
  pair_lt a b = true
  <-> ((this (fst a) < this (fst b))%Q
       \/ ((this (fst a) == this (fst b))%Q /\ (this (snd a) < this (snd b))%Q)).
Proof.
  unfold pair_lt, Decimal.eqb.
  rewrite orb_true_iff, andb_true_iff, !ltb_lt, Qeq_bool_iff. reflexivity.
Qed.

Lemma pair_lt_asym a b : pair_lt a b = true -> pair_lt b a = false.
Proof.
  intros H. apply pair_lt_true in H.
  destruct (pair_lt b a) eqn:E; [|reflexivity]. apply pair_lt_true in E.
  exfalso. destruct H as [H|[H1 H2]], E as [E|[E1 E2]]; lra.
Qed.

Lemma pair_precede_trans a b c :
  may_precede pair_lt a b -> may_precede pair_lt b c -> may_precede pair_lt a c.
Proof.
  unfold may_precede. intros H1 H2.
  destruct (pair_lt c a) eqn:E; [|reflexivity]. apply pair_lt_true in E. exfalso.
  assert (N1 : ~ ((this (fst b) < this (fst a))%Q
                  \/ ((this (fst b) == this (fst a))%Q /\ (this (snd b) < this (snd a))%Q)))
    by (intros N; apply pair_lt_true in N; congruence).
  assert (N2 : ~ ((this (fst c) < this (fst b))%Q
                  \/ ((this (fst c) == this (fst b))%Q /\ (this (snd c) < this (snd b))%Q)))
    by (intros N; apply pair_lt_true in N; congruence).
  destruct (Qlt_le_dec (this (fst b)) (this (fst a))) as [L1|L1]; [tauto|].
  destruct (Qlt_le_dec (this (fst c)) (this (fst b))) as [L2|L2]; [tauto|].
  destruct E as [E|[E1 E2]]; [lra|].
  destruct (Qlt_le_dec (this (snd b)) (this (snd a))) as [M1|M1];
    [apply N1; right; split; [lra|exact M1]|].
  destruct (Qlt_le_dec (this (snd c)) (this (snd b))) as [M2|M2];
    [apply N2; right; split; [lra|exact M2]|].
  lra.
Qed.

Lemma ordered_app {A} (R : A -> A -> Prop) l1 l2 :
  ordered R (l1 ++ l2)
  <-> ordered R l1 /\ ordered R l2 /\ Forall (fun a => Forall (R a) l2) l1.
Proof.
  induction l1 as [|x l1 IH]; simpl.
  - split; [intros H; repeat split; [exact H|constructor]|tauto].
  - rewrite IH, Forall_app. split.
    + intros ((H1 & H2) & H3 & H4 & H5). repeat split; try assumption.
      constructor; assumption.
    + intros ((H1 & H2) & H3 & H4). inversion H4; subst. tauto.
Qed.

Lemma ordered_rev {A} (R : A -> A -> Prop) l :
  ordered R l -> ordered (fun a b => R b a) (rev l).
Proof.
  induction l as [|x l IH]; simpl; [auto|].
  intros [Hx Hl]. apply ordered_app. split; [apply IH, Hl|]. split; [simpl; auto|].
  apply List.Forall_forall. intros a Ha. constructor; [|constructor].
  rewrite List.Forall_forall in Hx. apply Hx. apply in_rev. exact Ha.
Qed.

Lemma ordered_impl {A} (R S : A -> A -> Prop) l :
  (forall a b, R a b -> S a b) -> ordered R l -> ordered S l.
Proof.
  intros HRS. induction l as [|x l IH]; simpl; [auto|].
  intros [Hx Hl]. split; [|apply IH, Hl].
  eapply Forall_impl; [|exact Hx]. apply HRS.
Qed.

(** X19.  The list of chains shown is a permutation of the chains
    produced: sorting drops and repeats none.  For every sort key other
    than "name" no chain is followed by a chain with a larger key, and
    for the default key (neither "name" nor "value") the final
    profits never increase down the list. *)
Theorem X19_chains_sorted (sort_key : string) (chains_raw : list chain) :
  Permutation chains_raw (chains_sorted sort_key chains_raw)
  /\ (String.eqb sort_key "name" = false ->
      ordered (fun a b => sort_lt sort_key a b = false) (chains_sorted sort_key chains_raw))
  /\ (String.eqb sort_key "name" = false -> String.eqb sort_key "value" = false ->
      ordered (fun a b => Decimal.leb (final_profit b) (final_profit a) = true)
              (chains_sorted sort_key chains_raw)).
Proof.
  assert (Hperm : Permutation chains_raw (chains_sorted sort_key chains_raw)).
  { unfold chains_sorted. destruct (String.eqb sort_key "name").
    - apply sort_by_perm.
    - etransitivity; [apply Permutation_rev|].
      etransitivity; [apply sort_by_perm|]. apply Permutation_rev. }
  assert (Hord : String.eqb sort_key "name" = false ->
            ordered (fun a b => sort_lt sort_key a b = false)
                    (chains_sorted sort_key chains_raw)).
  { intros Hn. unfold chains_sorted. rewrite Hn.
    apply (ordered_rev (may_precede (sort_lt sort_key))).
    apply sort_by_ordered; unfold may_precede, sort_lt; rewrite Hn;
      destruct (String.eqb sort_key "value"); intros *.
    - apply pair_lt_asym.
    - apply pair_lt_asym.
    - apply (pair_precede_trans (_, _) (_, _) (_, _)).
    - apply (pair_precede_trans (_, _) (_, _) (_, _)). }
  split; [exact Hperm|]. split; [exact Hord|].
  intros Hn Hv. eapply ordered_impl; [|apply Hord, Hn].
  intros a b. unfold sort_lt. rewrite Hn, Hv. intros H.
  unfold Decimal.leb, Num.Qc_leb.
  destruct (Qle_bool (this (final_profit b)) (this (final_profit a))) eqn:E; [reflexivity|].
  exfalso. assert (Hlt : (this (final_profit a) < this (final_profit b))%Q).
  { apply Qnot_le_lt. intros Hle. apply Qle_bool_iff in Hle. congruence. }
  assert (Ht : pair_lt (final_profit a, final_value a) (final_profit b, final_value b) = true)
    by (apply pair_lt_true; left; exact Hlt).
  congruence.
Qed.

End listing_facts.

(** ** Examples of the further properties *)

Section further_examples.
Import Catalog Helper Chain.

Lemma demo_stock_nonneg : nonneg Demo.stock.
Proof.
  intros t q H. unfold Demo.stock in H. apply lookup_singleton_Some in H as [_ <-]. lia.
Qed.

(** The one recipe on 100 units of its material. *)
Lemma X10_plan_reactions_once_witness :
  nonneg (snd (Planner.plan_reactions_once Demo.rx_db Demo.stock))
  /\ map Planner.rp_reaction (Planner.plan_reactions_with_chain Demo.rx_db Demo.stock)
     = [Demo.rx].
Proof.
  destruct (X10_plan_reactions_once Demo.rx_db Demo.stock) as (H1 & H2 & _).
  - exact demo_stock_nonneg.
  - repeat constructor; simpl; lia.
  - split; [exact H1|exact H2].
Defined.

(** The request with the one recipe. *)
Lemma X11_chain_count_witness :
  match build_chains Demo.cfg Demo.db [Demo.recipe] Demo.stock Demo.type_map with
  | Some (chains, _) => (length chains <= 50)%nat /\ (length chains <= 1)%nat
  | None => False
  end.
Proof.
  destruct (build_chains Demo.cfg Demo.db [Demo.recipe] Demo.stock Demo.type_map)
    as [[chains tm']|] eqn:E; [|vm_compute in E; discriminate E].
  exact (X11_chain_count Demo.cfg Demo.db [Demo.recipe] Demo.stock Demo.type_map chains tm' E).
Defined.

(** The chain of the one recipe. *)
Lemma X12_chain_shape_witness :
  match build_chains Demo.cfg Demo.db [Demo.recipe] Demo.stock Demo.type_map with
  | Some (c :: _, _) => (1 <= length (steps c) <= 12)%nat
  | _ => False
  end.
Proof.
  destruct (build_chains Demo.cfg Demo.db [Demo.recipe] Demo.stock Demo.type_map)
    as [[[|c cs] tm']|] eqn:E;
    [vm_compute in E; discriminate E| |vm_compute in E; discriminate E].
  destruct (X12_chain_shape Demo.cfg Demo.db [Demo.recipe]
              Demo.stock Demo.type_map (c :: cs) tm' c E) as (H & _).
  - left. reflexivity.
  - exact H.
Defined.

(** Four unrefined items, each giving 10 units of Alpha at a rate of 0.55. *)
Lemma X15_reprocess_accounts_witness :
  match reprocess_unrefined_in_stock Demo.gamma_db [(3, 4); (2, 7)] (Decimal.lit 55 2) [] with
  | (add, used, _) =>
      default 0 (PyDict.get used 3) = 4 /\ default 0 (PyDict.get used 2) = 0
  end.
Proof.
  destruct (reprocess_unrefined_in_stock Demo.gamma_db [(3, 4); (2, 7)] (Decimal.lit 55 2) [])
    as [[add used] tm'] eqn:E.
  destruct (X15_reprocess_accounts Demo.gamma_db [(3, 4); (2, 7)] (Decimal.lit 55 2) []
              add used tm') as (H & _).
  - constructor; [simpl; intros [H|[]]; discriminate H|].
    constructor; [intros []|constructor].
  - exact E.
  - split; [rewrite (H 3)|rewrite (H 2)]; vm_compute; reflexivity.
Defined.

(** Ten runs of the recipe on 100 units of its material. *)
Lemma X17_step_ledger_witness :
  match build_step Demo.cfg Demo.type_map Demo.recipe 10 Demo.stock Decimal.zero ∅ with
  | Some (_, cur', _) => have cur' 1 = 0 /\ have cur' 2 = 50
  | None => False
  end.
Proof.
  destruct (build_step Demo.cfg Demo.type_map Demo.recipe 10 Demo.stock Decimal.zero ∅)
    as [[[st cur'] cum']|] eqn:E; [|vm_compute in E; discriminate E].
  pose proof (X17_step_ledger Demo.cfg Demo.type_map Demo.recipe 10 Demo.stock
                Decimal.zero st cur' cum' demo_stock_nonneg) as H.
  assert (Hr : 0 <= 10) by lia.
  assert (Hneeds : Forall (fun rq : Z * Z => 0 <= snd rq) (per_run_requirements Demo.recipe))
    by (repeat constructor; simpl; lia).
  assert (Hreqs : List.NoDup (map fst (per_run_requirements Demo.recipe)))
    by (repeat constructor; simpl; tauto).
  assert (Hprods : List.NoDup (map fst (per_run_products Demo.recipe)))
    by (repeat constructor; simpl; tauto).
  specialize (H Hr Hneeds Hreqs Hprods E).
  split; [rewrite (H 1)|rewrite (H 2)]; vm_compute; reflexivity.
Defined.

(** Alpha at 1.00 with a buyback factor of 0.9000. *)
Lemma X18_buyback_unit_witness : _buyback_unit Demo.cfg 1 = Some (dval 9000 4).
Proof.
  destruct (X18_buyback_unit Demo.cfg 1 100 9000) as (H & _).
  - apply (lit_dval 100 2). lia.
  - apply (lit_dval 9000 4). lia.
  - vm_compute. split; [discriminate|reflexivity].
  - lia.
  - exact H.
Defined.

End further_examples.
